(** * DJ Beatmatch Encoder: a shallow embedding of [beatmatch_encoder.py]

    The development follows the layout of the Python module:
    Python's [float] (IEEE 754 binary64) with the two builtins the module
    applies to it ([round(x, 2)] and [str]/[repr]), the two regular
    expressions, then [calculate_pitch_adjustment], [generate_new_filename],
    [scan_directory], [rename_tracks] and [main].

    Python's [str] is modelled by [string], whose characters are the code
    points below 256; on that range [\d] is the ten ASCII digits and [\s]
    is the twelve white-space code points listed in [is_space]. *)

From Stdlib Require Import ZArith List String Ascii Bool Lia.
From Stdlib Require Import Floats.SpecFloat.
Import ListNotations.

Local Open Scope Z_scope.

(* ================================================================= *)
(** ** Exceptions and results *)

Inductive exn : Type :=
| ZeroDivisionError
| OSError (msg : string).

Inductive result (A : Type) : Type :=
| Ok (a : A)
| Raise (e : exn).

Arguments Ok {A} a.
Arguments Raise {A} e.

Definition bind {A B : Type} (r : result A) (k : A -> result B) : result B :=
  match r with
  | Ok a => k a
  | Raise e => Raise e
  end.

Declare Scope result_scope.
Delimit Scope result_scope with result.
Notation "'let*' x ':=' r 'in' k" := (bind r (fun x => k))
  (at level 10, x name, r at level 100, k at level 200) : result_scope.
Local Open Scope result_scope.

(* ================================================================= *)
(** ** Python floats *)

Module PyFloat.

(** binary64: 53 bits of precision, infinities at exponent 1024. *)
Definition prec : Z := 53.
Definition emax : Z := 1024.

Definition float : Type := spec_float.

(** [float(n)] for an integer [n]. *)
Definition of_Z (n : Z) : float := binary_normalize prec emax n 0 false.

Definition zero : float := S754_zero false.

Definition is_zero (x : float) : bool :=
  match x with S754_zero _ => true | _ => false end.

Definition is_nan (x : float) : bool :=
  match x with S754_nan => true | _ => false end.

(** [x == y], [x < y], [x <= y], [x > y] *)
Definition eqb (x y : float) : bool := SFeqb x y.
Definition ltb (x y : float) : bool := SFltb x y.
Definition leb (x y : float) : bool := SFleb x y.
Definition gtb (x y : float) : bool := SFltb y x.

(** [x - y], [x * y] *)
Definition sub (x y : float) : float := SFsub prec emax x y.
Definition mul (x y : float) : float := SFmul prec emax x y.

(** [x / y]: Python raises on a zero divisor instead of returning an
    infinity or a NaN. *)
Definition truediv (x y : float) : result float :=
  if is_zero y then Raise ZeroDivisionError else Ok (SFdiv prec emax x y).

(** *** Correctly rounded conversion of a fraction

    [nearest64 s a b] is the binary64 number nearest to [a / b]
    ([0 <= a], [0 < b]) with sign [s], ties to the even mantissa: what
    a correctly rounded [strtod] returns on a decimal literal. *)

(** [a / b] rounded to the nearest integer, ties to even. *)
Definition rne_div (a b : Z) : Z :=
  let q := a / b in
  match 2 * (a mod b) ?= b with
  | Lt => q
  | Gt => q + 1
  | Eq => if Z.even q then q else q + 1
  end.

(** numerator and denominator of [a / (b * 2^e)] *)
Definition scale2 (a b e : Z) : Z * Z :=
  if 0 <=? e then (a, b * 2 ^ e) else (a * 2 ^ (- e), b).

(** [floor (log2 (a / b))] *)
Definition ilog2_frac (a b : Z) : Z :=
  let t := Z.log2 a - Z.log2 b in
  let '(n, d) := scale2 a b t in
  if d <=? n then t else t - 1.

Definition nearest64 (s : bool) (a b : Z) : float :=
  if a <=? 0 then S754_zero s else
  let e := Z.max (ilog2_frac a b - 52) (-1074) in
  let '(n, d) := scale2 a b e in
  let m := rne_div n d in
  let '(m, e) := if m =? 2 ^ 53 then (2 ^ 52, e + 1) else (m, e) in
  match m with
  | Zpos p => if e <=? 971 then S754_finite s p e else S754_infinity s
  | _ => S754_zero s
  end.

(** *** [round(x, 2)]

    CPython prints the exact value of [x] with two digits after the
    point, correctly rounded (ties to even), and reads the result back
    with [strtod]; infinities and NaN round to themselves.  [hundredths]
    is that two-digit decimal counted in units of 0.01.  (The
    [OverflowError] of [round] needs a negative number of digits: with
    two digits the decimal of the largest float is that float.) *)

Definition hundredths (m : positive) (e : Z) : Z :=
  let '(n, d) := scale2 (100 * Zpos m) 1 (- e) in rne_div n d.

Definition round2 (x : float) : float :=
  match x with
  | S754_finite s m e => nearest64 s (hundredths m e) 100
  | _ => x
  end.

(** *** [str(x)] (the same as [repr(x)])

    CPython prints the shortest decimal that reads back as [x], the one
    nearest to [x] when several of that length do, with at most 17
    significant digits; the digits are laid out positionally when the
    decimal point falls within [-4 < decpt <= 16] and in exponent
    notation otherwise. *)

Definition digit_char (d : Z) : ascii := ascii_of_N (Z.to_N (48 + d)).

(** decimal digits of [z >= 0], most significant first *)
Fixpoint digits_fuel (fuel : nat) (z : Z) (acc : list ascii) : list ascii :=
  match fuel with
  | O => acc
  | S f =>
      let acc' := digit_char (z mod 10) :: acc in
      if z <? 10 then acc' else digits_fuel f (z / 10) acc'
  end.

Definition digits_of_Z (z : Z) : list ascii :=
  digits_fuel (S (Z.to_nat (Z.log2 z))) z [].

(** number of decimal digits of [z >= 1] *)
Fixpoint ndigits10 (fuel : nat) (z : Z) : Z :=
  match fuel with
  | O => 1
  | S f => if z <? 10 then 1 else 1 + ndigits10 f (z / 10)
  end.

(** the least [j >= 1] with [b <= a * 10^j], for [0 < a < b] *)
Fixpoint lead10 (fuel : nat) (a b : Z) : Z :=
  match fuel with
  | O => 1
  | S f => if b <=? 10 * a then 1 else 1 + lead10 f (10 * a) b
  end.

(** the decimal exponent [d] of [a / b > 0]: [10^(d-1) <= a / b < 10^d] *)
Definition dec_exp (a b : Z) : Z :=
  if b <=? a
  then ndigits10 (S (Z.to_nat (Z.log2 (a / b)))) (a / b)
  else 1 - lead10 (S (Z.to_nat (Z.log2 b))) a b.

(** numerator and denominator of [a / b * 10^k] *)
Definition scale10 (a b k : Z) : Z * Z :=
  if 0 <=? k then (a * 10 ^ k, b) else (a, b * 10 ^ (- k)).

(** the decimal [c * 10^(-k)] read back as a float *)
Definition read_decimal (s : bool) (c k : Z) : float :=
  let '(n, d) := scale10 c 1 (- k) in nearest64 s n d.

Section Shortest.
(** the float to print, and its exact magnitude [a / b] *)
Variables (x : float) (s : bool) (a b : Z).

Definition floor_at (k : Z) : Z :=
  let '(n, d) := scale10 a b k in n / d.

Definition reads_back (c k : Z) : bool := SFeqb (read_decimal s c k) x.

(** of [lo * 10^(-k)] and [(lo + 1) * 10^(-k)], the one nearer to
    [a / b], the even one on a tie *)
Definition nearer (lo k : Z) : Z :=
  let '(n, d) := scale10 a b k in
  match 2 * n ?= (2 * lo + 1) * d with
  | Lt => lo
  | Gt => lo + 1
  | Eq => if Z.even lo then lo else lo + 1
  end.

(** try [levels] precisions from [k] digits after the point on *)
Fixpoint shortest_from (levels : nat) (k : Z) : Z * Z :=
  let lo := floor_at k in
  match levels with
  | O => (nearer lo k, k)
  | S n =>
      match reads_back lo k, reads_back (lo + 1) k with
      | true, true => (nearer lo k, k)
      | true, false => (lo, k)
      | false, true => (lo + 1, k)
      | false, false => shortest_from n (k + 1)
      end
  end.
End Shortest.

(** drop the trailing zeros of the digits [c], at [k] digits after the
    point *)
Fixpoint strip_zeros (fuel : nat) (c k : Z) : Z * Z :=
  match fuel with
  | O => (c, k)
  | S f => if c mod 10 =? 0 then strip_zeros f (c / 10) (k - 1) else (c, k)
  end.

(** the digits of the shortest decimal and the position [decpt] of its
    decimal point: the value printed is [0.digits * 10^decpt] *)
Definition shortest_digits (s : bool) (m : positive) (e : Z)
  : list ascii * Z :=
  let '(a, b) := scale2 (Zpos m) 1 (- e) in
  let d := dec_exp a b in
  let '(c, k) := shortest_from (S754_finite s m e) s a b 16 (1 - d) in
  let '(c, k) := strip_zeros (S (Z.to_nat (Z.log2 c))) c k in
  let ds := digits_of_Z c in
  (ds, Z.of_nat (List.length ds) - k).

Definition zeros (n : Z) : list ascii := repeat "0"%char (Z.to_nat n).

(** positional layout, with [.0] added when there is no fraction *)
Definition format_fixed (ds : list ascii) (decpt : Z) : list ascii :=
  let n := Z.of_nat (List.length ds) in
  if decpt <=? 0 then
    "0"%char :: "."%char :: zeros (- decpt) ++ ds
  else if n <=? decpt then
    ds ++ zeros (decpt - n) ++ ["."; "0"]%char
  else
    firstn (Z.to_nat decpt) ds ++ "."%char :: skipn (Z.to_nat decpt) ds.

(** exponent layout: [d.ddde+XX], the exponent with at least two digits *)
Definition format_exp (ds : list ascii) (decpt : Z) : list ascii :=
  let ex := decpt - 1 in
  let mant :=
    match ds with
    | [] => []
    | [d] => [d]
    | d :: rest => d :: "."%char :: rest
    end in
  let exd := digits_of_Z (Z.abs ex) in
  let sgn := if ex <? 0 then "-"%char else "+"%char in
  mant ++ "e"%char :: sgn
       :: (if Z.abs ex <? 10 then "0"%char :: exd else exd).

Definition repr_abs (s : bool) (m : positive) (e : Z) : list ascii :=
  let '(ds, decpt) := shortest_digits s m e in
  if (-4 <? decpt) && (decpt <=? 16)
  then format_fixed ds decpt
  else format_exp ds decpt.

Definition sign_prefix (s : bool) : string := if s then "-" else "".

Definition str (x : float) : string :=
  (match x with
   | S754_nan => "nan"
   | S754_infinity s => sign_prefix s ++ "inf"
   | S754_zero s => sign_prefix s ++ "0.0"
   | S754_finite s m e =>
       sign_prefix s ++ string_of_list_ascii (repr_abs s m e)
   end)%string.

End PyFloat.

(* ================================================================= *)
(** ** Python strings and the [re] patterns of the module *)

Local Open Scope string_scope.

(** [s[:n]] and [s[n:]] *)
Fixpoint str_take (n : nat) (s : string) : string :=
  match n, s with
  | S n', String c s' => String c (str_take n' s')
  | _, _ => ""
  end.

Fixpoint str_drop (n : nat) (s : string) : string :=
  match n, s with
  | S n', String _ s' => str_drop n' s'
  | _, _ => s
  end.

(** [all(p(c) for c in s)] *)
Fixpoint str_forall (p : ascii -> bool) (s : string) : bool :=
  match s with
  | "" => true
  | String c s' => p c && str_forall p s'
  end.

Module Re.

(** [\d] on code points below 256 *)
Definition is_digit (c : ascii) : bool :=
  let n := N_of_ascii c in ((48 <=? n) && (n <=? 57))%N.

(** [\s] on code points below 256: tab, line feed, vertical tab, form
    feed, carriage return, the four separators 28-31, space, next line
    (133) and no-break space (160) *)
Definition is_space (c : ascii) : bool :=
  let n := N_of_ascii c in
  (((9 <=? n) && (n <=? 13)) || ((28 <=? n) && (n <=? 32))
   || (n =? 133) || (n =? 160))%N.

Definition is_char (a c : ascii) : bool := Ascii.eqb a c.

(** One item of a pattern: a character class repeated between [lo] and
    [hi] times ([hi = None]: no upper bound), greedily. *)
Record item : Type := Rep {
  cls : ascii -> bool;
  lo : nat;
  hi : option nat
}.

Definition one (p : ascii -> bool) : item := Rep p 1 (Some 1%nat).
Definition opt (p : ascii -> bool) : item := Rep p 0 (Some 1%nat).
Definition plus (p : ascii -> bool) : item := Rep p 1 None.
Definition between (p : ascii -> bool) (l h : nat) : item := Rep p l (Some h).

(** A pattern is a sequence of items with one capturing group, which
    spans the [group_len] items that follow the first [group_start]. *)
Record pattern : Type := Pattern {
  items : list item;
  group_start : nat;
  group_len : nat
}.

Definition below (n : nat) (h : option nat) : bool :=
  match h with
  | Some h => (n <? h)%nat
  | None => true
  end.

(** The backtracking matcher.  [rep p k l h n s] has taken [n]
    characters of class [p]; it first tries to take one more and only
    then to stop here and go on with the rest of the pattern [k].  The
    result lists how many characters each item has consumed. *)
Fixpoint rep (p : ascii -> bool) (k : string -> option (list nat))
    (l : nat) (h : option nat) (n : nat) (s : string)
  : option (list nat) :=
  let stop := if (l <=? n)%nat then option_map (cons n) (k s) else None in
  match s with
  | String c s' =>
      if p c && below n h then
        match rep p k l h (S n) s' with
        | Some r => Some r
        | None => stop
        end
      else stop
  | "" => stop
  end.

Fixpoint match_items (its : list item) : string -> option (list nat) :=
  match its with
  | [] => fun _ => Some []
  | it :: its' => rep (cls it) (match_items its') (lo it) (hi it) 0
  end.

(** A match object: where the match starts in the subject, and the
    lengths taken by the items. *)
Record match_object : Type := Match {
  subject : string;
  start : nat;
  lens : list nat
}.

Definition total (ns : list nat) : nat := fold_right Nat.add 0%nat ns.

(** [pattern.match(s)] *)
Definition re_match (r : pattern) (s : string) : option match_object :=
  option_map (Match s 0) (match_items (items r) s).

(** [pattern.search(s)]: the leftmost position with a match *)
Fixpoint search_from (r : pattern) (s rest : string) (i : nat)
  : option match_object :=
  match match_items (items r) rest with
  | Some ls => Some (Match s i ls)
  | None =>
      match rest with
      | String _ rest' => search_from r s rest' (S i)
      | "" => None
      end
  end.

Definition search (r : pattern) (s : string) : option match_object :=
  search_from r s s 0.

(** [m.group(1)] *)
Definition group1 (r : pattern) (m : match_object) : string :=
  let before := total (firstn (group_start r) (lens m)) in
  let inside :=
    total (firstn (group_len r) (skipn (group_start r) (lens m))) in
  str_take inside (str_drop (start m + before) (subject m)).

End Re.

(** [BPM_PATTERN = re.compile(r"\s-\s(\d{2,3})\.")] *)
Definition BPM_PATTERN : Re.pattern :=
  Re.Pattern
    [Re.one Re.is_space; Re.one (Re.is_char "-"); Re.one Re.is_space;
     Re.between Re.is_digit 2 3; Re.one (Re.is_char ".")]
    3 1.

(** [TRACK_NUMBER_PATTERN = re.compile(r"^(\d+\.?\s)")] *)
Definition TRACK_NUMBER_PATTERN : Re.pattern :=
  Re.Pattern
    [Re.plus Re.is_digit; Re.opt (Re.is_char "."); Re.one Re.is_space]
    0 3.

(* ================================================================= *)
(** ** The two pure functions *)

(** [percentage = ((base_bpm - track_bpm) / track_bpm) * 100] *)
Definition percentage (track_bpm base_bpm : PyFloat.float)
  : result PyFloat.float :=
  let* q := PyFloat.truediv (PyFloat.sub base_bpm track_bpm) track_bpm in
  Ok (PyFloat.mul q (PyFloat.of_Z 100)).

Definition calculate_pitch_adjustment (track_bpm base_bpm : PyFloat.float)
  : result string :=
  if PyFloat.eqb base_bpm track_bpm then Ok "0"
  else
    let* pct := percentage track_bpm base_bpm in
    if PyFloat.gtb pct PyFloat.zero
    then Ok ("+" ++ PyFloat.str (PyFloat.round2 pct))
    else Ok (PyFloat.str (PyFloat.round2 pct)).

Definition generate_new_filename (original_name pitch_adjustment : string)
  : string :=
  match Re.re_match TRACK_NUMBER_PATTERN original_name with
  | Some m =>
      let prefix := Re.group1 TRACK_NUMBER_PATTERN m in
      let rest := str_drop (String.length prefix) original_name in
      prefix ++ "(" ++ pitch_adjustment ++ ") " ++ rest
  | None => "(" ++ pitch_adjustment ++ ") " ++ original_name
  end.

(* ================================================================= *)
(** ** The collaborators: file system, standard output, logger *)

Inductive os_result (A : Type) : Type :=
| Done (a : A)
| Failed (msg : string).

Arguments Done {A} a.
Arguments Failed {A} msg.

(** What the module uses of [pathlib.Path] and of the file system behind
    it.  A failing [rename] leaves the file system as it was. *)
Class FileSystem (path fs : Type) : Type := {
  path_name : path -> string;
  path_str : path -> string;
  path_sibling : path -> string -> path;
  fs_resolve : fs -> path -> path;
  fs_exists : fs -> path -> bool;
  fs_is_dir : fs -> path -> bool;
  fs_is_file : fs -> path -> bool;
  fs_iterdir : fs -> path -> os_result (list path);
  fs_rename : fs -> path -> path -> os_result fs
}.

Inductive level : Type := DEBUG | INFO | WARNING | ERROR.

Definition level_rank (l : level) : nat :=
  match l with
  | DEBUG => 10
  | INFO => 20
  | WARNING => 30
  | ERROR => 40
  end.

(** [str(n)] for a non-negative integer *)
Definition str_of_nat (n : nat) : string :=
  string_of_list_ascii (PyFloat.digits_of_Z (Z.of_nat n)).

(** [float(s)] on a string of ASCII digits; [None] stands for the
    [ValueError] raised on any other string. *)
Fixpoint digits_value (s : string) (acc : Z) : option Z :=
  match s with
  | "" => Some acc
  | String c s' =>
      if Re.is_digit c
      then digits_value s' (10 * acc + (Z.of_N (N_of_ascii c) - 48))
      else None
  end.

Definition float_of_str (s : string) : option PyFloat.float :=
  match s with
  | "" => None
  | _ => option_map PyFloat.of_Z (digits_value s 0)
  end.

Definition nl : string := String (ascii_of_nat 10) "".

Section Program.

Context {path fs : Type} {FS : FileSystem path fs}.

Record world : Type := World {
  files : fs;
  stdout : list string;
  logger_level : level;
  logged : list (level * string)
}.

Definition set_files (f : fs) (w : world) : world :=
  World f (stdout w) (logger_level w) (logged w).

Definition print (line : string) (w : world) : world :=
  World (files w) (stdout w ++ [line]) (logger_level w) (logged w).

Definition setLevel (l : level) (w : world) : world :=
  World (files w) (stdout w) l (logged w).

Definition log (l : level) (msg : string) (w : world) : world :=
  if (level_rank (logger_level w) <=? level_rank l)%nat
  then World (files w) (stdout w) (logger_level w) (logged w ++ [(l, msg)])
  else w.

Record TrackInfo : Type := Build_TrackInfo {
  original_path : path;
  original_name : string;
  bpm : PyFloat.float;
  pitch_adjustment : string;
  new_name : string
}.

(** *** [scan_directory] *)

Fixpoint scan_entries (entries : list path) (base_bpm : PyFloat.float)
    (tracks : list TrackInfo) (w : world)
  : result (list TrackInfo) * world :=
  match entries with
  | [] => (Ok tracks, w)
  | entry :: entries' =>
      if negb (fs_is_file (files w) entry) then
        scan_entries entries' base_bpm tracks w
      else
        match Re.search BPM_PATTERN (path_name entry) with
        | None =>
            scan_entries entries' base_bpm tracks
              (log DEBUG ("Skipping (no BPM pattern): " ++ path_name entry) w)
        | Some m =>
            match float_of_str (Re.group1 BPM_PATTERN m) with
            | None =>
                scan_entries entries' base_bpm tracks
                  (log WARNING
                     ("Invalid BPM value in filename: " ++ path_name entry) w)
            | Some bpm =>
                match calculate_pitch_adjustment bpm base_bpm with
                | Raise e => (Raise e, w)
                | Ok pitch_adjustment =>
                    let new_name :=
                      generate_new_filename (path_name entry)
                        pitch_adjustment in
                    scan_entries entries' base_bpm
                      (tracks ++
                       [Build_TrackInfo entry (path_name entry) bpm
                          pitch_adjustment new_name])
                      w
                end
            end
        end
  end.

Definition scan_directory (directory : path) (base_bpm : PyFloat.float)
    (w : world) : result (list TrackInfo) * world :=
  match fs_iterdir (files w) directory with
  | Failed msg => (Raise (OSError msg), w)
  | Done entries => scan_entries entries base_bpm [] w
  end.

(** *** [rename_tracks] *)

Fixpoint rename_loop (tracks : list TrackInfo) (dry_run : bool)
    (renamed_count : nat) (w : world) : nat * world :=
  match tracks with
  | [] => (renamed_count, w)
  | track :: tracks' =>
      let new_path := path_sibling (original_path track) (new_name track) in
      if dry_run then
        let w := print ("  " ++ original_name track) w in
        let w := print ("    -> " ++ new_name track) w in
        let w :=
          print ("    (BPM: " ++ PyFloat.str (bpm track) ++ ", Adjustment: "
                 ++ pitch_adjustment track ++ ")") w in
        rename_loop tracks' dry_run (renamed_count + 1) w
      else
        match fs_rename (files w) (original_path track) new_path with
        | Done files' =>
            let w := set_files files' w in
            let w :=
              log INFO ("Renamed: " ++ original_name track ++ " -> "
                        ++ new_name track) w in
            rename_loop tracks' dry_run (renamed_count + 1) w
        | Failed e =>
            let w :=
              log ERROR ("Failed to rename " ++ original_name track ++ ": "
                         ++ e) w in
            rename_loop tracks' dry_run renamed_count w
        end
  end.

Definition rename_tracks (tracks : list TrackInfo) (dry_run : bool)
    (w : world) : nat * world :=
  rename_loop tracks dry_run 0 w.

(** *** [main], after [parse_args] *)

Record Namespace : Type := Build_Namespace {
  directory : path;
  arg_bpm : PyFloat.float;
  dry_run : bool;
  verbose : bool;
  quiet : bool
}.

Definition main (parsed_args : Namespace) (w : world)
  : result Z * world :=
  let w :=
    if quiet parsed_args then setLevel ERROR w
    else if verbose parsed_args then setLevel DEBUG w
    else w in
  let directory := fs_resolve (files w) (directory parsed_args) in
  if negb (fs_exists (files w) directory) then
    (Ok 1%Z, log ERROR ("Directory does not exist: " ++ path_str directory) w)
  else if negb (fs_is_dir (files w) directory) then
    (Ok 1%Z, log ERROR ("Path is not a directory: " ++ path_str directory) w)
  else if PyFloat.leb (arg_bpm parsed_args) PyFloat.zero then
    (Ok 1%Z, log ERROR "BPM must be a positive number." w)
  else
    let w :=
      if PyFloat.ltb (arg_bpm parsed_args) (PyFloat.of_Z 60)
         || PyFloat.gtb (arg_bpm parsed_args) (PyFloat.of_Z 200)
      then log WARNING ("BPM " ++ PyFloat.str (arg_bpm parsed_args)
                        ++ " is outside typical range (60-200).") w
      else w in
    let w := log INFO ("Scanning directory: " ++ path_str directory) w in
    let w := log INFO ("Base BPM: " ++ PyFloat.str (arg_bpm parsed_args)) w in
    match scan_directory directory (arg_bpm parsed_args) w with
    | (Raise e, w) => (Raise e, w)
    | (Ok [], w) =>
        (Ok 0%Z,
         log WARNING
           "No files found matching the BPM pattern (e.g., ' - 128.mp3')." w)
    | (Ok tracks, w) =>
        let w :=
          log INFO ("Found " ++ str_of_nat (List.length tracks)
                    ++ " file(s) with BPM information.") w in
        let w :=
          if dry_run parsed_args
          then print (nl ++ "[DRY RUN] The following files would be renamed:"
                      ++ nl) w
          else w in
        let '(renamed_count, w) :=
          rename_tracks tracks (dry_run parsed_args) w in
        let w :=
          if dry_run parsed_args
          then print (nl ++ "[DRY RUN] " ++ str_of_nat renamed_count
                      ++ " file(s) would be renamed.") w
          else log INFO ("Successfully renamed " ++ str_of_nat renamed_count
                         ++ " file(s).") w in
        (Ok 0%Z, w)
    end.

End Program.

Arguments world : clear implicits.
Arguments TrackInfo : clear implicits.
Arguments Namespace : clear implicits.

(* ================================================================= *)
(** * Specification vocabulary *)

Local Open Scope Z_scope.

(** ** Floats and printed decimals *)

Definition positive_finite (x : PyFloat.float) : bool :=
  match x with
  | S754_finite false _ _ => true
  | _ => false
  end.

Definition sign_bit (x : PyFloat.float) : option bool :=
  match x with
  | S754_zero s | S754_infinity s | S754_finite s _ _ => Some s
  | S754_nan => None
  end.

Definition is_digits (l : list ascii) : bool := forallb Re.is_digit l.

Fixpoint span_digits (l : list ascii) : list ascii * list ascii :=
  match l with
  | c :: l' =>
      if Re.is_digit c
      then let '(ds, rest) := span_digits l' in (c :: ds, rest)
      else ([], l)
  | [] => ([], [])
  end.

(** A sign, one or more digits, a point, and between [lo] and [hi]
    digits: the signed decimals with [lo] to [hi] fraction digits. *)
Definition is_signed_decimal (lo hi : nat) (s : string) : bool :=
  match list_ascii_of_string s with
  | sg :: body =>
      (Ascii.eqb sg "+" || Ascii.eqb sg "-") &&
      match span_digits body with
      | (_ :: _, "."%char :: fp) =>
          is_digits fp && (lo <=? List.length fp)%nat
          && (List.length fp <=? hi)%nat
      | _ => false
      end
  | [] => false
  end.

(** The percentage is finite and rounds to less than [10^16 - 1], that
    is to less than [10^18 - 100] hundredths: the range in which the
    rounded value is below [10^16], where Python stops printing floats
    positionally. *)
Definition moderate (pct : PyFloat.float) : bool :=
  match pct with
  | S754_finite _ m e => PyFloat.hundredths m e <? 10 ^ 18 - 100
  | _ => false
  end.

(** the magnitude of a finite float is below [10^16] *)
Definition below_1e16 (x : PyFloat.float) : bool :=
  match x with
  | S754_finite _ m e =>
      let '(a, b) := PyFloat.scale2 (Zpos m) 1 (- e) in a <? 10 ^ 16 * b
  | _ => false
  end.

(** 128.001 and 127.999 as floats *)
Definition bpm_128_001 : PyFloat.float := PyFloat.nearest64 false 128001 1000.
Definition bpm_127_999 : PyFloat.float := PyFloat.nearest64 false 127999 1000.

(** ** File names *)

Definition head_fails (p : ascii -> bool) (s : string) : Prop :=
  match s with
  | "" => True
  | String c _ => p c = false
  end%string.

(** A track-number prefix: one or more digits, an optional period, and
    one separator character of the class [sep]. *)
Definition track_prefix (sep : ascii -> bool) (prefix : string) : Prop :=
  exists (ds dot : string) (w : ascii),
    prefix = (ds ++ dot ++ String w "")%string /\
    ds <> ""%string /\
    str_forall Re.is_digit ds = true /\
    (dot = ""%string \/ dot = "."%string) /\
    sep w = true.

Definition is_plain_space (c : ascii) : bool := Ascii.eqb c " ".

Definition tab : ascii := ascii_of_nat 9.

(** ** The program *)

Section ProgramSpec.

Context {path fs : Type} {FS : FileSystem path fs}.

(** A record is consistent when its adjustment is the one computed from
    its BPM and the base BPM, and its new name is the one composed from
    its original name and that adjustment. *)
Definition record_consistent (base_bpm : PyFloat.float) (t : TrackInfo path)
  : Prop :=
  new_name t = generate_new_filename (original_name t) (pitch_adjustment t) /\
  calculate_pitch_adjustment (bpm t) base_bpm = Ok (pitch_adjustment t).

Definition bpm_not_zero (name : string) : Prop :=
  forall m b,
    Re.search BPM_PATTERN name = Some m ->
    float_of_str (Re.group1 BPM_PATTERN m) = Some b ->
    PyFloat.is_zero b = false.

(** The renames of a run, one per record and in order: each is tried on
    the file system that the earlier ones have left, and a failed one
    leaves it as it was.  [attempts] lists the outcomes ([true] for a
    rename that succeeded) and the final file system. *)
Fixpoint attempts (tracks : list (TrackInfo path)) (f : fs) : list bool * fs :=
  match tracks with
  | [] => ([], f)
  | t :: tracks' =>
      match fs_rename f (original_path t)
              (path_sibling (original_path t) (new_name t)) with
      | Done f' =>
          let '(outcomes, f'') := attempts tracks' f' in
          (true :: outcomes, f'')
      | Failed _ =>
          let '(outcomes, f'') := attempts tracks' f in
          (false :: outcomes, f'')
      end
  end.

(** the world in which [main] looks at the directory *)
Definition configured (parsed_args : Namespace path) (w : world fs)
  : world fs :=
  if quiet parsed_args then setLevel ERROR w
  else if verbose parsed_args then setLevel DEBUG w
  else w.

(** no entry of the listing is a regular file whose name holds a BPM *)
Definition no_matching_files (f : fs) (entries : list path) : Prop :=
  Forall (fun entry =>
            fs_is_file f entry = false \/
            Re.search BPM_PATTERN (path_name entry) = None)
         entries.

End ProgramSpec.

(** ** A file system to run the program on

    Paths are lists of components; the file system lists the paths that
    exist, each a regular file or a directory.  [rename] follows POSIX:
    the source must exist, and an existing regular file at the target is
    replaced. *)

Module TreeFS.

Local Open Scope list_scope.

Inductive kind : Type := File | Dir.

Definition path : Type := list string.
Definition fs : Type := list (path * kind).

Fixpoint path_eqb (p q : path) : bool :=
  match p, q with
  | [], [] => true
  | a :: p', b :: q' => String.eqb a b && path_eqb p' q'
  | _, _ => false
  end.

Definition lookup (f : fs) (p : path) : option kind :=
  option_map snd (find (fun e => path_eqb (fst e) p) f).

Definition remove (p : path) (f : fs) : fs :=
  filter (fun e => negb (path_eqb (fst e) p)) f.

Definition kind_is (k : kind) (o : option kind) : bool :=
  match k, o with
  | File, Some File | Dir, Some Dir => true
  | _, _ => false
  end.

Definition iterdir (f : fs) (d : path) : os_result (list path) :=
  match lookup f d with
  | Some Dir =>
      Done (filter (fun p => match p with
                             | [] => false
                             | _ :: _ => path_eqb (removelast p) d
                             end)
              (map fst f))
  | Some File => Failed "Not a directory"
  | None => Failed "No such file or directory"
  end.

Definition rename (f : fs) (src dst : path) : os_result fs :=
  match lookup f src with
  | None => Failed "No such file or directory"
  | Some k =>
      match lookup f dst with
      | Some Dir => Failed "Is a directory"
      | _ => Done (remove src (remove dst f) ++ [(dst, k)])
      end
  end.

Definition str_of_path (p : path) : string :=
  fold_right (fun c s => ("/" ++ c ++ s)%string) ""%string p.

#[global] Instance file_system : FileSystem path fs := {
  path_name p := last p ""%string;
  path_str := str_of_path;
  path_sibling p name := removelast p ++ [name];
  fs_resolve _ p := p;
  fs_exists f p := match lookup f p with Some _ => true | None => false end;
  fs_is_dir f p := kind_is Dir (lookup f p);
  fs_is_file f p := kind_is File (lookup f p);
  fs_iterdir := iterdir;
  fs_rename := rename
}.

(** The directory of the end-to-end test, with a file that holds no BPM
    and a subdirectory whose name does. *)
Definition music : path := ["music"%string].

Definition song_a : string := "01. Artist - Song A - 125.mp3".
Definition song_b : string := "02. Artist - Song B - 140.mp3".
Definition random_track : string := "Random Track - 128.wav".

Definition dj_set : fs :=
  [ (music, Dir);
    (music ++ [song_a], File);
    (music ++ ["notes.txt"%string], File);
    (music ++ [song_b], File);
    (music ++ ["Live - 128.mp3"%string], Dir);
    (music ++ [random_track], File) ].

Definition start : world fs := World dj_set [] INFO [].

Definition scanned : list (TrackInfo path) :=
  [ Build_TrackInfo (music ++ [song_a]) song_a (PyFloat.of_Z 125) "+4.0"
      "01. (+4.0) Artist - Song A - 125.mp3";
    Build_TrackInfo (music ++ [song_b]) song_b (PyFloat.of_Z 140) "-7.14"
      "02. (-7.14) Artist - Song B - 140.mp3";
    Build_TrackInfo (music ++ [random_track]) random_track (PyFloat.of_Z 128)
      "+1.56" "(+1.56) Random Track - 128.wav" ].

Definition renamed_files : fs :=
  [ (music, Dir);
    (music ++ ["notes.txt"%string], File);
    (music ++ ["Live - 128.mp3"%string], Dir);
    (music ++ ["01. (+4.0) Artist - Song A - 125.mp3"%string], File);
    (music ++ ["02. (-7.14) Artist - Song B - 140.mp3"%string], File);
    (music ++ ["(+1.56) Random Track - 128.wav"%string], File) ].

(** the same records when [song_a] has gone since the scan *)
Definition song_a_gone : world fs :=
  World (remove (music ++ [song_a]) dj_set) [] INFO [].

(** a directory with a file whose name gives a BPM of zero *)
Definition with_silence : world fs :=
  World [ (music, Dir); (music ++ ["Silence - 00.mp3"%string], File) ]
    [] INFO [].

End TreeFS.

Definition run_in (d : TreeFS.path) (base_bpm : Z) (dry : bool)
  : Namespace TreeFS.path :=
  Build_Namespace d (PyFloat.of_Z base_bpm) dry false false.

(** ** More vocabulary *)

(** *** What [BPM_PATTERN] captures *)

(** [match.group(1)] of [BPM_PATTERN.search(name)], when there is a
    match *)
Definition captured_bpm (name : string) : option string :=
  option_map (Re.group1 BPM_PATTERN) (Re.search BPM_PATTERN name).

(** The same, by recursion on the name: the digits taken at the first
    position where the items of [BPM_PATTERN] match. *)
Fixpoint bpm_in (s : string) : option string :=
  match Re.match_items (Re.items BPM_PATTERN) s with
  | Some ls => Some (str_take (nth 3 ls 0%nat) (str_drop 3 s))
  | None =>
      match s with
      | String _ s' => bpm_in s'
      | EmptyString => None
      end
  end.

Definition not_space (c : ascii) : bool := negb (Re.is_space c).

(** the name holds white space, a hyphen, white space, the two or three
    digits [ds] and a period, one after the other *)
Definition holds_bpm (name ds : string) : Prop :=
  exists (before after : string) (c1 c3 : ascii),
    name = (before ++ String c1 (String "-" (String c3
              (ds ++ String "." after))))%string /\
    Re.is_space c1 = true /\ Re.is_space c3 = true /\
    str_forall Re.is_digit ds = true /\
    (2 <= String.length ds <= 3)%nat.

(** *** Characters of names and adjustments *)

Definition not_char (a c : ascii) : bool := negb (Re.is_char a c).



(** the characters of a printed adjustment: digits, the two signs, the
    point, the exponent mark and the letters of [inf] and [nan] *)
Definition adjustment_char (c : ascii) : bool :=
  Re.is_digit c
  || existsb (Ascii.eqb c) ["+"; "-"; "."; "e"; "i"; "n"; "f"; "a"]%char.

(** *** What a scan keeps and what it skips *)

(** [BPM_PATTERN.search(name) is not None] *)
Definition has_bpm (name : string) : bool :=
  match Re.search BPM_PATTERN name with
  | Some _ => true
  | None => false
  end.


Section ScanSpec.

Context {path fs : Type} {FS : FileSystem path fs}.

(** the entries of a listing that a scan turns into records, and those
    it reports as skipped *)
Definition is_track (f : fs) (entry : path) : bool :=
  fs_is_file f entry && has_bpm (path_name entry).

Definition is_skipped (f : fs) (entry : path) : bool :=
  fs_is_file f entry && negb (has_bpm (path_name entry)).

(** the debug record written for a skipped entry *)
Definition skip_message (entry : path) : level * string :=
  (DEBUG, ("Skipping (no BPM pattern): " ++ path_name entry)%string).

(** a record names its entry and holds the number written in the
    entry's name *)
Definition record_reads_entry (t : TrackInfo path) : Prop :=
  original_name t = path_name (original_path t) /\
  exists (g : string) (n : Z),
    captured_bpm (original_name t) = Some g /\
    digits_value g 0 = Some n /\
    0 <= n <= 999 /\
    bpm t = PyFloat.of_Z n.

(** the logger lets debug records through *)
Definition debug_enabled (w : world fs) : bool :=
  (level_rank (logger_level w) <=? level_rank DEBUG)%nat.

End ScanSpec.

(** *** The log *)

(** a record of the log at level [ERROR] *)
Definition is_error (entry : level * string) : bool :=
  match fst entry with
  | ERROR => true
  | _ => false
  end.

Section LogSpec.
Context {fs : Type}.
(** the number of error records in the log *)
Definition errors (w : world fs) : nat :=
  List.length (filter is_error (logged w)).
(** the log has grown from [w0] to [w] by error records only, and the
    logger lets nothing else through *)
Definition quiet_since (w0 w : world fs) : Prop :=
  logger_level w = ERROR /\
  exists extra : list (level * string),
    logged w = (logged w0 ++ extra)%list /\ forallb is_error extra = true.

End LogSpec.

(** *** More worlds and runs on [TreeFS] *)

(** the end-to-end directory seen by a verbose logger, and the two quiet
    runs used below *)
Definition verbose_start : world TreeFS.fs :=
  World TreeFS.dj_set [] DEBUG [].

Definition quiet_run : Namespace TreeFS.path :=
  Build_Namespace TreeFS.music (PyFloat.of_Z 130) false true true.

(** the first two records of the end-to-end scan *)
Definition no_track : TrackInfo TreeFS.path :=
  Build_TrackInfo [] ""%string PyFloat.zero ""%string ""%string.

Definition first_track : TrackInfo TreeFS.path := hd no_track TreeFS.scanned.

Definition second_track : TrackInfo TreeFS.path :=
  hd no_track (tl TreeFS.scanned).

(* ================================================================= *)
(** * Properties *)

Local Open Scope Z_scope.

(** ** Floats: comparison and the sign of a rounded value *)

Lemma compare_cont_refl (m : positive) : Pos.compare_cont Eq m m = Eq.
Proof. induction m; simpl; auto. Qed.

Lemma eqb_refl (x : PyFloat.float) :
  PyFloat.is_nan x = false -> PyFloat.eqb x x = true.
Proof.
  unfold PyFloat.eqb, SFeqb.
  destruct x as [s | s | | s m e]; simpl; intros H; try discriminate;
    try (destruct s; reflexivity).
  rewrite Z.compare_refl, compare_cont_refl. destruct s; reflexivity.
Qed.

Lemma nearest64_sign (s : bool) (a b : Z) :
  sign_bit (PyFloat.nearest64 s a b) = Some s.
Proof.
  unfold PyFloat.nearest64.
  destruct (a <=? 0); [reflexivity |].
  destruct (PyFloat.scale2 a b _) as [n d].
  destruct (PyFloat.rne_div n d =? 2 ^ 53).
  - simpl. destruct (_ <=? 971); reflexivity.
  - destruct (PyFloat.rne_div n d); try reflexivity.
    destruct (_ <=? 971); reflexivity.
Qed.

Lemma round2_sign (x : PyFloat.float) :
  sign_bit (PyFloat.round2 x) = sign_bit x.
Proof. destruct x; simpl; auto using nearest64_sign. Qed.

Lemma ltb_zero_sign (x : PyFloat.float) :
  PyFloat.ltb x PyFloat.zero = true -> sign_bit x = Some true.
Proof.
  unfold PyFloat.ltb, SFltb.
  destruct x as [s | [|] | | [|] m e]; simpl; congruence.
Qed.

Lemma gtb_zero_sign (x : PyFloat.float) :
  PyFloat.gtb x PyFloat.zero = true -> sign_bit x = Some false.
Proof.
  unfold PyFloat.gtb, SFltb.
  destruct x as [s | [|] | | [|] m e]; simpl; congruence.
Qed.

Lemma str_negative (x : PyFloat.float) :
  sign_bit x = Some true -> exists rest, PyFloat.str x = String "-" rest.
Proof.
  destruct x as [s | s | | s m e]; simpl; intros H; inversion H; subst;
    simpl; eauto.
Qed.

(** A printed float is never the bare literal ["0"]: it holds a point,
    an exponent mark, or spells [inf] or [nan]. *)

Lemma format_fixed_point (ds : list ascii) (decpt : Z) :
  In "."%char (PyFloat.format_fixed ds decpt).
Proof.
  unfold PyFloat.format_fixed.
  destruct (decpt <=? 0); [simpl; auto |].
  destruct (_ <=? decpt).
  - apply in_or_app; right. apply in_or_app; right. simpl; auto.
  - apply in_or_app; right. simpl; auto.
Qed.

Lemma format_exp_mark (ds : list ascii) (decpt : Z) :
  In "e"%char (PyFloat.format_exp ds decpt).
Proof.
  unfold PyFloat.format_exp. apply in_or_app; right. simpl; auto.
Qed.

Lemma string_of_list_zero (l : list ascii) :
  string_of_list_ascii l = "0" -> l = ["0"%char].
Proof.
  intros H. rewrite <- (list_ascii_of_string_of_list_ascii l), H. reflexivity.
Qed.

Lemma repr_abs_not_zero (s : bool) (m : positive) (e : Z) :
  string_of_list_ascii (PyFloat.repr_abs s m e) <> "0".
Proof.
  intros H. apply string_of_list_zero in H. revert H.
  unfold PyFloat.repr_abs.
  destruct (PyFloat.shortest_digits s m e) as [ds decpt].
  destruct (_ && _); intros H.
  - pose proof (format_fixed_point ds decpt) as P. rewrite H in P.
    simpl in P. destruct P as [P | []]. discriminate.
  - pose proof (format_exp_mark ds decpt) as P. rewrite H in P.
    simpl in P. destruct P as [P | []]. discriminate.
Qed.

Lemma str_not_zero (x : PyFloat.float) : PyFloat.str x <> "0".
Proof.
  destruct x as [[|] | [|] | | [|] m e]; simpl; try discriminate.
  apply repr_abs_not_zero.
Qed.

(** ** [calculate_pitch_adjustment] *)

(** C2: equal positive BPMs give the literal ["0"]. *)
Theorem same_bpm_returns_zero (bpm : PyFloat.float) :
  positive_finite bpm = true ->
  calculate_pitch_adjustment bpm bpm = Ok "0".
Proof.
  intros H. unfold calculate_pitch_adjustment.
  rewrite eqb_refl; [reflexivity |].
  destruct bpm; simpl in *; congruence.
Qed.

Lemma same_bpm_returns_zero_witness :
  positive_finite (PyFloat.of_Z 128) = true /\
  calculate_pitch_adjustment (PyFloat.of_Z 128) (PyFloat.of_Z 128) = Ok "0".
Proof.
  split; [reflexivity | apply (same_bpm_returns_zero (PyFloat.of_Z 128))].
  reflexivity.
Defined.

(** C1: for unequal positive BPMs the result is the percentage
    [((base_bpm - track_bpm) / track_bpm) * 100] rounded to two decimal
    places and printed, with a ["+"] in front when the percentage is
    positive and as it is, starting with its own ["-"], when it is
    negative. *)
Theorem pitch_adjustment_formula (track_bpm base_bpm : PyFloat.float) :
  positive_finite track_bpm = true ->
  positive_finite base_bpm = true ->
  PyFloat.eqb base_bpm track_bpm = false ->
  let pct :=
    PyFloat.mul
      (SFdiv PyFloat.prec PyFloat.emax (PyFloat.sub base_bpm track_bpm)
         track_bpm)
      (PyFloat.of_Z 100) in
  let value := PyFloat.str (PyFloat.round2 pct) in
  percentage track_bpm base_bpm = Ok pct /\
  (PyFloat.gtb pct PyFloat.zero = true ->
   calculate_pitch_adjustment track_bpm base_bpm = Ok ("+" ++ value)) /\
  (PyFloat.ltb pct PyFloat.zero = true ->
   calculate_pitch_adjustment track_bpm base_bpm = Ok value /\
   exists rest, value = String "-" rest).
Proof.
  intros Ht Hb Hne pct value.
  assert (Hp : percentage track_bpm base_bpm = Ok pct).
  { unfold percentage, PyFloat.truediv.
    destruct track_bpm as [| | | [|] m e]; simpl in Ht; try discriminate.
    reflexivity. }
  split; [exact Hp |].
  unfold calculate_pitch_adjustment. rewrite Hne, Hp. simpl.
  split.
  - intros Hpos. rewrite Hpos. reflexivity.
  - intros Hneg. split.
    + destruct (PyFloat.gtb pct PyFloat.zero) eqn:Hpos; [| reflexivity].
      apply gtb_zero_sign in Hpos. apply ltb_zero_sign in Hneg. congruence.
    + apply str_negative. rewrite round2_sign. now apply ltb_zero_sign.
Qed.

Lemma pitch_adjustment_formula_witness :
  positive_finite (PyFloat.of_Z 140) = true /\
  positive_finite (PyFloat.of_Z 130) = true /\
  PyFloat.eqb (PyFloat.of_Z 130) (PyFloat.of_Z 140) = false /\
  calculate_pitch_adjustment (PyFloat.of_Z 140) (PyFloat.of_Z 130)
  = Ok "-7.14".
Proof.
  repeat (split; [reflexivity |]).
  pose proof (pitch_adjustment_formula (PyFloat.of_Z 140) (PyFloat.of_Z 130)
                eq_refl eq_refl eq_refl) as (_ & _ & Hneg).
  destruct (Hneg eq_refl) as [H _]. exact H.
Defined.

(** C10: the literal ["0"] is returned exactly when the two BPMs are
    equal; when they differ and the percentage rounds to zero at two
    decimal places, the result is ["+0.0"] for a positive percentage and
    ["-0.0"] for a negative one. *)
Theorem zero_literal_iff_equal (track_bpm base_bpm : PyFloat.float) :
  (calculate_pitch_adjustment track_bpm base_bpm = Ok "0" <->
   PyFloat.eqb base_bpm track_bpm = true) /\
  (forall pct,
      PyFloat.eqb base_bpm track_bpm = false ->
      percentage track_bpm base_bpm = Ok pct ->
      PyFloat.is_zero (PyFloat.round2 pct) = true ->
      (PyFloat.gtb pct PyFloat.zero = true ->
       calculate_pitch_adjustment track_bpm base_bpm = Ok "+0.0") /\
      (PyFloat.ltb pct PyFloat.zero = true ->
       calculate_pitch_adjustment track_bpm base_bpm = Ok "-0.0")).
Proof.
  unfold calculate_pitch_adjustment. split.
  - destruct (PyFloat.eqb base_bpm track_bpm); split; auto; intros H.
    + destruct (percentage track_bpm base_bpm) as [pct | e]; simpl in H;
        [| discriminate].
      destruct (PyFloat.gtb pct PyFloat.zero); inversion H.
      now apply str_not_zero in H1.
    + discriminate.
  - intros pct Hne Hp Hz. rewrite Hne, Hp. simpl.
    pose proof (round2_sign pct) as Hs.
    destruct (PyFloat.round2 pct) as [s | | |]; try discriminate.
    split; intros Hsign.
    + rewrite Hsign. apply gtb_zero_sign in Hsign.
      rewrite Hsign in Hs. inversion Hs. reflexivity.
    + destruct (PyFloat.gtb pct PyFloat.zero) eqn:Hpos.
      * apply gtb_zero_sign in Hpos. apply ltb_zero_sign in Hsign. congruence.
      * apply ltb_zero_sign in Hsign. rewrite Hsign in Hs. inversion Hs.
        reflexivity.
Qed.

Lemma zero_literal_iff_equal_witness :
  calculate_pitch_adjustment (PyFloat.of_Z 128) bpm_128_001 = Ok "+0.0" /\
  calculate_pitch_adjustment (PyFloat.of_Z 128) bpm_127_999 = Ok "-0.0" /\
  calculate_pitch_adjustment (PyFloat.of_Z 128) (PyFloat.of_Z 128) = Ok "0".
Proof.
  split; [| split].
  - destruct (zero_literal_iff_equal (PyFloat.of_Z 128) bpm_128_001)
      as [_ H].
    destruct (H _ eq_refl eq_refl eq_refl) as [Hpos _]. exact (Hpos eq_refl).
  - destruct (zero_literal_iff_equal (PyFloat.of_Z 128) bpm_127_999)
      as [_ H].
    destruct (H _ eq_refl eq_refl eq_refl) as [_ Hneg]. exact (Hneg eq_refl).
  - destruct (zero_literal_iff_equal (PyFloat.of_Z 128) (PyFloat.of_Z 128))
      as [[_ H] _].
    exact (H eq_refl).
Defined.

(** C3, as the code has it: the four test vectors hold with the track
    BPM first and the base BPM 130 second. *)
Theorem test_vectors_track_then_base :
  calculate_pitch_adjustment (PyFloat.of_Z 125) (PyFloat.of_Z 130)
  = Ok "+4.0" /\
  calculate_pitch_adjustment (PyFloat.of_Z 140) (PyFloat.of_Z 130)
  = Ok "-7.14" /\
  calculate_pitch_adjustment (PyFloat.of_Z 128) (PyFloat.of_Z 130)
  = Ok "+1.56" /\
  calculate_pitch_adjustment (PyFloat.of_Z 100) (PyFloat.of_Z 130)
  = Ok "+30.0".
Proof. repeat split; vm_compute; reflexivity. Qed.

(** With 130 as the track BPM the four calls return other strings. *)
Lemma test_vectors_base_first :
  calculate_pitch_adjustment (PyFloat.of_Z 130) (PyFloat.of_Z 125)
  = Ok "-3.85" /\
  calculate_pitch_adjustment (PyFloat.of_Z 130) (PyFloat.of_Z 140)
  = Ok "+7.69" /\
  calculate_pitch_adjustment (PyFloat.of_Z 130) (PyFloat.of_Z 128)
  = Ok "-1.54" /\
  calculate_pitch_adjustment (PyFloat.of_Z 130) (PyFloat.of_Z 100)
  = Ok "-23.08".
Proof. repeat split; vm_compute; reflexivity. Qed.

Lemma test_vectors_as_stated_fail :
  ~ (calculate_pitch_adjustment (PyFloat.of_Z 130) (PyFloat.of_Z 125)
     = Ok "+4.0" /\
     calculate_pitch_adjustment (PyFloat.of_Z 130) (PyFloat.of_Z 140)
     = Ok "-7.14" /\
     calculate_pitch_adjustment (PyFloat.of_Z 130) (PyFloat.of_Z 128)
     = Ok "+1.56" /\
     calculate_pitch_adjustment (PyFloat.of_Z 130) (PyFloat.of_Z 100)
     = Ok "+30.0").
Proof. intros [H _]. vm_compute in H. discriminate H. Qed.

(** ** Strings *)

Lemma append_assoc (a b c : string) : ((a ++ b) ++ c = a ++ (b ++ c))%string.
Proof. induction a; simpl; congruence. Qed.

Lemma length_append (a b : string) :
  String.length (a ++ b) = (String.length a + String.length b)%nat.
Proof. induction a; simpl; congruence. Qed.

Lemma str_take_append (a b : string) : str_take (String.length a) (a ++ b) = a.
Proof. induction a; simpl; [destruct b; reflexivity | congruence]. Qed.

Lemma str_drop_append (a b : string) : str_drop (String.length a) (a ++ b) = b.
Proof. induction a; simpl; auto. Qed.

Lemma str_take_drop (n : nat) (s : string) :
  (str_take n s ++ str_drop n s)%string = s.
Proof.
  revert s; induction n; intros [| c s]; simpl; try reflexivity.
  now rewrite IHn.
Qed.

Lemma str_take_length (n : nat) (s : string) :
  (n <= String.length s)%nat -> String.length (str_take n s) = n.
Proof.
  revert s; induction n; intros [| c s]; simpl; intros H; try lia.
  now rewrite IHn by lia.
Qed.

(** ** The matcher *)

Arguments Re.is_digit c : simpl never.
Arguments Re.is_space c : simpl never.
Arguments Re.is_char a c : simpl never.

Lemma space_not_digit (c : ascii) :
  Re.is_space c = true -> Re.is_digit c = false.
Proof.
  destruct c as [[] [] [] [] [] [] [] []]; vm_compute; congruence.
Qed.

Lemma space_not_period (c : ascii) :
  Re.is_space c = true -> Re.is_char "." c = false.
Proof.
  destruct c as [[] [] [] [] [] [] [] []]; vm_compute; congruence.
Qed.

Lemma period_not_digit (c : ascii) :
  Re.is_char "." c = true -> Re.is_digit c = false.
Proof.
  destruct c as [[] [] [] [] [] [] [] []]; vm_compute; congruence.
Qed.

(** What a successful [rep] has done: it took [j] more characters of the
    class, within the bounds, and the rest of the pattern matched what
    follows them. *)
Lemma rep_sound (p : ascii -> bool) (k : string -> option (list nat))
    (l : nat) (h : option nat) (s : string) :
  forall (n : nat) (res : list nat),
    Re.rep p k l h n s = Some res ->
    exists (j : nat) (r : list nat),
      res = (n + j)%nat :: r /\
      k (str_drop j s) = Some r /\
      str_forall p (str_take j s) = true /\
      (j <= String.length s)%nat /\
      (l <= n + j)%nat /\
      (forall hmax, h = Some hmax -> (n + j <= Nat.max n hmax)%nat).
Proof.
  assert (Hstop : forall s n res,
    (if (l <=? n)%nat then option_map (cons n) (k s) else None) = Some res ->
    exists (j : nat) (r : list nat),
      res = (n + j)%nat :: r /\
      k (str_drop j s) = Some r /\
      str_forall p (str_take j s) = true /\
      (j <= String.length s)%nat /\
      (l <= n + j)%nat /\
      (forall hmax, h = Some hmax -> (n + j <= Nat.max n hmax)%nat)).
  { intros s0 n res H.
    destruct (l <=? n)%nat eqn:Hl; [| discriminate].
    apply Nat.leb_le in Hl.
    destruct (k s0) as [r |] eqn:Hk; [| discriminate].
    inversion H; subst. exists 0%nat, r.
    rewrite Nat.add_0_r.
    split; [reflexivity |]. split; [exact Hk |].
    split; [destruct s0; reflexivity |].
    split; [lia |]. split; [lia | intros; lia]. }
  induction s as [| c s IH]; intros n res H; simpl in H.
  - now apply Hstop.
  - destruct (p c && Re.below n h) eqn:Hc; [| now apply Hstop].
    destruct (Re.rep p k l h (S n) s) as [r' |] eqn:Hr; [| now apply Hstop].
    inversion H; subst.
    apply andb_prop in Hc. destruct Hc as [Hp Hb].
    destruct (IH _ _ Hr) as (j & r & -> & Hk & Hall & Hlen & Hlo & Hhi).
    exists (S j), r. simpl. rewrite Hp, Hall.
    split; [f_equal; lia |]. split; [exact Hk |].
    split; [reflexivity |]. split; [lia |]. split; [lia |].
    intros hmax ->. simpl in Hb. apply Nat.ltb_lt in Hb.
    specialize (Hhi _ eq_refl). lia.
Qed.

(** An unbounded greedy repetition runs to the end of the run of
    characters of its class when the rest of the pattern matches there. *)
Lemma rep_greedy (p : ascii -> bool) (k : string -> option (list nat))
    (ds tail : string) (r : list nat) :
  str_forall p ds = true ->
  head_fails p tail ->
  k tail = Some r ->
  forall n : nat,
    (1 <= n + String.length ds)%nat ->
    Re.rep p k 1 None n (ds ++ tail) = Some ((n + String.length ds)%nat :: r).
Proof.
  intros Hds Htail Hk.
  induction ds as [| c ds IH]; intros n Hn; simpl in *.
  - rewrite Nat.add_0_r in *.
    assert (Hl : (1 <=? n)%nat = true) by (apply Nat.leb_le; lia).
    destruct tail as [| c t]; simpl in *.
    + now rewrite Hl, Hk.
    + now rewrite Htail, Hl, Hk.
  - apply andb_prop in Hds. destruct Hds as [Hc Hds].
    rewrite Hc. simpl.
    rewrite (IH Hds (S n)) by lia.
    do 2 f_equal. lia.
Qed.

(** ** [generate_new_filename] *)

Lemma rep_one (p : ascii -> bool) (k : string -> option (list nat))
    (c : ascii) (t : string) (r : list nat) :
  p c = true -> k t = Some r ->
  Re.rep p k 1 (Some 1%nat) 0 (String c t) = Some (1%nat :: r).
Proof.
  intros Hc Hk. simpl. rewrite Hc. simpl.
  destruct t as [| c' t]; simpl.
  - now rewrite Hk.
  - rewrite andb_false_r. now rewrite Hk.
Qed.

Lemma rep_opt_skip (p : ascii -> bool) (k : string -> option (list nat))
    (s : string) (r : list nat) :
  head_fails p s -> k s = Some r ->
  Re.rep p k 0 (Some 1%nat) 0 s = Some (0%nat :: r).
Proof.
  intros Hs Hk. destruct s as [| c t]; simpl in *.
  - now rewrite Hk.
  - rewrite Hs. simpl. now rewrite Hk.
Qed.

Lemma rep_opt_take (p : ascii -> bool) (k : string -> option (list nat))
    (c : ascii) (t : string) (r : list nat) :
  p c = true -> k t = Some r ->
  Re.rep p k 0 (Some 1%nat) 0 (String c t) = Some (1%nat :: r).
Proof.
  intros Hc Hk. simpl. rewrite Hc. simpl.
  destruct t as [| c' t]; simpl.
  - now rewrite Hk.
  - rewrite andb_false_r. now rewrite Hk.
Qed.

Lemma track_items_unfold (s : string) :
  Re.match_items (Re.items TRACK_NUMBER_PATTERN) s
  = Re.rep Re.is_digit
      (Re.rep (Re.is_char ".")
         (Re.rep Re.is_space (fun _ => Some []) 1 (Some 1%nat) 0)
         0 (Some 1%nat) 0)
      1 None 0 s.
Proof. reflexivity. Qed.

Lemma track_match_complete (prefix rest : string) :
  track_prefix Re.is_space prefix ->
  exists a b : nat,
    Re.match_items (Re.items TRACK_NUMBER_PATTERN) (prefix ++ rest)
    = Some [a; b; 1%nat] /\
    (a + b + 1)%nat = String.length prefix.
Proof.
  intros (ds & dot & w & -> & Hne & Hds & Hdot & Hw).
  pose proof (space_not_digit _ Hw) as Hwd.
  pose proof (space_not_period _ Hw) as Hwp.
  assert (Hlen : (1 <= String.length ds)%nat).
  { destruct ds; [congruence | simpl; lia]. }
  exists (String.length ds), (String.length dot).
  rewrite !length_append. simpl String.length.
  split; [| lia].
  rewrite !append_assoc, track_items_unfold.
  rewrite rep_greedy with (r := [String.length dot; 1%nat]); auto.
  - destruct Hdot as [-> | ->]; simpl; auto.
  - destruct Hdot as [-> | ->].
    + apply rep_opt_skip; [exact Hwp |]. now apply rep_one.
    + apply rep_opt_take; [reflexivity |]. now apply rep_one.
Qed.

Lemma track_match_sound (name : string) (ls : list nat) :
  Re.match_items (Re.items TRACK_NUMBER_PATTERN) name = Some ls ->
  exists a b : nat,
    ls = [a; b; 1%nat] /\
    track_prefix Re.is_space (str_take (a + b + 1) name).
Proof.
  rewrite track_items_unfold. intros H.
  apply rep_sound in H.
  destruct H as (a & r1 & -> & H & Hds & Ha & Hlo & _).
  apply rep_sound in H.
  destruct H as (b & r2 & -> & H & Hdot & Hb & _ & Hhi).
  apply rep_sound in H.
  destruct H as (c & r3 & -> & H & Hw & Hc & Hc1 & Hc2).
  inversion H; subst r3. clear H.
  specialize (Hc2 _ eq_refl). specialize (Hhi _ eq_refl). simpl in *.
  assert (c = 1%nat) by lia. subst c.
  exists a, b. split; [reflexivity |].
  assert (Hname : name = (str_take a name ++ str_take b (str_drop a name)
                          ++ str_take 1 (str_drop b (str_drop a name))
                          ++ str_drop 1 (str_drop b (str_drop a name)))%string).
  { now rewrite !str_take_drop. }
  set (s1 := str_drop a name) in *. set (s2 := str_drop b s1) in *.
  destruct s2 as [| w t] eqn:Hs2; [simpl in Hc; lia |].
  simpl in Hw. rewrite andb_true_r in Hw.
  exists (str_take a name), (str_take b s1), w.
  split.
  - pose proof (str_take_length a name Ha) as La.
    pose proof (str_take_length b s1 Hb) as Lb.
    simpl in Hname.
    remember (str_take a name) as A. remember (str_take b s1) as B.
    rewrite <- (str_take_append (A ++ B ++ String w "") t).
    f_equal.
    + rewrite !length_append. simpl. lia.
    + rewrite !append_assoc. exact Hname.
  - split.
    { intros E. pose proof (str_take_length a name Ha) as La.
      rewrite E in La. simpl in La. lia. }
    split; [exact Hds |]. split; [| exact Hw].
    destruct b as [| [| b]]; [left | right | lia].
    + destruct s1; reflexivity.
    + destruct s1 as [| c s1']; [simpl in Hb; lia |].
      simpl in *. rewrite andb_true_r in Hdot.
      unfold Re.is_char in Hdot.
      apply Ascii.eqb_eq in Hdot. subst c. now destruct s1'.
Qed.

(** C4, as the code has it: the separator that ends the prefix is any
    one white-space character.  With such a prefix the adjustment goes
    between the prefix and the remainder; without one it goes in front
    of the whole name. *)
Theorem new_filename_spec (original_name pitch_adjustment : string) :
  (forall prefix remainder : string,
      track_prefix Re.is_space prefix ->
      original_name = (prefix ++ remainder)%string ->
      generate_new_filename original_name pitch_adjustment
      = (prefix ++ "(" ++ pitch_adjustment ++ ") " ++ remainder)%string) /\
  ((forall prefix remainder : string,
       track_prefix Re.is_space prefix ->
       original_name <> (prefix ++ remainder)%string) ->
   generate_new_filename original_name pitch_adjustment
   = ("(" ++ pitch_adjustment ++ ") " ++ original_name)%string).
Proof.
  unfold generate_new_filename, Re.re_match, Re.group1. split.
  - intros prefix remainder Hp ->.
    destruct (track_match_complete prefix remainder Hp) as (a & b & -> & Hl).
    simpl. replace (a + (b + 1))%nat with (String.length prefix) by lia.
    now rewrite str_take_append, str_drop_append.
  - intros Hno.
    destruct (Re.match_items _ original_name) as [ls |] eqn:Hm;
      [| reflexivity].
    exfalso.
    destruct (track_match_sound _ _ Hm) as (a & b & _ & Hp).
    apply (Hno _ (str_drop (a + b + 1) original_name) Hp).
    now rewrite str_take_drop.
Qed.

Lemma new_filename_spec_witness :
  generate_new_filename "01. Artist - Track - 128.mp3" "+1.56"
  = "01. (+1.56) Artist - Track - 128.mp3"%string /\
  generate_new_filename "Artist - Track - 128.mp3" "-2.5"
  = "(-2.5) Artist - Track - 128.mp3"%string.
Proof.
  split.
  - apply (proj1 (new_filename_spec _ "+1.56")
             "01. " "Artist - Track - 128.mp3"); [| reflexivity].
    exists "01"%string, "."%string, " "%char.
    repeat split; auto. discriminate.
  - apply (proj2 (new_filename_spec "Artist - Track - 128.mp3" "-2.5")).
    intros prefix remainder (ds & dot & w & -> & Hne & Hds & _) E.
    destruct ds as [| d ds]; [congruence |].
    simpl in E, Hds. inversion E; subst d. discriminate Hds.
Defined.

(** With exactly one space as the separator, as the specification words
    it, the name ["1<TAB>x"] has no prefix, and yet the adjustment is not
    put in front of it. *)
Lemma new_filename_space_only_fails :
  let name := String "1" (String tab "x") in
  (forall prefix remainder : string,
      track_prefix is_plain_space prefix ->
      name <> (prefix ++ remainder)%string) /\
  generate_new_filename name "0" <> ("(" ++ "0" ++ ") " ++ name)%string.
Proof.
  split.
  - intros prefix remainder (ds & dot & w & -> & Hne & Hds & Hdot & Hw) E.
    destruct ds as [| d ds]; [congruence |].
    simpl in E, Hds. inversion E as [[Hd E']]. clear E.
    destruct ds as [| d' ds]; simpl in *.
    + destruct Hdot as [-> | ->]; simpl in E'; inversion E'; subst w;
        discriminate.
    + inversion E'; subst d'. rewrite andb_false_r in Hds. discriminate.
  - vm_compute. discriminate.
Qed.

(** ** The program: [scan_directory], [rename_tracks], [main] *)

Section ProgramProperties.

Context {path fs : Type} {FS : FileSystem path fs}.

Lemma files_log (l : level) (msg : string) (w : world fs) :
  files (log l msg w) = files w.
Proof. unfold log. destruct (_ <=? _)%nat; reflexivity. Qed.

Lemma files_print (line : string) (w : world fs) :
  files (print line w) = files w.
Proof. reflexivity. Qed.

Lemma files_setLevel (l : level) (w : world fs) :
  files (setLevel l w) = files w.
Proof. reflexivity. Qed.

Lemma scan_entries_consistent (base_bpm : PyFloat.float)
    (entries : list path) :
  forall (acc tracks : list (TrackInfo path)) (w w' : world fs),
    Forall (record_consistent base_bpm) acc ->
    scan_entries entries base_bpm acc w = (Ok tracks, w') ->
    Forall (record_consistent base_bpm) tracks.
Proof.
  induction entries as [| entry entries IH]; intros acc tracks w w' Hacc H;
    simpl in H.
  - inversion H; subst. exact Hacc.
  - destruct (negb (fs_is_file (files w) entry)); [eauto |].
    destruct (Re.search BPM_PATTERN (path_name entry)) as [m |]; [| eauto].
    destruct (float_of_str (Re.group1 BPM_PATTERN m)) as [b |]; [| eauto].
    destruct (calculate_pitch_adjustment b base_bpm) as [adj | e] eqn:Hadj;
      [| discriminate].
    eapply IH; [| exact H].
    apply Forall_app. split; [exact Hacc |].
    constructor; [| constructor].
    split; [reflexivity | exact Hadj].
Qed.

Lemma scan_entries_files (base_bpm : PyFloat.float) (entries : list path) :
  forall (acc : list (TrackInfo path)) (w : world fs),
    files (snd (scan_entries entries base_bpm acc w)) = files w.
Proof.
  induction entries as [| entry entries IH]; intros acc w; simpl;
    [reflexivity |].
  destruct (negb (fs_is_file (files w) entry)); [apply IH |].
  destruct (Re.search BPM_PATTERN (path_name entry)) as [m |];
    [| rewrite IH; apply files_log].
  destruct (float_of_str (Re.group1 BPM_PATTERN m)) as [b |];
    [| rewrite IH; apply files_log].
  destruct (calculate_pitch_adjustment b base_bpm); [apply IH | reflexivity].
Qed.

Lemma scan_directory_files (d : path) (base_bpm : PyFloat.float)
    (w : world fs) :
  files (snd (scan_directory d base_bpm w)) = files w.
Proof.
  unfold scan_directory. destruct (fs_iterdir (files w) d); [| reflexivity].
  apply scan_entries_files.
Qed.

(** What is scanned depends on the file system only, not on what has
    been printed or logged. *)
Lemma scan_entries_world (base_bpm : PyFloat.float) (entries : list path) :
  forall (acc : list (TrackInfo path)) (w1 w2 : world fs),
    files w1 = files w2 ->
    fst (scan_entries entries base_bpm acc w1)
    = fst (scan_entries entries base_bpm acc w2).
Proof.
  induction entries as [| entry entries IH]; intros acc w1 w2 E; simpl;
    [reflexivity |].
  rewrite E.
  destruct (negb (fs_is_file (files w2) entry)); [now apply IH |].
  destruct (Re.search BPM_PATTERN (path_name entry)) as [m |];
    [| apply IH; now rewrite !files_log].
  destruct (float_of_str (Re.group1 BPM_PATTERN m)) as [b |];
    [| apply IH; now rewrite !files_log].
  destruct (calculate_pitch_adjustment b base_bpm);
    [now apply IH | reflexivity].
Qed.

Lemma scan_directory_world (d : path) (base_bpm : PyFloat.float)
    (w1 w2 : world fs) :
  files w1 = files w2 ->
  fst (scan_directory d base_bpm w1) = fst (scan_directory d base_bpm w2).
Proof.
  intros E. unfold scan_directory. rewrite E.
  destruct (fs_iterdir (files w2) d); [| reflexivity].
  now apply scan_entries_world.
Qed.

(** The scan returns normally whenever no captured BPM is zero. *)
Lemma calculate_pitch_adjustment_total (track_bpm base_bpm : PyFloat.float) :
  PyFloat.is_zero track_bpm = false ->
  exists adj, calculate_pitch_adjustment track_bpm base_bpm = Ok adj.
Proof.
  intros Hz. unfold calculate_pitch_adjustment, percentage, PyFloat.truediv.
  rewrite Hz. simpl.
  destruct (PyFloat.eqb base_bpm track_bpm); [eauto |].
  destruct (PyFloat.gtb _ _); eauto.
Qed.

Lemma scan_entries_total (base_bpm : PyFloat.float) (entries : list path) :
  Forall (fun entry => bpm_not_zero (path_name entry)) entries ->
  forall (acc : list (TrackInfo path)) (w : world fs),
    exists tracks, fst (scan_entries entries base_bpm acc w) = Ok tracks.
Proof.
  induction 1 as [| entry entries Hb _ IH]; intros acc w; simpl; [eauto |].
  destruct (negb (fs_is_file (files w) entry)); [apply IH |].
  destruct (Re.search BPM_PATTERN (path_name entry)) as [m |] eqn:Hm;
    [| apply IH].
  destruct (float_of_str (Re.group1 BPM_PATTERN m)) as [b |] eqn:Hf;
    [| apply IH].
  destruct (calculate_pitch_adjustment_total b base_bpm (Hb _ _ Hm Hf))
    as [adj ->].
  apply IH.
Qed.

(** C5: every record that [scan_directory] returns carries the
    adjustment computed from its BPM and the base BPM, and the new name
    composed from its original name and that adjustment.  Records are
    values: nothing updates a field after [Build_TrackInfo]. *)
Theorem scan_records_consistent (d : path) (base_bpm : PyFloat.float)
    (w w' : world fs) (tracks : list (TrackInfo path)) :
  scan_directory d base_bpm w = (Ok tracks, w') ->
  Forall (fun t =>
            new_name t
            = generate_new_filename (original_name t) (pitch_adjustment t) /\
            calculate_pitch_adjustment (bpm t) base_bpm
            = Ok (pitch_adjustment t))
         tracks.
Proof.
  unfold scan_directory.
  destruct (fs_iterdir (files w) d) as [entries | msg]; [| discriminate].
  apply (scan_entries_consistent base_bpm entries []). constructor.
Qed.

(** *** [rename_tracks] *)

Lemma rename_loop_dry (tracks : list (TrackInfo path)) :
  forall (count : nat) (w : world fs),
    fst (rename_loop tracks true count w) = (count + List.length tracks)%nat /\
    files (snd (rename_loop tracks true count w)) = files w /\
    logged (snd (rename_loop tracks true count w)) = logged w.
Proof.
  induction tracks as [| t tracks IH]; intros count w; simpl.
  - repeat split; lia.
  - match goal with
    | |- context [rename_loop tracks true ?c ?w0] =>
        destruct (IH c w0) as (-> & -> & ->)
    end.
    repeat split; lia.
Qed.

(** C6: a dry run renames nothing, so the file system is the one it
    started from, and it counts every record. *)
Theorem dry_run_touches_nothing (tracks : list (TrackInfo path))
    (w : world fs) :
  fst (rename_tracks tracks true w) = List.length tracks /\
  files (snd (rename_tracks tracks true w)) = files w.
Proof.
  unfold rename_tracks.
  destruct (rename_loop_dry tracks 0 w) as (-> & -> & _). auto.
Qed.

Lemma attempts_length (tracks : list (TrackInfo path)) :
  forall f : fs, List.length (fst (attempts tracks f)) = List.length tracks.
Proof.
  induction tracks as [| t tracks IH]; intros f; simpl; [reflexivity |].
  destruct (fs_rename _ _ _) as [f' | msg].
  - specialize (IH f'). destruct (attempts tracks f'). simpl in *. lia.
  - specialize (IH f). destruct (attempts tracks f). simpl in *. lia.
Qed.

Lemma rename_loop_attempts (tracks : list (TrackInfo path)) :
  forall (count : nat) (w : world fs),
    fst (rename_loop tracks false count w)
    = (count + count_occ bool_dec (fst (attempts tracks (files w))) true)%nat /\
    files (snd (rename_loop tracks false count w))
    = snd (attempts tracks (files w)).
Proof.
  induction tracks as [| t tracks IH]; intros count w; simpl.
  - split; [lia | reflexivity].
  - destruct (fs_rename _ _ _) as [f' | msg].
    + match goal with
      | |- context [rename_loop tracks false ?c ?w0] =>
          destruct (IH c w0) as [-> ->]
      end.
      rewrite files_log. simpl.
      destruct (attempts tracks f'). simpl. split; [lia | reflexivity].
    + match goal with
      | |- context [rename_loop tracks false ?c ?w0] =>
          destruct (IH c w0) as [-> ->]
      end.
      rewrite files_log.
      destruct (attempts tracks (files w)). simpl. split; [lia | reflexivity].
Qed.

(** C7: outside a dry run every record's rename is tried, and the count
    returned is the number of renames that succeeded; a rename that
    fails does not stop the run, which goes on as if the record were not
    in the list. *)
Theorem rename_counts_successes (tracks : list (TrackInfo path))
    (w : world fs) :
  let outcomes := fst (attempts tracks (files w)) in
  List.length outcomes = List.length tracks /\
  fst (rename_tracks tracks false w) = count_occ bool_dec outcomes true /\
  files (snd (rename_tracks tracks false w))
  = snd (attempts tracks (files w)) /\
  (forall (t : TrackInfo path) (msg : string),
      fs_rename (files w) (original_path t)
        (path_sibling (original_path t) (new_name t)) = Failed msg ->
      fst (rename_tracks (t :: tracks) false w)
      = fst (rename_tracks tracks false w) /\
      files (snd (rename_tracks (t :: tracks) false w))
      = files (snd (rename_tracks tracks false w))).
Proof.
  cbv zeta. split; [apply attempts_length |].
  unfold rename_tracks.
  destruct (rename_loop_attempts tracks 0 w) as [Hcount Hfiles].
  split; [exact Hcount |]. split; [exact Hfiles |].
  intros t msg Hfail.
  destruct (rename_loop_attempts (t :: tracks) 0 w) as [Hcount' Hfiles'].
  rewrite Hcount, Hfiles, Hcount', Hfiles'.
  cbn [attempts]. rewrite Hfail.
  destruct (attempts tracks (files w)) as [outcomes f]. cbn [fst snd].
  split; [| reflexivity].
  cbn [count_occ]. destruct (bool_dec false true); [discriminate | reflexivity].
Qed.

End ProgramProperties.

(** *** [main] *)

Section MainProperties.

Context {path fs : Type} {FS : FileSystem path fs}.

Lemma files_configured (parsed_args : Namespace path) (w : world fs) :
  files (configured parsed_args w) = files w.
Proof.
  unfold configured.
  destruct (quiet parsed_args); [reflexivity |].
  destruct (verbose parsed_args); reflexivity.
Qed.

Lemma scan_entries_no_match (base_bpm : PyFloat.float) (entries : list path) :
  forall (acc : list (TrackInfo path)) (w : world fs),
    no_matching_files (files w) entries ->
    fst (scan_entries entries base_bpm acc w) = Ok acc.
Proof.
  induction entries as [| entry entries IH]; intros acc w H; simpl;
    [reflexivity |].
  inversion H as [| ? ? Hentry Hrest]; subst.
  destruct Hentry as [Hfile | Hsearch].
  - rewrite Hfile. simpl. now apply IH.
  - destruct (negb (fs_is_file (files w) entry)); [now apply IH |].
    rewrite Hsearch. apply IH. now rewrite files_log.
Qed.

(** C9: [main] returns 1 and leaves the file system as it found it when
    the directory does not exist, is not a directory, or the base BPM is
    not positive; past these checks it returns 0 whenever the scan
    returns, and in particular when the directory holds no matching
    file. *)
Theorem main_exit_codes (parsed_args : Namespace path) (w : world fs) :
  let d := fs_resolve (files w) (directory parsed_args) in
  let base_bpm := arg_bpm parsed_args in
  (fs_exists (files w) d = false \/
   fs_is_dir (files w) d = false \/
   PyFloat.leb base_bpm PyFloat.zero = true ->
   fst (main parsed_args w) = Ok 1 /\
   files (snd (main parsed_args w)) = files w) /\
  (fs_exists (files w) d = true ->
   fs_is_dir (files w) d = true ->
   PyFloat.leb base_bpm PyFloat.zero = false ->
   (forall tracks,
       fst (scan_directory d base_bpm w) = Ok tracks ->
       fst (main parsed_args w) = Ok 0) /\
   (forall entries,
       fs_iterdir (files w) d = Done entries ->
       no_matching_files (files w) entries ->
       fst (main parsed_args w) = Ok 0 /\
       files (snd (main parsed_args w)) = files w)).
Proof.
  intros d base_bpm. unfold main.
  fold (configured parsed_args w). cbv zeta.
  rewrite !files_configured. fold d. fold base_bpm.
  destruct (fs_exists (files w) d) eqn:Hex; cbn [negb];
    [| split; [intros _ | discriminate]; cbn [fst snd];
       now rewrite files_log, files_configured].
  destruct (fs_is_dir (files w) d) eqn:Hdir; cbn [negb];
    [| split; [intros _ | discriminate]; cbn [fst snd];
       now rewrite files_log, files_configured].
  destruct (PyFloat.leb base_bpm PyFloat.zero) eqn:Hbpm;
    [split; [intros _ | discriminate]; cbn [fst snd];
     now rewrite files_log, files_configured |].
  split; [intros [H | [H | H]]; discriminate |].
  intros _ _ _.
  set (w1 := log INFO _ (log INFO _ _)).
  assert (Hw1 : files w1 = files w).
  { unfold w1. rewrite !files_log.
    destruct (_ || _); [rewrite files_log |]; apply files_configured. }
  pose proof (scan_directory_world d base_bpm w1 w Hw1) as Hscan.
  pose proof (scan_directory_files d base_bpm w1) as Hfiles.
  destruct (scan_directory d base_bpm w1) as [[tracks | e] w2];
    cbn [fst snd] in Hscan, Hfiles; cbv beta iota.
  - split.
    + intros _ _. destruct tracks; [reflexivity |].
      now destruct (rename_tracks _ _ _).
    + intros entries Hiter Hno.
      assert (tracks = []).
      { unfold scan_directory in Hscan. rewrite Hiter in Hscan.
        rewrite scan_entries_no_match in Hscan by exact Hno.
        now inversion Hscan. }
      subst tracks. cbn [fst snd]. rewrite files_log.
      split; [reflexivity | congruence].
  - split.
    + intros tracks Ht. rewrite <- Hscan in Ht. discriminate.
    + intros entries Hiter Hno.
      unfold scan_directory in Hscan. rewrite Hiter in Hscan.
      rewrite scan_entries_no_match in Hscan by exact Hno. discriminate.
Qed.

End MainProperties.

(* ================================================================= *)
(** ** The end-to-end test, run on [TreeFS] *)

Example scan_music :
  scan_directory TreeFS.music (PyFloat.of_Z 130) TreeFS.start
  = (Ok TreeFS.scanned, TreeFS.start).
Proof. vm_compute. reflexivity. Qed.

Example rename_music :
  fst (rename_tracks TreeFS.scanned false TreeFS.start) = 3%nat /\
  files (snd (rename_tracks TreeFS.scanned false TreeFS.start))
  = TreeFS.renamed_files.
Proof. vm_compute. split; reflexivity. Qed.

Example rename_music_dry :
  fst (rename_tracks TreeFS.scanned true TreeFS.start) = 3%nat /\
  files (snd (rename_tracks TreeFS.scanned true TreeFS.start))
  = TreeFS.dj_set /\
  stdout (snd (rename_tracks TreeFS.scanned true TreeFS.start))
  = [ "  01. Artist - Song A - 125.mp3";
      "    -> 01. (+4.0) Artist - Song A - 125.mp3";
      "    (BPM: 125.0, Adjustment: +4.0)";
      "  02. Artist - Song B - 140.mp3";
      "    -> 02. (-7.14) Artist - Song B - 140.mp3";
      "    (BPM: 140.0, Adjustment: -7.14)";
      "  Random Track - 128.wav";
      "    -> (+1.56) Random Track - 128.wav";
      "    (BPM: 128.0, Adjustment: +1.56)" ]%string.
Proof. vm_compute. repeat split; reflexivity. Qed.

(** A record whose file has gone fails alone: the two others are
    renamed and counted. *)
Example rename_music_one_gone :
  fst (attempts TreeFS.scanned (files TreeFS.song_a_gone))
  = [false; true; true] /\
  fst (rename_tracks TreeFS.scanned false TreeFS.song_a_gone) = 2%nat /\
  logged (snd (rename_tracks TreeFS.scanned false TreeFS.song_a_gone))
  = [ (ERROR,
       "Failed to rename 01. Artist - Song A - 125.mp3: No such file or directory");
      (INFO,
       "Renamed: 02. Artist - Song B - 140.mp3 -> 02. (-7.14) Artist - Song B - 140.mp3");
      (INFO,
       "Renamed: Random Track - 128.wav -> (+1.56) Random Track - 128.wav")
    ]%string.
Proof. vm_compute. repeat split; reflexivity. Qed.

(** A name that gives a BPM of zero stops the scan: the division by the
    track BPM raises, and nothing catches it. *)
Example scan_zero_bpm :
  fst (scan_directory TreeFS.music (PyFloat.of_Z 130) TreeFS.with_silence)
  = Raise ZeroDivisionError.
Proof. vm_compute. reflexivity. Qed.

Lemma rename_counts_successes_witness :
  fst (rename_tracks TreeFS.scanned false TreeFS.song_a_gone)
  = fst (rename_tracks (tl TreeFS.scanned) false TreeFS.song_a_gone) /\
  fst (rename_tracks (tl TreeFS.scanned) false TreeFS.song_a_gone) = 2%nat.
Proof.
  split.
  - destruct (rename_counts_successes (FS := TreeFS.file_system)
                (tl TreeFS.scanned) TreeFS.song_a_gone)
      as (_ & _ & _ & H).
    apply (H (hd (Build_TrackInfo [] ""%string PyFloat.zero ""%string
                    ""%string) TreeFS.scanned)
             "No such file or directory"%string).
    reflexivity.
  - destruct (rename_counts_successes (FS := TreeFS.file_system)
                (tl TreeFS.scanned) TreeFS.song_a_gone)
      as (_ & H & _).
    rewrite H. reflexivity.
Defined.

Lemma scan_records_consistent_witness :
  Forall (fun t =>
            new_name t
            = generate_new_filename (original_name t) (pitch_adjustment t) /\
            calculate_pitch_adjustment (bpm t) (PyFloat.of_Z 130)
            = Ok (pitch_adjustment t))
         TreeFS.scanned.
Proof.
  apply (scan_records_consistent TreeFS.music (PyFloat.of_Z 130)
           TreeFS.start TreeFS.start TreeFS.scanned).
  vm_compute. reflexivity.
Defined.

Lemma main_exit_codes_witness :
  (fst (main (run_in ["nowhere"%string] 130 false) TreeFS.start) = Ok 1 /\
   files (snd (main (run_in ["nowhere"%string] 130 false) TreeFS.start))
   = TreeFS.dj_set) /\
  (fst (main (run_in (TreeFS.music ++ [TreeFS.song_a])%list 130 false)
          TreeFS.start)
   = Ok 1) /\
  (fst (main (run_in TreeFS.music 0 false) TreeFS.start) = Ok 1) /\
  (fst (main (run_in TreeFS.music 130 false) TreeFS.start) = Ok 0) /\
  (fst (main (run_in (TreeFS.music ++ ["Live - 128.mp3"%string])%list 130 false)
          TreeFS.start) = Ok 0).
Proof.
  split; [| split; [| split; [| split]]].
  - apply (proj1 (main_exit_codes (run_in ["nowhere"%string] 130 false)
                    TreeFS.start)).
    left. reflexivity.
  - apply (proj1 (main_exit_codes
                    (run_in (TreeFS.music ++ [TreeFS.song_a])%list 130 false)
                    TreeFS.start)).
    right. left. reflexivity.
  - apply (proj1 (main_exit_codes (run_in TreeFS.music 0 false) TreeFS.start)).
    right. right. reflexivity.
  - apply (proj1 (proj2 (main_exit_codes (FS := TreeFS.file_system)
                           (run_in TreeFS.music 130 false) TreeFS.start)
                    eq_refl eq_refl eq_refl)
             TreeFS.scanned).
    vm_compute. reflexivity.
  - apply (proj2 (proj2 (main_exit_codes (FS := TreeFS.file_system)
                           (run_in
                              (TreeFS.music ++ ["Live - 128.mp3"%string])%list
                              130 false)
                           TreeFS.start)
                    eq_refl eq_refl eq_refl) []).
    + reflexivity.
    + constructor.
Defined.

(* ================================================================= *)
(** ** The shape of a printed adjustment *)

(** *** Rounding to an integer and to a float *)

Lemma rne_div_bound (a b : Z) :
  0 <= a -> 0 < b ->
  - b <= 2 * (b * PyFloat.rne_div a b - a) <= b.
Proof.
  intros Ha Hb. unfold PyFloat.rne_div.
  pose proof (Z.div_mod a b ltac:(lia)) as Hdm.
  pose proof (Z.mod_pos_bound a b Hb) as Hr.
  destruct (Z.compare_spec (2 * (a mod b)) b) as [E | L | G];
    [destruct (Z.even (a / b)) |..]; nia.
Qed.

Lemma ilog2_frac_hundredths (n : Z) :
  1 <= n <= 10 ^ 16 -> PyFloat.ilog2_frac n 100 <= 46.
Proof.
  intros Hn. unfold PyFloat.ilog2_frac, PyFloat.scale2.
  assert (Hl : Z.log2 n <= 53).
  { change 53 with (Z.log2 (10 ^ 16)). apply Z.log2_le_mono. lia. }
  change (Z.log2 100) with 6.
  destruct (0 <=? Z.log2 n - 6) eqn:Ht.
  - destruct (Z.eq_dec (Z.log2 n) 53) as [E | E].
    + rewrite E. change (53 - 6) with 47.
      destruct (100 * 2 ^ 47 <=? n) eqn:Hc; [| lia].
      apply Z.leb_le in Hc. change (100 * 2 ^ 47) with 14073748835532800 in Hc.
      change (10 ^ 16) with 10000000000000000 in Hn. lia.
    + destruct (_ <=? n); lia.
  - apply Z.leb_gt in Ht. destruct (100 <=? _); lia.
Qed.

Lemma ilog2_frac_upper (n : Z) :
  1 <= n < 10 ^ 18 -> PyFloat.ilog2_frac n 100 <= 53.
Proof.
  intros Hn. unfold PyFloat.ilog2_frac.
  assert (Hl : Z.log2 n < 60).
  { apply Z.log2_lt_pow2; [lia |].
    change (10 ^ 18) with 1000000000000000000 in Hn.
    change (2 ^ 60) with 1152921504606846976. lia. }
  change (Z.log2 100) with 6.
  destruct (PyFloat.scale2 n 100 (Z.log2 n - 6)) as [x y].
  destruct (y <=? x); lia.
Qed.

(** The float nearest to [n / 100], for [n] up to [10^16]: it is finite,
    with a negative exponent, at least 0.01, and within one hundredth of
    [n / 100]. *)
Lemma nearest64_hundredths (s : bool) (n : Z) :
  1 <= n <= 10 ^ 16 ->
  exists (m : positive) (e : Z),
    PyFloat.nearest64 s n 100 = S754_finite s m e /\
    e < 0 /\
    2 ^ (- e) <= 100 * Zpos m /\
    (n - 1) * 2 ^ (- e) <= 100 * Zpos m < (n + 1) * 2 ^ (- e).
Proof.
  intros Hn.
  destruct (Z.eq_dec n 1) as [-> | Hn1].
  { exists 5764607523034235%positive, (-59). vm_compute.
    split; [reflexivity |]. repeat split; discriminate. }
  pose proof (ilog2_frac_hundredths n Hn) as Hlog.
  unfold PyFloat.nearest64.
  destruct (n <=? 0) eqn:Hpos; [apply Z.leb_le in Hpos; lia |].
  set (e := Z.max (PyFloat.ilog2_frac n 100 - 52) (-1074)).
  assert (He : -1074 <= e <= -6) by (unfold e; lia).
  unfold PyFloat.scale2.
  destruct (0 <=? e) eqn:Hneg; [apply Z.leb_le in Hneg; lia |].
  set (P := 2 ^ (- e)).
  assert (HP : 64 <= P).
  { change 64 with (2 ^ 6). apply Z.pow_le_mono_r; lia. }
  pose proof (rne_div_bound (n * P) 100 ltac:(nia) ltac:(lia)) as Hr.
  set (m0 := PyFloat.rne_div (n * P) 100) in *.
  destruct (m0 =? 2 ^ 53) eqn:Hcarry.
  - apply Z.eqb_eq in Hcarry.
    assert (HP2 : P = 2 * 2 ^ (- (e + 1))).
    { unfold P. rewrite <- Z.pow_succ_r by lia. f_equal. lia. }
    change (2 ^ 52) with (Zpos (2 ^ 52)).
    cbv iota beta.
    destruct (e + 1 <=? 971) eqn:Hmax; [| apply Z.leb_gt in Hmax; lia].
    exists (2 ^ 52)%positive, (e + 1).
    split; [reflexivity |]. split; [lia |].
    change (Zpos (2 ^ 52)) with (2 ^ 52) in *.
    change (2 ^ 53) with (2 * 2 ^ 52) in Hcarry.
    nia.
  - apply Z.eqb_neq in Hcarry.
    assert (Hm0 : 1 <= m0) by nia.
    destruct m0 as [| m | m] eqn:Em; try lia.
    destruct (e <=? 971) eqn:Hmax; [| apply Z.leb_gt in Hmax; lia].
    exists m, e. split; [reflexivity |]. split; [lia |].
    fold P. nia.
Qed.

(** The float nearest to [n / 100], for [n] beyond [10^16] and below
    [10^18 - 100]: its exact value [a / b] lies from [10^14] to
    [10^16 - 1/2]. *)
Lemma nearest64_large (s : bool) (n : Z) :
  10 ^ 16 < n < 10 ^ 18 - 100 ->
  exists (m : positive) (e a b : Z),
    PyFloat.nearest64 s n 100 = S754_finite s m e /\
    PyFloat.scale2 (Zpos m) 1 (- e) = (a, b) /\
    0 < b /\ 10 ^ 14 * b <= a /\ 2 * a <= (2 * 10 ^ 16 - 1) * b.
Proof.
  intros Hn.
  change (10 ^ 16) with 10000000000000000 in *.
  change (10 ^ 18) with 1000000000000000000 in *.
  change (10 ^ 14) with 100000000000000.
  assert (Hlog : PyFloat.ilog2_frac n 100 <= 53).
  { apply ilog2_frac_upper.
    change (10 ^ 18) with 1000000000000000000. lia. }
  unfold PyFloat.nearest64.
  destruct (n <=? 0) eqn:Hpos; [apply Z.leb_le in Hpos; lia |].
  set (e := Z.max (PyFloat.ilog2_frac n 100 - 52) (-1074)).
  assert (He : -1074 <= e <= 1) by (unfold e; lia).
  clearbody e.
  unfold PyFloat.scale2 at 1.
  destruct (0 <=? e) eqn:Hsign.
  - apply Z.leb_le in Hsign.
    assert (E : e = 0 \/ e = 1) by lia.
    destruct E as [-> | ->].
    + change (100 * 2 ^ 0) with 100.
      pose proof (rne_div_bound n 100 ltac:(lia) ltac:(lia)) as Hr.
      set (m0 := PyFloat.rne_div n 100) in *.
      destruct (m0 =? 2 ^ 53) eqn:Hcarry.
      * exists (2 ^ 52)%positive, 1, (2 ^ 53), 1.
        split; [reflexivity |]. split; [reflexivity |].
        vm_compute. repeat split; discriminate.
      * assert (Hm0 : 1 <= m0) by lia.
        destruct m0 as [| m | m] eqn:Em; try lia.
        exists m, 0, (Zpos m), 1.
        split; [reflexivity |]. split; [reflexivity |]. lia.
    + change (100 * 2 ^ 1) with 200.
      pose proof (rne_div_bound n 200 ltac:(lia) ltac:(lia)) as Hr.
      set (m0 := PyFloat.rne_div n 200) in *.
      destruct (m0 =? 2 ^ 53) eqn:Hcarry.
      * apply Z.eqb_eq in Hcarry.
        change (2 ^ 53) with 9007199254740992 in Hcarry. lia.
      * assert (Hm0 : 1 <= m0) by lia.
        destruct m0 as [| m | m] eqn:Em; try lia.
        exists m, 1, (Zpos m * 2), 1.
        split; [reflexivity |]. split; [reflexivity |]. lia.
  - apply Z.leb_gt in Hsign.
    set (P := 2 ^ (- e)).
    assert (HP : 2 <= P).
    { change 2 with (2 ^ 1) at 1. apply Z.pow_le_mono_r; lia. }
    pose proof (rne_div_bound (n * P) 100 ltac:(nia) ltac:(lia)) as Hr.
    set (m0 := PyFloat.rne_div (n * P) 100) in *.
    destruct (m0 =? 2 ^ 53) eqn:Hcarry.
    + apply Z.eqb_eq in Hcarry.
      assert (HP2 : P = 2 * 2 ^ (- (e + 1))).
      { unfold P. rewrite <- Z.pow_succ_r by lia. f_equal. lia. }
      change (2 ^ 52) with (Zpos (2 ^ 52)).
      cbv iota beta.
      destruct (e + 1 <=? 971) eqn:Hmax; [| apply Z.leb_gt in Hmax; lia].
      exists (2 ^ 52)%positive, (e + 1), (Zpos (2 ^ 52)), (2 ^ (- (e + 1))).
      split; [reflexivity |].
      split.
      { unfold PyFloat.scale2.
        replace (0 <=? - (e + 1)) with true by (symmetry; apply Z.leb_le; lia).
        now rewrite Z.mul_1_l. }
      assert (0 < 2 ^ (- (e + 1))) by (apply Z.pow_pos_nonneg; lia).
      change (Zpos (2 ^ 52)) with 4503599627370496.
      change (2 ^ 53) with 9007199254740992 in Hcarry.
      split; [lia |]. nia.
    + apply Z.eqb_neq in Hcarry.
      assert (Hm0 : 1 <= m0) by nia.
      destruct m0 as [| m | m] eqn:Em; try lia.
      destruct (e <=? 971) eqn:Hmax; [| apply Z.leb_gt in Hmax; lia].
      exists m, e, (Zpos m), P.
      split; [reflexivity |].
      split.
      { unfold PyFloat.scale2.
        replace (0 <=? - e) with true by (symmetry; apply Z.leb_le; lia).
        now rewrite Z.mul_1_l. }
      split; [lia |]. nia.
Qed.

(** *** Decimal digits *)

Lemma digit_char_digit (d : Z) :
  0 <= d < 10 -> Re.is_digit (PyFloat.digit_char d) = true.
Proof.
  intros H.
  assert (E : d = 0 \/ d = 1 \/ d = 2 \/ d = 3 \/ d = 4 \/ d = 5 \/ d = 6
              \/ d = 7 \/ d = 8 \/ d = 9) by lia.
  repeat (destruct E as [-> | E]; [reflexivity |]). subst. reflexivity.
Qed.

Lemma digits_fuel_spec (fuel : nat) :
  forall (z : Z) (acc : list ascii),
    0 <= z ->
    exists ds : list ascii,
      PyFloat.digits_fuel (S fuel) z acc = (ds ++ acc)%list /\
      is_digits ds = true /\
      (1 <= List.length ds)%nat /\
      (forall j : nat, (1 <= j)%nat -> z < 10 ^ Z.of_nat j ->
                       (List.length ds <= j)%nat).
Proof.
  induction fuel as [| fuel IH]; intros z acc Hz.
  - exists [PyFloat.digit_char (z mod 10)]. simpl.
    rewrite digit_char_digit by (apply Z.mod_pos_bound; lia).
    split; [destruct (z <? 10); reflexivity |].
    split; [reflexivity |]. split; [lia | intros; lia].
  - change (PyFloat.digits_fuel (S (S fuel)) z acc)
      with (if z <? 10 then PyFloat.digit_char (z mod 10) :: acc
            else PyFloat.digits_fuel (S fuel) (z / 10)
                   (PyFloat.digit_char (z mod 10) :: acc)).
    destruct (z <? 10) eqn:Hlt.
    + exists [PyFloat.digit_char (z mod 10)]. simpl.
      rewrite digit_char_digit by (apply Z.mod_pos_bound; lia).
      split; [reflexivity |]. split; [reflexivity |].
      split; [lia | intros; lia].
    + apply Z.ltb_ge in Hlt.
      destruct (IH (z / 10) (PyFloat.digit_char (z mod 10) :: acc))
        as (ds & -> & Hd & Hl & Hj).
      { apply Z.div_pos; lia. }
      exists (ds ++ [PyFloat.digit_char (z mod 10)])%list.
      split; [now rewrite <- app_assoc |].
      split.
      { unfold is_digits in *. rewrite forallb_app, Hd. simpl.
        now rewrite digit_char_digit by (apply Z.mod_pos_bound; lia). }
      rewrite length_app. simpl.
      split; [lia |].
      intros j Hj1 Hzj.
      destruct j as [| [| j]]; [lia | simpl in Hzj; lia |].
      assert (List.length ds <= S j)%nat; [| lia].
      apply Hj; [lia |].
      apply Z.div_lt_upper_bound; [lia |].
      rewrite <- Z.pow_succ_r by lia.
      now rewrite <- Nat2Z.inj_succ.
Qed.

Lemma digits_of_Z_spec (z : Z) :
  0 <= z ->
  is_digits (PyFloat.digits_of_Z z) = true /\
  (1 <= List.length (PyFloat.digits_of_Z z))%nat /\
  (forall j : nat, (1 <= j)%nat -> z < 10 ^ Z.of_nat j ->
                   (List.length (PyFloat.digits_of_Z z) <= j)%nat).
Proof.
  intros Hz. unfold PyFloat.digits_of_Z.
  destruct (digits_fuel_spec (Z.to_nat (Z.log2 z)) z [] Hz)
    as (ds & -> & H).
  now rewrite app_nil_r.
Qed.

(** *** The decimal exponent *)

Lemma ndigits10_bounds (fuel : nat) :
  forall (z : Z) (j : Z),
    1 <= j -> z < 10 ^ j -> 1 <= PyFloat.ndigits10 fuel z <= j.
Proof.
  induction fuel as [| fuel IH]; intros z j Hj Hz;
    cbn [PyFloat.ndigits10]; [lia |].
  destruct (z <? 10) eqn:Hlt; [lia |].
  apply Z.ltb_ge in Hlt.
  assert (2 <= j).
  { destruct (Z.eq_dec j 1) as [-> | ]; [simpl in Hz |]; lia. }
  assert (1 <= PyFloat.ndigits10 fuel (z / 10) <= j - 1); [| lia].
  apply IH; [lia |].
  apply Z.div_lt_upper_bound; [lia |].
  rewrite <- Z.pow_succ_r by lia. now replace (Z.succ (j - 1)) with j by lia.
Qed.

Lemma ndigits10_pos (fuel : nat) (z : Z) : 1 <= PyFloat.ndigits10 fuel z.
Proof.
  revert z. induction fuel as [| fuel IH]; intros z;
    cbn [PyFloat.ndigits10]; [lia |].
  destruct (z <? 10); [lia |]. specialize (IH (z / 10)). lia.
Qed.

Lemma ndigits10_lower (fuel : nat) :
  forall z j : Z,
    z < 2 ^ Z.of_nat fuel -> 10 ^ (j - 1) <= z -> 1 <= j ->
    j <= PyFloat.ndigits10 fuel z.
Proof.
  induction fuel as [| fuel IH]; intros z j Hz Hj H1;
    cbn [PyFloat.ndigits10].
  - pose proof (Z.pow_pos_nonneg 10 (j - 1) ltac:(lia) ltac:(lia)).
    simpl in Hz. lia.
  - rewrite Nat2Z.inj_succ, Z.pow_succ_r in Hz by lia.
    destruct (z <? 10) eqn:Hlt.
    + apply Z.ltb_lt in Hlt.
      destruct (Z_le_gt_dec j 1) as [| Hgt]; [lia |].
      assert (10 ^ 1 <= 10 ^ (j - 1)) by (apply Z.pow_le_mono_r; lia).
      change (10 ^ 1) with 10 in *. lia.
    + apply Z.ltb_ge in Hlt.
      destruct (Z.eq_dec j 1) as [-> | Hne].
      { pose proof (ndigits10_pos fuel (z / 10)). lia. }
      assert (j - 1 <= PyFloat.ndigits10 fuel (z / 10)); [| lia].
      apply IH; [| | lia].
      * apply Z.div_lt_upper_bound; lia.
      * apply Z.div_le_lower_bound; [lia |].
        rewrite <- Z.pow_succ_r by lia.
        now replace (Z.succ (j - 1 - 1)) with (j - 1) by lia.
Qed.

Lemma lead10_bounds (fuel : nat) (a b : Z) :
  b <= 100 * a -> 1 <= PyFloat.lead10 fuel a b <= 2.
Proof.
  intros H. destruct fuel as [| [| fuel]]; cbn [PyFloat.lead10]; try lia.
  - destruct (b <=? 10 * a); lia.
  - destruct (b <=? 10 * a); [lia |].
    destruct (b <=? 10 * (10 * a)) eqn:E; [lia |].
    apply Z.leb_gt in E. lia.
Qed.

(** For [0.01 <= a / b < 10^15] the decimal exponent lies in [-1, 15]. *)
Lemma dec_exp_bounds (a b : Z) :
  0 < b -> b <= 100 * a -> a < 10 ^ 15 * b ->
  -1 <= PyFloat.dec_exp a b <= 15.
Proof.
  intros Hb Hlo Hhi. unfold PyFloat.dec_exp.
  destruct (b <=? a) eqn:Hab.
  - assert (1 <= PyFloat.ndigits10 (S (Z.to_nat (Z.log2 (a / b)))) (a / b)
            <= 15); [| lia].
    apply ndigits10_bounds; [lia |].
    apply Z.div_lt_upper_bound; [lia |].
    rewrite Z.mul_comm. exact Hhi.
  - pose proof (lead10_bounds (S (Z.to_nat (Z.log2 b))) a b Hlo). lia.
Qed.

(** For [10^14 <= a / b < 10^16] the decimal exponent is 15 or 16. *)
Lemma dec_exp_large (a b : Z) :
  0 < b -> 10 ^ 14 * b <= a -> a < 10 ^ 16 * b ->
  15 <= PyFloat.dec_exp a b <= 16.
Proof.
  intros Hb Hlo Hhi. unfold PyFloat.dec_exp.
  change (10 ^ 14) with 100000000000000 in Hlo.
  replace (b <=? a) with true by (symmetry; apply Z.leb_le; lia).
  assert (Hz : 10 ^ 14 <= a / b).
  { apply Z.div_le_lower_bound; [lia |].
    change (10 ^ 14) with 100000000000000. lia. }
  split.
  - apply ndigits10_lower; [| exact Hz | lia].
    rewrite Nat2Z.inj_succ, Z2Nat.id by (apply Z.log2_nonneg).
    apply Z.log2_spec. change (10 ^ 14) with 100000000000000 in Hz. lia.
  - apply ndigits10_bounds; [lia |].
    apply Z.div_lt_upper_bound; [lia |].
    rewrite Z.mul_comm. exact Hhi.
Qed.

(** *** The search for the shortest decimal *)

Lemma scale10_pos (a b k : Z) :
  0 <= a -> 0 < b ->
  0 <= fst (PyFloat.scale10 a b k) /\ 0 < snd (PyFloat.scale10 a b k).
Proof.
  intros Ha Hb. unfold PyFloat.scale10.
  destruct (0 <=? k) eqn:Hk; simpl.
  - apply Z.leb_le in Hk.
    pose proof (Z.pow_pos_nonneg 10 k ltac:(lia) Hk). nia.
  - apply Z.leb_gt in Hk.
    pose proof (Z.pow_pos_nonneg 10 (- k) ltac:(lia) ltac:(lia)). nia.
Qed.

Lemma floor_at_nonneg (a b k : Z) :
  0 <= a -> 0 < b -> 0 <= PyFloat.floor_at a b k.
Proof.
  intros Ha Hb. unfold PyFloat.floor_at.
  pose proof (scale10_pos a b k Ha Hb) as [Hn Hd].
  destruct (PyFloat.scale10 a b k) as [n d]. simpl in *.
  now apply Z.div_pos.
Qed.

Lemma floor_at_lt (a b j k : Z) :
  0 <= a -> 0 < b -> a < 10 ^ j * b -> 0 <= j -> 0 <= j + k ->
  PyFloat.floor_at a b k < 10 ^ (j + k).
Proof.
  intros Ha Hb Hhi Hj Hk. unfold PyFloat.floor_at, PyFloat.scale10.
  destruct (0 <=? k) eqn:Hs.
  - apply Z.leb_le in Hs.
    apply Z.div_lt_upper_bound; [lia |].
    rewrite Z.pow_add_r by lia.
    pose proof (Z.pow_pos_nonneg 10 k ltac:(lia) Hs). nia.
  - apply Z.leb_gt in Hs.
    pose proof (Z.pow_pos_nonneg 10 (- k) ltac:(lia) ltac:(lia)) as Hp.
    apply Z.div_lt_upper_bound; [nia |].
    assert (E : 10 ^ j = 10 ^ (j + k) * 10 ^ (- k)).
    { rewrite <- Z.pow_add_r by lia. f_equal. lia. }
    rewrite E in Hhi. nia.
Qed.

Lemma floor_at_ge1 (a b k : Z) :
  0 < b -> b <= a -> 0 <= k -> 1 <= PyFloat.floor_at a b k.
Proof.
  intros Hb Hab Hk. unfold PyFloat.floor_at, PyFloat.scale10.
  replace (0 <=? k) with true by (symmetry; now apply Z.leb_le).
  apply Z.div_le_lower_bound; [lia |].
  pose proof (Z.pow_pos_nonneg 10 k ltac:(lia) Hk). nia.
Qed.

Lemma nearer_cases (a b lo k : Z) :
  PyFloat.nearer a b lo k = lo \/ PyFloat.nearer a b lo k = lo + 1.
Proof.
  unfold PyFloat.nearer. destruct (PyFloat.scale10 a b k) as [n d].
  destruct (_ ?= _); [destruct (Z.even lo) |..]; auto.
Qed.

Lemma reads_back_zero (s s' : bool) (m : positive) (e k : Z) :
  PyFloat.reads_back (S754_finite s' m e) s 0 k = false.
Proof.
  unfold PyFloat.reads_back, PyFloat.read_decimal, PyFloat.scale10.
  destruct (0 <=? - k); [rewrite Z.mul_0_l |]; destruct s'; reflexivity.
Qed.

Lemma SFeqb_finite_eq (s : bool) (m m' : positive) (e e' : Z) :
  SFeqb (S754_finite s m e) (S754_finite s m' e') = true ->
  m = m' /\ e = e'.
Proof.
  unfold SFeqb, SFcompare.
  destruct (Z.compare_spec e e') as [-> | L | G];
    [| destruct s; discriminate | destruct s; discriminate].
  destruct (Pos.compare_cont Eq m m') eqn:C; [| destruct s; discriminate ..].
  intros _. split; [now apply Pos.compare_eq | reflexivity].
Qed.

(** [10^16], however it is written, reads back as the float [1e16]. *)
Lemma read_decimal_1e16 (s : bool) (k : Z) :
  -15 <= k <= 2 ->
  PyFloat.read_decimal s (10 ^ (16 + k)) k
  = S754_finite s 5000000000000000 1.
Proof.
  intros Hk. unfold PyFloat.read_decimal, PyFloat.scale10.
  destruct (0 <=? - k) eqn:Hs.
  - apply Z.leb_le in Hs.
    rewrite <- Z.pow_add_r by lia.
    replace (16 + k + - k) with 16 by lia.
    vm_compute. reflexivity.
  - apply Z.leb_gt in Hs.
    assert (E : k = 1 \/ k = 2) by lia.
    destruct E as [-> | ->]; vm_compute; reflexivity.
Qed.

(** When a decimal with two digits after the point reads back, the
    search stops with at most two digits after the point. *)
Lemma shortest_from_found (s s' : bool) (m : positive) (e a b c2 : Z) :
  0 <= a -> 0 < b ->
  PyFloat.reads_back (S754_finite s' m e) s c2 2 = true ->
  c2 = PyFloat.floor_at a b 2 \/ c2 = PyFloat.floor_at a b 2 + 1 ->
  1 <= PyFloat.floor_at a b 2 ->
  forall (levels : nat) (k : Z),
    k <= 2 <= k + Z.of_nat levels ->
    let '(c, k') :=
      PyFloat.shortest_from (S754_finite s' m e) s a b levels k in
    k <= k' <= 2 /\ 1 <= c <= PyFloat.floor_at a b k' + 1.
Proof.
  intros Ha Hb Hread Hc2 Hfloor.
  induction levels as [| levels IH]; intros k Hk;
    cbn [PyFloat.shortest_from].
  - assert (k = 2) by lia. subst k.
    destruct (nearer_cases a b (PyFloat.floor_at a b 2) 2) as [-> | ->]; lia.
  - pose proof (floor_at_nonneg a b k Ha Hb) as Hlo.
    destruct (PyFloat.reads_back _ s (PyFloat.floor_at a b k) k) eqn:Rlo.
    + assert (PyFloat.floor_at a b k <> 0).
      { intros E. rewrite E, reads_back_zero in Rlo. discriminate. }
      destruct (PyFloat.reads_back _ s (PyFloat.floor_at a b k + 1) k).
      * destruct (nearer_cases a b (PyFloat.floor_at a b k) k) as [-> | ->];
          lia.
      * lia.
    + destruct (PyFloat.reads_back _ s (PyFloat.floor_at a b k + 1) k) eqn:Rhi;
        [lia |].
      assert (k <> 2).
      { intros ->. destruct Hc2 as [-> | ->]; congruence. }
      specialize (IH (k + 1) ltac:(lia)).
      destruct (PyFloat.shortest_from _ s a b levels (k + 1)) as [c k'].
      lia.
Qed.

(** What the search returns in general: a precision among those tried,
    and the decimal just below or just above the value at that precision;
    short of the last precision, a decimal that reads back. *)
Lemma shortest_from_spec (s s' : bool) (m : positive) (e a b : Z) :
  0 <= a -> 0 < b ->
  forall (levels : nat) (k : Z),
    1 <= PyFloat.floor_at a b (k + Z.of_nat levels) ->
    let '(c, k') :=
      PyFloat.shortest_from (S754_finite s' m e) s a b levels k in
    k <= k' <= k + Z.of_nat levels /\
    1 <= c <= PyFloat.floor_at a b k' + 1 /\
    (k' < k + Z.of_nat levels ->
     PyFloat.reads_back (S754_finite s' m e) s c k' = true).
Proof.
  intros Ha Hb.
  induction levels as [| levels IH]; intros k Hlast;
    cbn [PyFloat.shortest_from].
  - rewrite Z.add_0_r in *.
    destruct (nearer_cases a b (PyFloat.floor_at a b k) k) as [-> | ->];
      (split; [lia |]); (split; [lia |]); lia.
  - pose proof (floor_at_nonneg a b k Ha Hb) as Hlo.
    rewrite Nat2Z.inj_succ in *.
    destruct (PyFloat.reads_back _ s (PyFloat.floor_at a b k) k) eqn:Rlo.
    + assert (PyFloat.floor_at a b k <> 0).
      { intros E. rewrite E, reads_back_zero in Rlo. discriminate. }
      destruct (PyFloat.reads_back _ s (PyFloat.floor_at a b k + 1) k) eqn:Rhi.
      * destruct (nearer_cases a b (PyFloat.floor_at a b k) k) as [-> | ->];
          (split; [lia |]); (split; [lia |]); auto.
      * (split; [lia |]); (split; [lia |]); auto.
    + destruct (PyFloat.reads_back _ s (PyFloat.floor_at a b k + 1) k) eqn:Rhi.
      * (split; [lia |]); (split; [lia |]); auto.
      * specialize (IH (k + 1)).
        replace (k + 1 + Z.of_nat levels) with (k + Z.succ (Z.of_nat levels))
          in IH by lia.
        specialize (IH Hlast).
        destruct (PyFloat.shortest_from _ s a b levels (k + 1)) as [c k'].
        destruct IH as (H1 & H2 & H3).
        (split; [lia |]); (split; [lia |]); exact H3.
Qed.

Lemma strip_zeros_spec (fuel : nat) :
  forall c k : Z,
    1 <= c < 10 ^ (16 + k) ->
    let '(c', k') := PyFloat.strip_zeros fuel c k in
    1 <= c' < 10 ^ (16 + k') /\ k' <= k.
Proof.
  induction fuel as [| fuel IH]; intros c k Hc; cbn [PyFloat.strip_zeros];
    [lia |].
  destruct (c mod 10 =? 0) eqn:Hmod; [| lia].
  apply Z.eqb_eq in Hmod.
  pose proof (Z.div_mod c 10 ltac:(lia)) as Hdm.
  assert (Hk : 2 <= 16 + k).
  { destruct (Z_lt_le_dec (16 + k) 2) as [Hlt | ]; [| lia].
    assert (10 ^ (16 + k) <= 10 ^ 1)
      by (destruct (Z_lt_le_dec (16 + k) 0);
          [rewrite Z.pow_neg_r by lia; lia
          | apply Z.pow_le_mono_r; lia]).
    change (10 ^ 1) with 10 in *. lia. }
  specialize (IH (c / 10) (k - 1)).
  destruct (PyFloat.strip_zeros fuel (c / 10) (k - 1)) as [c' k'].
  assert (E : 10 ^ (16 + k) = 10 * 10 ^ (16 + (k - 1))).
  { rewrite <- Z.pow_succ_r by lia. f_equal. lia. }
  assert (1 <= c' < 10 ^ (16 + k') /\ k' <= k - 1); [| lia].
  apply IH. lia.
Qed.

(** *** The positional layout *)

Lemma is_digits_zeros (n : Z) : is_digits (PyFloat.zeros n) = true.
Proof.
  unfold PyFloat.zeros, is_digits.
  induction (Z.to_nat n); simpl; auto.
Qed.

Lemma length_zeros (n : Z) : List.length (PyFloat.zeros n) = Z.to_nat n.
Proof. apply repeat_length. Qed.

Lemma is_digits_app (l1 l2 : list ascii) :
  is_digits (l1 ++ l2) = is_digits l1 && is_digits l2.
Proof. apply forallb_app. Qed.

Lemma is_digits_firstn (n : nat) (l : list ascii) :
  is_digits l = true -> is_digits (firstn n l) = true.
Proof.
  intros H. rewrite <- (firstn_skipn n l), is_digits_app in H.
  now apply andb_prop in H.
Qed.

Lemma is_digits_skipn (n : nat) (l : list ascii) :
  is_digits l = true -> is_digits (skipn n l) = true.
Proof.
  intros H. rewrite <- (firstn_skipn n l), is_digits_app in H.
  now apply andb_prop in H.
Qed.

(** Digits laid out with [k] of them after the point, [k <= 2]: an
    integer part, the point, and one or two fraction digits. *)
Lemma format_fixed_shape (ds : list ascii) (decpt : Z) :
  is_digits ds = true ->
  (1 <= List.length ds)%nat ->
  Z.of_nat (List.length ds) - decpt <= 2 ->
  exists ip fp : list ascii,
    PyFloat.format_fixed ds decpt = (ip ++ "."%char :: fp)%list /\
    is_digits ip = true /\ ip <> [] /\
    is_digits fp = true /\ (1 <= List.length fp <= 2)%nat.
Proof.
  intros Hd Hl Hk. unfold PyFloat.format_fixed.
  destruct (decpt <=? 0) eqn:H0; [| destruct (_ <=? decpt) eqn:H1].
  - apply Z.leb_le in H0.
    exists ["0"%char], (PyFloat.zeros (- decpt) ++ ds)%list.
    split; [reflexivity |]. split; [reflexivity |]. split; [discriminate |].
    rewrite is_digits_app, is_digits_zeros, Hd, length_app, length_zeros.
    split; [reflexivity | lia].
  - apply Z.leb_le in H1.
    exists (ds ++ PyFloat.zeros (decpt - Z.of_nat (List.length ds)))%list,
      ["0"%char].
    split; [now rewrite <- app_assoc |].
    rewrite is_digits_app, is_digits_zeros, Hd.
    split; [reflexivity |].
    split; [destruct ds; [simpl in Hl; lia | discriminate] |].
    split; [reflexivity | simpl; lia].
  - apply Z.leb_gt in H0, H1.
    exists (firstn (Z.to_nat decpt) ds), (skipn (Z.to_nat decpt) ds).
    split; [reflexivity |].
    split; [now apply is_digits_firstn |].
    split.
    { destruct ds as [| c ds]; [simpl in Hl; lia |].
      destruct (Z.to_nat decpt) eqn:E; [lia | discriminate]. }
    split; [now apply is_digits_skipn |].
    rewrite length_skipn. lia.
Qed.

(** A decimal below [10^16] with at most two digits after the point is
    laid out positionally, with one or two fraction digits. *)
Lemma layout_digits (c k : Z) :
  1 <= c < 10 ^ (16 + k) -> k <= 2 ->
  let ds := PyFloat.digits_of_Z c in
  let decpt := Z.of_nat (List.length ds) - k in
  exists ip fp : list ascii,
    (if (-4 <? decpt) && (decpt <=? 16)
     then PyFloat.format_fixed ds decpt
     else PyFloat.format_exp ds decpt) = (ip ++ "."%char :: fp)%list /\
    is_digits ip = true /\ ip <> [] /\
    is_digits fp = true /\ (1 <= List.length fp <= 2)%nat.
Proof.
  intros Hc Hk ds decpt.
  destruct (digits_of_Z_spec c ltac:(lia)) as (Hdig & Hlen1 & Hlenj).
  assert (Hk16 : 1 <= 16 + k).
  { destruct (Z_lt_le_dec (16 + k) 1) as [Hneg | ]; [| lia].
    assert (10 ^ (16 + k) <= 1); [| lia].
    destruct (Z.eq_dec (16 + k) 0) as [-> | ]; [simpl; lia |].
    rewrite Z.pow_neg_r by lia. lia. }
  specialize (Hlenj (Z.to_nat (16 + k)) ltac:(lia)
                ltac:(rewrite Z2Nat.id by lia; lia)).
  fold ds in Hdig, Hlen1, Hlenj.
  replace ((-4 <? decpt) && (decpt <=? 16)) with true.
  - apply format_fixed_shape; [exact Hdig | exact Hlen1 | unfold decpt; lia].
  - symmetry. apply andb_true_intro. unfold decpt. split.
    + apply Z.ltb_lt. lia.
    + apply Z.leb_le. lia.
Qed.

(** *** The adjustment string *)

Lemma span_digits_point (ip fp : list ascii) :
  is_digits ip = true ->
  span_digits (ip ++ "."%char :: fp) = (ip, "."%char :: fp).
Proof.
  induction ip as [| c ip IH]; simpl; intros H; [reflexivity |].
  apply andb_prop in H. destruct H as [Hc Hip].
  now rewrite Hc, IH.
Qed.

Lemma signed_decimal_intro (lo hi : nat) (sg : ascii) (ip fp : list ascii) :
  sg = "+"%char \/ sg = "-"%char ->
  is_digits ip = true -> ip <> [] ->
  is_digits fp = true -> (lo <= List.length fp <= hi)%nat ->
  is_signed_decimal lo hi
    (String sg (string_of_list_ascii (ip ++ "."%char :: fp))) = true.
Proof.
  intros Hsg Hip Hne Hfp Hlen. unfold is_signed_decimal.
  cbn [list_ascii_of_string].
  rewrite list_ascii_of_string_of_list_ascii, span_digits_point by exact Hip.
  destruct ip as [| c ip]; [congruence |].
  rewrite Hfp.
  replace (lo <=? List.length fp)%nat with true
    by (symmetry; apply Nat.leb_le; lia).
  replace (List.length fp <=? hi)%nat with true
    by (symmetry; apply Nat.leb_le; lia).
  destruct Hsg as [-> | ->]; reflexivity.
Qed.

Lemma rne_div_nonneg (a b : Z) : 0 <= a -> 0 < b -> 0 <= PyFloat.rne_div a b.
Proof. intros Ha Hb. pose proof (rne_div_bound a b Ha Hb). nia. Qed.

Lemma hundredths_nonneg (m : positive) (e : Z) : 0 <= PyFloat.hundredths m e.
Proof.
  unfold PyFloat.hundredths, PyFloat.scale2.
  destruct (0 <=? - e) eqn:He.
  - apply Z.leb_le in He.
    pose proof (Z.pow_pos_nonneg 2 (- e) ltac:(lia) He).
    apply rne_div_nonneg; lia.
  - apply Z.leb_gt in He.
    pose proof (Z.pow_pos_nonneg 2 (- - e) ltac:(lia) ltac:(lia)).
    apply rne_div_nonneg; nia.
Qed.

(** A float within reach of [nearest64_hundredths] prints positionally
    with one or two fraction digits. *)
Lemma repr_abs_hundredths (s : bool) (m : positive) (e n : Z) :
  n <= 10 ^ 16 ->
  PyFloat.nearest64 s n 100 = S754_finite s m e ->
  e < 0 ->
  2 ^ (- e) <= 100 * Zpos m ->
  (n - 1) * 2 ^ (- e) <= 100 * Zpos m < (n + 1) * 2 ^ (- e) ->
  exists ip fp : list ascii,
    PyFloat.repr_abs s m e = (ip ++ "."%char :: fp)%list /\
    is_digits ip = true /\ ip <> [] /\
    is_digits fp = true /\ (1 <= List.length fp <= 2)%nat.
Proof.
  intros Hn Hr He Hlo Hnear.
  unfold PyFloat.repr_abs, PyFloat.shortest_digits, PyFloat.scale2.
  replace (0 <=? - e) with true by (symmetry; apply Z.leb_le; lia).
  rewrite Z.mul_1_l.
  set (a := Zpos m). set (b := 2 ^ (- e)) in *.
  assert (Hb : 0 < b) by (apply Z.pow_pos_nonneg; lia).
  assert (Ha : 0 <= a) by (unfold a; lia).
  assert (Hhi : a < 10 ^ 15 * b).
  { change (10 ^ 16) with 10000000000000000 in Hn.
    change (10 ^ 15) with 1000000000000000. fold a in Hnear. nia. }
  pose proof (dec_exp_bounds a b Hb Hlo Hhi) as Hd.
  assert (Hfloor : PyFloat.floor_at a b 2 = (100 * a) / b).
  { unfold PyFloat.floor_at, PyFloat.scale10. cbn [Z.leb Z.compare].
    change (10 ^ 2) with 100. now rewrite Z.mul_comm. }
  assert (Hf1 : n - 1 <= (100 * a) / b)
    by (apply Z.div_le_lower_bound; [lia | fold a in Hnear; nia]).
  assert (Hf2 : (100 * a) / b < n + 1)
    by (apply Z.div_lt_upper_bound; [lia | fold a in Hnear; nia]).
  assert (Hf3 : 1 <= (100 * a) / b)
    by (apply Z.div_le_lower_bound; lia).
  assert (Hread : PyFloat.reads_back (S754_finite s m e) s n 2 = true).
  { unfold PyFloat.reads_back, PyFloat.read_decimal, PyFloat.scale10.
    cbn [Z.opp Z.leb Z.compare]. change (1 * 10 ^ 2) with 100.
    rewrite Hr. now apply (eqb_refl (S754_finite s m e)). }
  pose proof (shortest_from_found s s m e a b n Ha Hb Hread
                ltac:(rewrite Hfloor; lia) ltac:(rewrite Hfloor; lia)
                16%nat (1 - PyFloat.dec_exp a b) ltac:(lia)) as Hfound.
  destruct (PyFloat.shortest_from _ s a b 16 (1 - PyFloat.dec_exp a b))
    as [c k].
  destruct Hfound as [Hk Hc].
  pose proof (floor_at_lt a b 15 k Ha Hb Hhi ltac:(lia) ltac:(lia)) as Hlt.
  assert (Hc' : 1 <= c < 10 ^ (16 + k)).
  { replace (16 + k) with (Z.succ (15 + k)) by lia.
    rewrite Z.pow_succ_r by lia. lia. }
  pose proof (strip_zeros_spec (S (Z.to_nat (Z.log2 c))) c k Hc') as Hstrip.
  destruct (PyFloat.strip_zeros _ c k) as [c' k'].
  destruct Hstrip as [Hc'' Hk'].
  apply (layout_digits c' k' Hc''). lia.
Qed.

(** A float from [10^14] up to, but less than, [10^16] prints
    positionally with one or two fraction digits: the 17 significant
    digits that the search allows leave room for no more. *)
Lemma repr_abs_large (s : bool) (m : positive) (e a b : Z) :
  PyFloat.scale2 (Zpos m) 1 (- e) = (a, b) ->
  0 < b -> 10 ^ 14 * b <= a -> 2 * a <= (2 * 10 ^ 16 - 1) * b ->
  exists ip fp : list ascii,
    PyFloat.repr_abs s m e = (ip ++ "."%char :: fp)%list /\
    is_digits ip = true /\ ip <> [] /\
    is_digits fp = true /\ (1 <= List.length fp <= 2)%nat.
Proof.
  intros Hab Hb Hlo Hhi.
  unfold PyFloat.repr_abs, PyFloat.shortest_digits. rewrite Hab.
  assert (Ha : 0 <= a).
  { change (10 ^ 14) with 100000000000000 in Hlo. lia. }
  assert (Hhi' : a < 10 ^ 16 * b).
  { change (10 ^ 16) with 10000000000000000 in *. lia. }
  pose proof (dec_exp_large a b Hb Hlo Hhi') as Hd.
  pose proof (shortest_from_spec s s m e a b Ha Hb 16
                (1 - PyFloat.dec_exp a b)) as Hspec.
  assert (Hlast : 1 <= PyFloat.floor_at a b
                         (1 - PyFloat.dec_exp a b + Z.of_nat 16)).
  { apply floor_at_ge1; [lia | | lia].
    change (10 ^ 14) with 100000000000000 in Hlo. lia. }
  specialize (Hspec Hlast).
  destruct (PyFloat.shortest_from _ s a b 16 (1 - PyFloat.dec_exp a b))
    as [c k].
  destruct Hspec as (Hk & Hc & Hrb).
  pose proof (floor_at_lt a b 16 k Ha Hb Hhi' ltac:(lia) ltac:(lia)) as Hlt.
  assert (Hc' : 1 <= c < 10 ^ (16 + k)).
  { split; [lia |].
    destruct (Z.eq_dec c (10 ^ (16 + k))) as [Ec | ]; [exfalso | lia].
    destruct (Z_lt_le_dec k (1 - PyFloat.dec_exp a b + Z.of_nat 16))
      as [Hin | Hend].
    - specialize (Hrb Hin). unfold PyFloat.reads_back in Hrb.
      rewrite Ec, read_decimal_1e16 in Hrb by lia.
      apply SFeqb_finite_eq in Hrb. destruct Hrb as [<- <-].
      vm_compute in Hab. inversion Hab; subst a b.
      change (10 ^ 16) with 10000000000000000 in Hhi. lia.
    - assert (Hfl : PyFloat.floor_at a b k = 10 ^ (16 + k) - 1) by lia.
      assert (Ek : k = 1 \/ k = 2) by lia.
      unfold PyFloat.floor_at, PyFloat.scale10 in Hfl.
      change (10 ^ 16) with 10000000000000000 in Hhi.
      destruct Ek as [-> | ->]; cbn [Z.leb Z.compare] in Hfl.
      + change (10 ^ 1) with 10 in Hfl.
        change (10 ^ (16 + 1) - 1) with 99999999999999999 in Hfl.
        pose proof (Z.mul_div_le (a * 10) b Hb) as Hdiv.
        rewrite Hfl in Hdiv. lia.
      + change (10 ^ 2) with 100 in Hfl.
        change (10 ^ (16 + 2) - 1) with 999999999999999999 in Hfl.
        pose proof (Z.mul_div_le (a * 100) b Hb) as Hdiv.
        rewrite Hfl in Hdiv. lia. }
  pose proof (strip_zeros_spec (S (Z.to_nat (Z.log2 c))) c k Hc') as Hstrip.
  destruct (PyFloat.strip_zeros _ c k) as [c' k'].
  destruct Hstrip as [Hc'' Hk'].
  apply (layout_digits c' k' Hc''). lia.
Qed.

(** A percentage that rounds to less than [10^18 - 100] hundredths
    prints, once rounded, as its sign, digits, a point, and one or two
    digits. *)
Lemma str_round2_shape (s : bool) (m : positive) (e : Z) :
  PyFloat.hundredths m e < 10 ^ 18 - 100 ->
  exists ip fp : list ascii,
    PyFloat.str (PyFloat.round2 (S754_finite s m e))
    = (PyFloat.sign_prefix s
       ++ string_of_list_ascii (ip ++ "."%char :: fp))%string /\
    is_digits ip = true /\ ip <> [] /\
    is_digits fp = true /\ (1 <= List.length fp <= 2)%nat.
Proof.
  intros Hn. pose proof (hundredths_nonneg m e) as H0.
  cbn [PyFloat.round2].
  destruct (Z.eq_dec (PyFloat.hundredths m e) 0) as [-> | Hne].
  { exists ["0"%char], ["0"%char].
    split; [reflexivity |]. split; [reflexivity |].
    split; [discriminate |]. split; [reflexivity | simpl; lia]. }
  destruct (Z_le_gt_dec (PyFloat.hundredths m e) (10 ^ 16)) as [Hsmall | Hbig].
  - destruct (nearest64_hundredths s (PyFloat.hundredths m e) ltac:(lia))
      as (m' & e' & Hr & He & Hlo & Hnear).
    destruct (repr_abs_hundredths s m' e' _ Hsmall Hr He Hlo Hnear)
      as (ip & fp & Hrepr & Hshape).
    exists ip, fp. split; [| exact Hshape].
    rewrite Hr. cbn [PyFloat.str]. now rewrite Hrepr.
  - destruct (nearest64_large s (PyFloat.hundredths m e) ltac:(lia))
      as (m' & e' & a & b & Hr & Hab & Hb & Hlo & Hhi).
    destruct (repr_abs_large s m' e' a b Hab Hb Hlo Hhi)
      as (ip & fp & Hrepr & Hshape).
    exists ip, fp. split; [| exact Hshape].
    rewrite Hr. cbn [PyFloat.str]. now rewrite Hrepr.
Qed.

Lemma gtb_zero_finite (s : bool) (m : positive) (e : Z) :
  PyFloat.gtb (S754_finite s m e) PyFloat.zero = negb s.
Proof. destruct s; reflexivity. Qed.

Lemma digits2_pos_bound (m : positive) : Zpos m < 2 ^ Zpos (digits2_pos m).
Proof.
  induction m as [m IH | m IH |]; cbn [digits2_pos];
    rewrite ?Pos2Z.inj_succ, ?Z.pow_succ_r by lia; lia.
Qed.

(** Every binary64 number below [10^16] in magnitude is in the range of
    [moderate]. *)
Lemma moderate_of_valid (x : PyFloat.float) :
  valid_binary PyFloat.prec PyFloat.emax x = true ->
  below_1e16 x = true ->
  moderate x = true.
Proof.
  destruct x as [| | | s m e]; try discriminate.
  cbn [valid_binary below_1e16 moderate].
  unfold bounded, canonical_mantissa, fexp, emin, PyFloat.prec, PyFloat.emax.
  intros Hv Hx. apply andb_prop in Hv. destruct Hv as [Hcanon _].
  apply Z.eqb_eq in Hcanon.
  pose proof (digits2_pos_bound m) as Hd.
  apply Z.ltb_lt.
  change (10 ^ 18 - 100) with 999999999999999900.
  unfold PyFloat.hundredths.
  unfold PyFloat.scale2 in *.
  destruct (0 <=? - e) eqn:He.
  - apply Z.leb_le in He.
    assert (Hm : Zpos m < 2 ^ 53).
    { eapply Z.lt_le_trans; [exact Hd |]. apply Z.pow_le_mono_r; lia. }
    change (2 ^ 53) with 9007199254740992 in Hm.
    rewrite Z.mul_1_l.
    pose proof (Z.pow_pos_nonneg 2 (- e) ltac:(lia) He) as HP.
    pose proof (rne_div_bound (100 * Zpos m) (2 ^ (- e)) ltac:(lia) HP) as Hr.
    nia.
  - apply Z.leb_gt in He.
    rewrite Z.opp_involutive in *.
    apply Z.ltb_lt in Hx. rewrite Z.mul_1_r in Hx.
    change (10 ^ 16) with 10000000000000000 in Hx.
    pose proof (rne_div_bound (100 * Zpos m * 2 ^ e) 1 ltac:(nia) ltac:(lia))
      as Hr.
    assert (E : 2 ^ e = 2 * 2 ^ (e - 1)).
    { rewrite <- Z.pow_succ_r by lia. f_equal. lia. }
    pose proof (Z.pow_pos_nonneg 2 (e - 1) ltac:(lia) ltac:(lia)).
    nia.
Qed.

(** What [calculate_pitch_adjustment] returns is the literal ["0"], or a
    sign followed by a decimal with one or two fraction digits; this for
    every percentage that is finite and rounds to less than
    [10^16 - 1]. *)
Lemma calculated_adjustment_shape (track_bpm base_bpm : PyFloat.float)
    (adj : string) :
  calculate_pitch_adjustment track_bpm base_bpm = Ok adj ->
  (PyFloat.eqb base_bpm track_bpm = false ->
   forall pct, percentage track_bpm base_bpm = Ok pct ->
               moderate pct = true) ->
  adj = "0"%string \/ is_signed_decimal 1 2 adj = true.
Proof.
  unfold calculate_pitch_adjustment. intros Hadj Hmod.
  destruct (PyFloat.eqb base_bpm track_bpm); [left; congruence |].
  right.
  destruct (percentage track_bpm base_bpm) as [pct | err];
    [| discriminate].
  specialize (Hmod eq_refl pct eq_refl).
  destruct pct as [| | | s m e]; try discriminate.
  apply Z.ltb_lt in Hmod.
  destruct (str_round2_shape s m e Hmod)
    as (ip & fp & Hstr & Hip & Hne & Hfp & Hlen).
  cbn [bind] in Hadj. rewrite gtb_zero_finite, Hstr in Hadj.
  destruct s; cbn [negb PyFloat.sign_prefix] in Hadj; inversion Hadj.
  - apply (signed_decimal_intro 1 2 "-"); auto.
  - apply (signed_decimal_intro 1 2 "+"); auto.
Qed.

(** C8, as the code has it: the adjustment stored in a record of
    [scan_directory] is the literal ["0"], or a sign followed by a
    decimal with one or two fraction digits (a trailing zero is not
    printed); this for every record whose percentage is finite and rounds
    to less than [10^16 - 1]. *)
Theorem stored_adjustment_shape {path fs : Type} {FS : FileSystem path fs}
    (d : path) (base_bpm : PyFloat.float) (w w' : world fs)
    (tracks : list (TrackInfo path)) :
  scan_directory d base_bpm w = (Ok tracks, w') ->
  Forall (fun t =>
            (PyFloat.eqb base_bpm (bpm t) = false ->
             forall pct, percentage (bpm t) base_bpm = Ok pct ->
                         moderate pct = true) ->
            pitch_adjustment t = "0"%string \/
            is_signed_decimal 1 2 (pitch_adjustment t) = true)
         tracks.
Proof.
  unfold scan_directory.
  destruct (fs_iterdir (files w) d) as [entries | msg]; [| discriminate].
  intros Hscan.
  pose proof (scan_entries_consistent base_bpm entries [] tracks w w'
                (Forall_nil _) Hscan) as Hrec.
  apply (Forall_impl _ (P := record_consistent base_bpm)); [| exact Hrec].
  intros t [_ Hadj] Hmod.
  exact (calculated_adjustment_shape (bpm t) base_bpm _ Hadj Hmod).
Qed.

Lemma stored_adjustment_shape_witness :
  Forall (fun t =>
            pitch_adjustment t = "0"%string \/
            is_signed_decimal 1 2 (pitch_adjustment t) = true)
         TreeFS.scanned.
Proof.
  pose proof (stored_adjustment_shape (FS := TreeFS.file_system)
                TreeFS.music (PyFloat.of_Z 130) TreeFS.start TreeFS.start
                TreeFS.scanned) as H.
  assert (Hscan : scan_directory TreeFS.music (PyFloat.of_Z 130) TreeFS.start
                  = (Ok TreeFS.scanned, TreeFS.start))
    by (vm_compute; reflexivity).
  specialize (H Hscan).
  rewrite Forall_forall in *. intros t Ht.
  apply (H t Ht). intros _ pct Hpct.
  destruct Ht as [<- | [<- | [<- | []]]];
    vm_compute in Hpct; inversion Hpct; reflexivity.
Defined.

(** Exactly two fraction digits, as the specification words it, is not
    what the adjustment stored for the 125 BPM track, ["+4.0"], has. *)
Lemma stored_adjustment_two_digits_fails :
  scan_directory TreeFS.music (PyFloat.of_Z 130) TreeFS.start
  = (Ok TreeFS.scanned, TreeFS.start) /\
  ~ Forall (fun t =>
              pitch_adjustment t = "0"%string \/
              is_signed_decimal 2 2 (pitch_adjustment t) = true)
           TreeFS.scanned.
Proof.
  split; [vm_compute; reflexivity |].
  intros H. inversion H as [| t ts [H0 | H2] _]; subst.
  - discriminate H0.
  - vm_compute in H2. discriminate H2.
Qed.

(** The last percentage of the range, and the first one past it. *)
Example adjustment_at_range_end :
  calculate_pitch_adjustment (PyFloat.of_Z 1) (PyFloat.of_Z (10 ^ 14))
  = Ok "+9999999999999900.0"%string /\
  calculate_pitch_adjustment (PyFloat.of_Z 1) (PyFloat.of_Z (10 ^ 14 + 1))
  = Ok "+1e+16"%string.
Proof. vm_compute. split; reflexivity. Qed.

(** Past that range the adjustment takes other shapes: exponent
    notation for a huge base BPM, [inf] and [nan] for a base BPM that is
    not a number of finite size. *)
Example adjustment_beyond_range :
  calculate_pitch_adjustment (PyFloat.of_Z 100) (PyFloat.of_Z (10 ^ 22))
  = Ok "+1e+22"%string /\
  calculate_pitch_adjustment (PyFloat.of_Z 100) (S754_infinity false)
  = Ok "+inf"%string /\
  calculate_pitch_adjustment (PyFloat.of_Z 100) S754_nan = Ok "nan"%string.
Proof. vm_compute. repeat split; reflexivity. Qed.

(** A track BPM of zero is not an adjustment at all. *)
Example zero_track_bpm_raises :
  calculate_pitch_adjustment (PyFloat.of_Z 0) (PyFloat.of_Z 130)
  = Raise ZeroDivisionError.
Proof. reflexivity. Qed.

(* ================================================================= *)
(** * Further properties *)

(** ** What [BPM_PATTERN] finds *)

Lemma bpm_items_unfold (s : string) :
  Re.match_items (Re.items BPM_PATTERN) s
  = Re.rep Re.is_space
      (Re.rep (Re.is_char "-")
         (Re.rep Re.is_space
            (Re.rep Re.is_digit
               (Re.rep (Re.is_char ".") (fun _ => Some []) 1 (Some 1%nat) 0)
               2 (Some 3%nat) 0)
            1 (Some 1%nat) 0)
         1 (Some 1%nat) 0)
      1 (Some 1%nat) 0 s.
Proof. reflexivity. Qed.

Lemma str_drop_drop (n m : nat) (s : string) :
  str_drop n (str_drop m s) = str_drop (m + n) s.
Proof.
  revert s; induction m as [| m IH]; intros s; simpl; [reflexivity |].
  destruct s as [| c s]; [now destruct n | apply IH].
Qed.

Lemma str_drop_length (n : nat) (s : string) :
  String.length (str_drop n s) = (String.length s - n)%nat.
Proof.
  revert s; induction n as [| n IH]; intros [| c s]; simpl; auto.
Qed.

(** What a match of [BPM_PATTERN] at the head of [s] has read: white
    space, a hyphen, white space, two or three digits and a period. *)
Lemma bpm_match_sound (s : string) (ls : list nat) :
  Re.match_items (Re.items BPM_PATTERN) s = Some ls ->
  exists (c1 c2 c3 : ascii) (ds rest : string) (n : nat),
    s = String c1 (String c2 (String c3 (ds ++ String "." rest)))%string /\
    Re.is_space c1 = true /\ c2 = "-"%char /\ Re.is_space c3 = true /\
    str_forall Re.is_digit ds = true /\
    String.length ds = n /\ (2 <= n <= 3)%nat /\
    ls = [1; 1; 1; n; 1]%nat.
Proof.
  rewrite bpm_items_unfold. intros H.
  apply rep_sound in H.
  destruct H as (j1 & r1 & -> & H & Hc1 & Hl1 & Hlo1 & Hhi1).
  apply rep_sound in H.
  destruct H as (j2 & r2 & -> & H & Hc2 & Hl2 & Hlo2 & Hhi2).
  apply rep_sound in H.
  destruct H as (j3 & r3 & -> & H & Hc3 & Hl3 & Hlo3 & Hhi3).
  apply rep_sound in H.
  destruct H as (j4 & r4 & -> & H & Hc4 & Hl4 & Hlo4 & Hhi4).
  apply rep_sound in H.
  destruct H as (j5 & r5 & -> & H & Hc5 & Hl5 & Hlo5 & Hhi5).
  inversion H; subst r5; clear H.
  specialize (Hhi1 _ eq_refl). specialize (Hhi2 _ eq_refl).
  specialize (Hhi3 _ eq_refl). specialize (Hhi4 _ eq_refl).
  specialize (Hhi5 _ eq_refl). simpl in *.
  assert (j1 = 1%nat) by lia. assert (j2 = 1%nat) by lia.
  assert (j3 = 1%nat) by lia. assert (j5 = 1%nat) by lia. subst.
  destruct s as [| c1 s]; [simpl in Hl1; lia |].
  simpl in Hc1, Hc2, Hl2 |- *. rewrite andb_true_r in Hc1.
  destruct s as [| c2 s]; [simpl in Hl2; lia |].
  simpl in Hc2, Hc3, Hl3 |- *. rewrite andb_true_r in Hc2.
  destruct s as [| c3 s]; [simpl in Hl3; lia |].
  simpl in Hc3, Hc4, Hc5, Hl4, Hl5 |- *. rewrite andb_true_r in Hc3.
  unfold Re.is_char in Hc2. apply Ascii.eqb_eq in Hc2.
  pose proof (str_take_drop j4 s) as Hs.
  destruct (str_drop j4 s) as [| c5 rest] eqn:Hrest; [simpl in Hl5; lia |].
  simpl in Hc5. rewrite andb_true_r in Hc5.
  unfold Re.is_char in Hc5. apply Ascii.eqb_eq in Hc5. subst c5.
  exists c1, c2, c3, (str_take j4 s), rest, j4.
  rewrite Hs.
  split; [reflexivity |]. split; [assumption |]. split; [now symmetry |].
  split; [assumption |]. split; [assumption |].
  split; [now apply str_take_length |]. split; [lia | reflexivity].
Qed.

Lemma bpm_match_complete (c1 c3 : ascii) (ds rest : string) :
  Re.is_space c1 = true -> Re.is_space c3 = true ->
  str_forall Re.is_digit ds = true ->
  (2 <= String.length ds <= 3)%nat ->
  Re.match_items (Re.items BPM_PATTERN)
    (String c1 (String "-" (String c3 (ds ++ String "." rest))))
  = Some [1; 1; 1; String.length ds; 1]%nat.
Proof.
  intros H1 H3 Hds Hlen. rewrite bpm_items_unfold.
  set (K := Re.rep (Re.is_char ".") (fun _ => Some []) 1 (Some 1%nat) 0).
  assert (Hdot : forall t, K (String "." t) = Some [1%nat]).
  { intros t. now apply rep_one. }
  clearbody K.
  apply rep_one; [exact H1 |].
  apply rep_one; [reflexivity |].
  apply rep_one; [exact H3 |].
  destruct ds as [| d1 [| d2 [| d3 [| d4 ds]]]]; simpl in Hlen; try lia;
    simpl in Hds.
  - apply andb_prop in Hds. destruct Hds as [Hd1 Hd2].
    rewrite andb_true_r in Hd2.
    cbn [append Re.rep]. rewrite Hd1, Hd2.
    change (Re.is_digit ".") with false.
    cbn. rewrite Hdot. reflexivity.
  - apply andb_prop in Hds. destruct Hds as [Hd1 Hds].
    apply andb_prop in Hds. destruct Hds as [Hd2 Hd3].
    rewrite andb_true_r in Hd3.
    cbn [append Re.rep]. rewrite Hd1, Hd2, Hd3.
    cbn. rewrite Hdot. reflexivity.
Qed.

Lemma digits_value_digits (s : string) :
  str_forall Re.is_digit s = true ->
  forall acc : Z, 0 <= acc ->
    exists v : Z,
      digits_value s acc = Some v /\
      acc * 10 ^ Z.of_nat (String.length s) <= v
      < (acc + 1) * 10 ^ Z.of_nat (String.length s).
Proof.
  induction s as [| c s IH]; intros Hs acc Hacc.
  - exists acc. simpl. split; [reflexivity | lia].
  - simpl in Hs. apply andb_prop in Hs. destruct Hs as [Hc Hs].
    assert (Hd : 0 <= Z.of_N (N_of_ascii c) - 48 <= 9).
    { unfold Re.is_digit in Hc. apply andb_prop in Hc.
      destruct Hc as [Ha Hb].
      apply N.leb_le in Ha. apply N.leb_le in Hb. lia. }
    cbn [digits_value]. rewrite Hc.
    destruct (IH Hs (10 * acc + (Z.of_N (N_of_ascii c) - 48))) as (v & Hv & Hb);
      [lia |].
    exists v. split; [exact Hv |].
    cbn [String.length]. rewrite Nat2Z.inj_succ, Z.pow_succ_r by lia.
    set (p := 10 ^ Z.of_nat (String.length s)) in *.
    assert (0 < p) by (apply Z.pow_pos_nonneg; lia).
    nia.
Qed.

Lemma float_of_str_digits (g : string) :
  str_forall Re.is_digit g = true ->
  (1 <= String.length g <= 3)%nat ->
  exists n : Z, 0 <= n <= 999 /\ digits_value g 0 = Some n /\
                float_of_str g = Some (PyFloat.of_Z n).
Proof.
  intros Hg Hlen.
  destruct (digits_value_digits g Hg 0) as (v & Hv & Hb); [lia |].
  exists v. split.
  - assert (10 ^ Z.of_nat (String.length g) <= 10 ^ 3).
    { apply Z.pow_le_mono_r; lia. }
    change (10 ^ 3) with 1000 in *. lia.
  - split; [exact Hv |].
    unfold float_of_str. destruct g; [simpl in Hlen; lia |].
    now rewrite Hv.
Qed.

Lemma str_drop_S (i : nat) (s : string) (c : ascii) (r : string) :
  str_drop i s = String c r -> str_drop (S i) s = r.
Proof.
  intros H. replace (S i) with (i + 1)%nat by lia.
  rewrite <- str_drop_drop, H. reflexivity.
Qed.

Lemma search_from_bpm_in (s : string) :
  forall (rest : string) (i : nat),
    str_drop i s = rest ->
    option_map (Re.group1 BPM_PATTERN) (Re.search_from BPM_PATTERN s rest i)
    = bpm_in rest.
Proof.
  induction rest as [| c rest IH]; intros i Hi.
  - cbn [Re.search_from bpm_in].
    destruct (Re.match_items _ _) as [ls |] eqn:Hm; [| reflexivity].
    apply bpm_match_sound in Hm.
    destruct Hm as (c1 & c2 & c3 & ds & r & n & E & _). discriminate E.
  - cbn [Re.search_from bpm_in].
    destruct (Re.match_items _ _) as [ls |] eqn:Hm.
    + destruct (bpm_match_sound _ _ Hm)
        as (c1 & c2 & c3 & ds & r & n & E & _ & _ & _ & _ & _ & _ & ->).
      cbn [option_map]. unfold Re.group1. cbn. f_equal.
      change (str_take (n + 0) (str_drop (i + 3) s)
              = str_take n (str_drop 3 (String c rest))).
      rewrite Nat.add_0_r, <- Hi, str_drop_drop. reflexivity.
    + apply IH. now apply str_drop_S with c.
Qed.

Lemma captured_bpm_in (name : string) : captured_bpm name = bpm_in name.
Proof. apply (search_from_bpm_in name name 0). reflexivity. Qed.

Lemma bpm_in_sound (s g : string) :
  bpm_in s = Some g -> holds_bpm s g.
Proof.
  induction s as [| c s IH]; cbn [bpm_in];
    destruct (Re.match_items _ _) as [ls |] eqn:Hm; intros H;
    try discriminate.
  - destruct (bpm_match_sound _ _ Hm)
      as (c1 & c2 & c3 & ds & r & n & E & H1 & -> & H3 & Hds & Hn & Hb & ->).
    rewrite E in H |- *. cbn [nth str_drop] in H.
    rewrite <- Hn, str_take_append in H. inversion H; subst g.
    exists ""%string, r, c1, c3. cbn [append]. rewrite Hn. auto.
  - destruct (IH H) as (before & after & c1 & c3 & -> & Hrest).
    exists (String c before), after, c1, c3. split; [reflexivity | exact Hrest].
Qed.

Lemma bpm_in_app (a s : string) :
  bpm_in s <> None -> bpm_in (a ++ s) <> None.
Proof.
  intros H. induction a as [| c a IH]; [exact H |].
  cbn [append bpm_in]. destruct (Re.match_items _ _); [discriminate | exact IH].
Qed.

Lemma bpm_in_complete (name ds : string) :
  holds_bpm name ds -> bpm_in name <> None.
Proof.
  intros (before & after & c1 & c3 & -> & H1 & H3 & Hds & Hlen).
  apply bpm_in_app. cbn [bpm_in].
  now rewrite bpm_match_complete.
Qed.

(** X1: [BPM_PATTERN.search] finds a match in a name exactly when the
    name holds, somewhere, a white-space character, a hyphen, a
    white-space character, two or three digits and a period, one after
    the other.  These are the names [scan_directory] goes on with. *)
Theorem bpm_search_iff_holds (name : string) :
  Re.search BPM_PATTERN name <> None <-> exists ds, holds_bpm name ds.
Proof.
  assert (E : Re.search BPM_PATTERN name <> None <-> bpm_in name <> None).
  { rewrite <- captured_bpm_in. unfold captured_bpm.
    destruct (Re.search BPM_PATTERN name); simpl; split; congruence. }
  rewrite E. split.
  - destruct (bpm_in name) as [g |] eqn:Hg; [| congruence].
    intros _. exists g. now apply bpm_in_sound.
  - intros [ds H]. now apply bpm_in_complete with ds.
Qed.

Lemma search_bpm_value (name : string) (m : Re.match_object) :
  Re.search BPM_PATTERN name = Some m ->
  holds_bpm name (Re.group1 BPM_PATTERN m) /\
  exists n : Z,
    0 <= n <= 999 /\
    digits_value (Re.group1 BPM_PATTERN m) 0 = Some n /\
    float_of_str (Re.group1 BPM_PATTERN m) = Some (PyFloat.of_Z n).
Proof.
  intros Hm.
  assert (Hg : bpm_in name = Some (Re.group1 BPM_PATTERN m)).
  { rewrite <- captured_bpm_in. unfold captured_bpm. now rewrite Hm. }
  pose proof (bpm_in_sound _ _ Hg) as Hh. split; [exact Hh |].
  destruct Hh as (before & after & c1 & c3 & _ & _ & _ & Hds & Hlen).
  apply float_of_str_digits; [exact Hds | lia].
Qed.


(** ** [generate_new_filename]: injective, nesting, seen again by the
    scan *)

Lemma str_drop_take_length (n : nat) (s : string) :
  str_drop (String.length (str_take n s)) s = str_drop n s.
Proof.
  revert s; induction n as [| n IH]; intros [| c s]; simpl; auto.
Qed.

Lemma str_forall_app (p : ascii -> bool) (a b : string) :
  str_forall p (a ++ b) = str_forall p a && str_forall p b.
Proof.
  induction a as [| c a IH]; simpl; [reflexivity |].
  now rewrite IH, andb_assoc.
Qed.

Lemma str_forall_impl (p q : ascii -> bool) (s : string) :
  (forall c, p c = true -> q c = true) ->
  str_forall p s = true -> str_forall q s = true.
Proof.
  intros Hpq. induction s as [| c s IH]; simpl; [reflexivity |].
  intros H. apply andb_prop in H. destruct H as [Hc Hs].
  now rewrite (Hpq _ Hc), IH.
Qed.

Lemma generate_with_prefix (prefix rest adj : string) :
  track_prefix Re.is_space prefix ->
  generate_new_filename (prefix ++ rest) adj
  = (prefix ++ "(" ++ adj ++ ") " ++ rest)%string.
Proof.
  intros Hp. unfold generate_new_filename, Re.re_match, Re.group1.
  destruct (track_match_complete prefix rest Hp) as (a & b & -> & Hl).
  simpl. replace (a + (b + 1))%nat with (String.length prefix) by lia.
  now rewrite str_take_append, str_drop_append.
Qed.

Lemma generate_new_filename_cases (name : string) :
  exists prefix rest : string,
    name = (prefix ++ rest)%string /\
    (track_prefix Re.is_space prefix \/
     (prefix = ""%string /\ Re.re_match TRACK_NUMBER_PATTERN name = None)) /\
    forall adj : string,
      generate_new_filename name adj
      = (prefix ++ "(" ++ adj ++ ") " ++ rest)%string.
Proof.
  unfold generate_new_filename, Re.re_match.
  destruct (Re.match_items _ name) as [ls |] eqn:Hm.
  - destruct (track_match_sound _ _ Hm) as (a & b & -> & Hp).
    exists (str_take (a + b + 1) name), (str_drop (a + b + 1) name).
    split; [now rewrite str_take_drop |]. split; [now left |].
    intros adj. unfold Re.group1. simpl.
    replace (a + (b + 1))%nat with (a + b + 1)%nat by lia.
    now rewrite str_drop_take_length.
  - exists ""%string, name. split; [reflexivity |].
    split; [now right | reflexivity].
Qed.

Lemma track_prefix_no_paren (prefix : string) :
  track_prefix Re.is_space prefix ->
  str_forall (not_char "(") prefix = true.
Proof.
  intros (ds & dot & w & -> & _ & Hds & Hdot & Hw).
  rewrite !str_forall_app. 
  rewrite (str_forall_impl Re.is_digit (not_char "(") ds); [| | exact Hds].
  - destruct Hdot as [-> | ->]; simpl; rewrite andb_true_r.
    + revert Hw. clear.
      destruct w as [[] [] [] [] [] [] [] []]; vm_compute; congruence.
    + revert Hw. clear.
      destruct w as [[] [] [] [] [] [] [] []]; vm_compute; congruence.
  - clear. intros c.
    destruct c as [[] [] [] [] [] [] [] []]; vm_compute; congruence.
Qed.

(** two strings cut at the first occurrence of a character *)
Lemma split_at_first (x : ascii) (a a' r r' : string) :
  str_forall (not_char x) a = true ->
  str_forall (not_char x) a' = true ->
  (a ++ String x r = a' ++ String x r')%string ->
  a = a' /\ r = r'.
Proof.
  revert a'. induction a as [| c a IH]; intros [| c' a'] Ha Ha' E;
    simpl in *.
  - inversion E. auto.
  - inversion E; subst c'. apply andb_prop in Ha'. destruct Ha' as [Hc _].
    unfold not_char, Re.is_char in Hc. rewrite Ascii.eqb_refl in Hc.
    discriminate.
  - inversion E; subst c. apply andb_prop in Ha. destruct Ha as [Hc _].
    unfold not_char, Re.is_char in Hc. rewrite Ascii.eqb_refl in Hc.
    discriminate.
  - inversion E; subst c'.
    apply andb_prop in Ha. apply andb_prop in Ha'.
    destruct (IH a' (proj2 Ha) (proj2 Ha') H1) as [-> ->]. auto.
Qed.

Lemma generate_new_filename_inj (name1 name2 adj1 adj2 : string) :
  str_forall (not_char ")") adj1 = true ->
  str_forall (not_char ")") adj2 = true ->
  generate_new_filename name1 adj1 = generate_new_filename name2 adj2 ->
  name1 = name2 /\ adj1 = adj2.
Proof.
  intros H1 H2 E.
  destruct (generate_new_filename_cases name1) as (p1 & r1 & -> & Hp1 & G1).
  destruct (generate_new_filename_cases name2) as (p2 & r2 & -> & Hp2 & G2).
  rewrite G1, G2 in E.
  assert (N : forall p n,
             track_prefix Re.is_space p \/
             (p = ""%string /\ Re.re_match TRACK_NUMBER_PATTERN n = None) ->
             str_forall (not_char "(") p = true).
  { intros p n [Hp | [-> _]]; [now apply track_prefix_no_paren | reflexivity]. }
  destruct (split_at_first "(" p1 p2 _ _ (N _ _ Hp1) (N _ _ Hp2) E)
    as [-> E'].
  destruct (split_at_first ")" adj1 adj2 _ _ H1 H2 E') as [-> E''].
  inversion E''. auto.
Qed.

(** X3: for adjustments without a closing parenthesis,
    [generate_new_filename] is injective: two results are equal only
    when both the names and the adjustments are. *)
Theorem new_filename_injective (name1 name2 adj1 adj2 : string) :
  str_forall (not_char ")") adj1 = true ->
  str_forall (not_char ")") adj2 = true ->
  (generate_new_filename name1 adj1 = generate_new_filename name2 adj2 <->
   name1 = name2 /\ adj1 = adj2).
Proof.
  intros H1 H2. split.
  - now apply generate_new_filename_inj.
  - intros [-> ->]. reflexivity.
Qed.

(** Without the condition two names can meet: an adjustment that holds
    a closing parenthesis imitates a name that was renamed before. *)
Example new_filename_collision :
  generate_new_filename "b" "a) (c" = generate_new_filename "(c) b" "a".
Proof. reflexivity. Qed.

Lemma no_prefix_after_paren (s : string) :
  Re.re_match TRACK_NUMBER_PATTERN (String "(" s) = None.
Proof. reflexivity. Qed.

(** X4: composing a name that was composed before puts the second
    adjustment in front of the first, after the same track-number
    prefix: the result is the single composition with the two
    adjustments joined by a closing parenthesis, a space and an opening
    parenthesis. *)
Theorem new_filename_nests (name adj adj' : string) :
  generate_new_filename (generate_new_filename name adj) adj'
  = generate_new_filename name (adj' ++ ") (" ++ adj).
Proof.
  destruct (generate_new_filename_cases name) as (p & r & -> & [Hp | [-> Hn]] & G).
  - rewrite !G. rewrite generate_with_prefix by exact Hp.
    now rewrite !append_assoc.
  - rewrite !G. cbn [append].
    unfold generate_new_filename at 1. rewrite no_prefix_after_paren.
    cbn [append]. now rewrite !append_assoc.
Qed.

Lemma bpm_head_not_space (c : ascii) (s : string) :
  Re.is_space c = false ->
  Re.match_items (Re.items BPM_PATTERN) (String c s) = None.
Proof.
  intros Hc. destruct (Re.match_items _ _) as [ls |] eqn:Hm; [| reflexivity].
  destruct (bpm_match_sound _ _ Hm) as (c1 & c2 & c3 & ds & r & n & E & H1 & _).
  inversion E; subst. congruence.
Qed.

Lemma bpm_second_not_hyphen (c1 c2 : ascii) (s : string) :
  Re.is_char "-" c2 = false ->
  Re.match_items (Re.items BPM_PATTERN) (String c1 (String c2 s)) = None.
Proof.
  intros Hc. destruct (Re.match_items _ _) as [ls |] eqn:Hm; [| reflexivity].
  destruct (bpm_match_sound _ _ Hm)
    as (c1' & c2' & c3 & ds & r & n & E & _ & H2 & _).
  inversion E; subst. discriminate Hc.
Qed.

Lemma bpm_match_empty :
  forall c, Re.match_items (Re.items BPM_PATTERN) (String c "") = None.
Proof.
  intros c. destruct (Re.match_items _ _) as [ls |] eqn:Hm; [| reflexivity].
  destruct (bpm_match_sound _ _ Hm)
    as (c1' & c2' & c3 & ds & r & n & E & _).
  inversion E.
Qed.

Lemma bpm_head_swap_some (c c' : ascii) (s : string) (ls : list nat) :
  Re.is_space c' = true ->
  Re.match_items (Re.items BPM_PATTERN) (String c s) = Some ls ->
  Re.match_items (Re.items BPM_PATTERN) (String c' s) = Some ls.
Proof.
  intros Hc' Hm.
  destruct (bpm_match_sound _ _ Hm)
    as (c1 & c2 & c3 & ds & r & n & E & H1 & -> & H3 & Hds & Hn & Hb & ->).
  inversion E; subst. now apply bpm_match_complete.
Qed.

Lemma bpm_head_swap (c c' : ascii) (s : string) :
  Re.is_space c = true -> Re.is_space c' = true ->
  Re.match_items (Re.items BPM_PATTERN) (String c s)
  = Re.match_items (Re.items BPM_PATTERN) (String c' s).
Proof.
  intros Hc Hc'.
  destruct (Re.match_items _ (String c s)) as [ls |] eqn:H1.
  - symmetry. now apply bpm_head_swap_some with c.
  - destruct (Re.match_items _ (String c' s)) as [ls |] eqn:H2;
      [| reflexivity].
    apply bpm_head_swap_some with (c' := c) in H2; [congruence | exact Hc].
Qed.

Lemma bpm_in_swap (c c' : ascii) (s : string) :
  Re.is_space c = true -> Re.is_space c' = true ->
  bpm_in (String c s) = bpm_in (String c' s).
Proof.
  intros Hc Hc'. cbn [bpm_in]. now rewrite (bpm_head_swap c c').
Qed.

Lemma bpm_in_skip (a s : string) :
  str_forall not_space a = true -> bpm_in (a ++ s) = bpm_in s.
Proof.
  induction a as [| c a IH]; cbn [append str_forall]; [reflexivity |].
  intros H. apply andb_prop in H. destruct H as [Hc Ha].
  unfold not_space in Hc. apply negb_true_iff in Hc.
  cbn [bpm_in]. rewrite bpm_head_not_space by exact Hc. now apply IH.
Qed.

Lemma bpm_in_paren (c : ascii) (s : string) :
  bpm_in (String c (String "(" s)) = bpm_in (String "(" s).
Proof.
  cbn [bpm_in]. now rewrite bpm_second_not_hyphen.
Qed.

Lemma digit_not_space (c : ascii) :
  Re.is_digit c = true -> not_space c = true.
Proof. destruct c as [[] [] [] [] [] [] [] []]; vm_compute; congruence. Qed.

(** X5: a name in which [BPM_PATTERN] finds a match still has one after
    [generate_new_filename], whatever the adjustment: a renamed file is
    picked up again by the next scan. *)
Theorem renamed_file_still_matches (name adj : string) :
  Re.search BPM_PATTERN name <> None ->
  Re.search BPM_PATTERN (generate_new_filename name adj) <> None.
Proof.
  assert (E : forall n, Re.search BPM_PATTERN n <> None <-> bpm_in n <> None).
  { intros n. rewrite <- captured_bpm_in. unfold captured_bpm.
    destruct (Re.search BPM_PATTERN n); simpl; split; congruence. }
  rewrite !E.
  destruct (generate_new_filename_cases name)
    as (p & r & -> & [Hp | [-> Hn]] & G); rewrite G; clear G E.
  - destruct Hp as (ds & dot & w & -> & _ & Hds & Hdot & Hw).
    rewrite !append_assoc.
    assert (Hskip : str_forall not_space (ds ++ dot) = true).
    { rewrite str_forall_app.
      rewrite (str_forall_impl _ _ ds digit_not_space Hds).
      destruct Hdot as [-> | ->]; reflexivity. }
    rewrite <- (append_assoc ds dot), bpm_in_skip by exact Hskip.
    cbn [append]. rewrite (bpm_in_swap w " ") by auto.
    intros H.
    replace (String w (String "(" (adj ++ String ")" (String " " r))))
      with ((String w (String "(" (adj ++ ")")) ++ String " " r))%string
      by (cbn [append]; now rewrite append_assoc).
    apply bpm_in_app, bpm_in_app. exact (bpm_in_app _ _ H).
  - cbn [append]. intros H.
    replace (String "(" (adj ++ String ")" (String " " r)))
      with ((String "(" (adj ++ ") ")) ++ r)%string
      by (cbn [append]; now rewrite append_assoc).
    exact (bpm_in_app _ _ H).
Qed.

(** X6: when the adjustment holds no white space, and the name has a
    track-number prefix or does not start with a hyphen, the digits
    captured in the new name are those captured in the original one. *)
Theorem renamed_file_same_bpm (name adj : string) :
  str_forall not_space adj = true ->
  Re.re_match TRACK_NUMBER_PATTERN name <> None \/
  head_fails (Re.is_char "-") name ->
  captured_bpm (generate_new_filename name adj) = captured_bpm name.
Proof.
  intros Hadj Hname. rewrite !captured_bpm_in.
  assert (Hmid : forall r, bpm_in (String "(" (adj ++ String ")" (String " " r)))
                           = bpm_in (String " " r)).
  { intros r.
    replace (String "(" (adj ++ String ")" (String " " r)))
      with ((String "(" (adj ++ ")")) ++ String " " r)%string
      by (cbn [append]; now rewrite append_assoc).
    apply bpm_in_skip. cbn [str_forall]. rewrite str_forall_app, Hadj.
    reflexivity. }
  destruct (generate_new_filename_cases name)
    as (p & r & -> & [Hp | [-> Hn]] & G); rewrite G; clear G.
  - destruct Hp as (ds & dot & w & -> & _ & Hds & Hdot & Hw).
    assert (Hskip : str_forall not_space (ds ++ dot) = true).
    { rewrite str_forall_app.
      rewrite (str_forall_impl _ _ ds digit_not_space Hds).
      destruct Hdot as [-> | ->]; reflexivity. }
    rewrite !append_assoc, <- !(append_assoc ds dot).
    rewrite !bpm_in_skip by exact Hskip.
    cbn [append]. rewrite bpm_in_paren, Hmid.
    rewrite ?bpm_in_skip by exact Hskip.
    now apply bpm_in_swap.
  - cbn [append]. rewrite Hmid.
    destruct Hname as [Hname | Hname]; [congruence |].
    cbn [bpm_in].
    destruct r as [| c r].
    + reflexivity.
    + simpl in Hname. now rewrite bpm_second_not_hyphen.
Qed.

(** ** The characters of an adjustment *)

Lemma str_forall_of_list (p : ascii -> bool) (l : list ascii) :
  str_forall p (string_of_list_ascii l) = forallb p l.
Proof. induction l as [| c l IH]; simpl; congruence. Qed.

Lemma digit_adjustment_char (c : ascii) :
  Re.is_digit c = true -> adjustment_char c = true.
Proof. intros H. unfold adjustment_char. now rewrite H. Qed.

Lemma digits_fuel_chars (fuel : nat) :
  forall (z : Z) (acc : list ascii),
    forallb adjustment_char acc = true ->
    forallb adjustment_char (PyFloat.digits_fuel fuel z acc) = true.
Proof.
  induction fuel as [| fuel IH]; intros z acc Hacc; cbn [PyFloat.digits_fuel];
    [exact Hacc |].
  assert (Hd : forallb adjustment_char (PyFloat.digit_char (z mod 10) :: acc)
               = true).
  { cbn [forallb]. rewrite Hacc, andb_true_r.
    apply digit_adjustment_char, digit_char_digit.
    apply Z.mod_pos_bound. lia. }
  destruct (z <? 10); [exact Hd | now apply IH].
Qed.

Lemma digits_of_Z_chars (z : Z) :
  forallb adjustment_char (PyFloat.digits_of_Z z) = true.
Proof. unfold PyFloat.digits_of_Z. now apply digits_fuel_chars. Qed.

Lemma zeros_chars (n : Z) : forallb adjustment_char (PyFloat.zeros n) = true.
Proof.
  unfold PyFloat.zeros. induction (Z.to_nat n) as [| k IH]; simpl; auto.
Qed.

Lemma format_fixed_chars (ds : list ascii) (decpt : Z) :
  forallb adjustment_char ds = true ->
  forallb adjustment_char (PyFloat.format_fixed ds decpt) = true.
Proof.
  intros Hds. unfold PyFloat.format_fixed.
  destruct (decpt <=? 0).
  - cbn [forallb]. rewrite forallb_app, zeros_chars, Hds. reflexivity.
  - destruct (_ <=? decpt).
    + rewrite !forallb_app, zeros_chars, Hds. reflexivity.
    + rewrite <- (firstn_skipn (Z.to_nat decpt) ds), forallb_app in Hds.
      apply andb_prop in Hds. destruct Hds as [Ha Hb].
      rewrite forallb_app. cbn [forallb]. rewrite Ha, Hb. reflexivity.
Qed.

Lemma format_exp_chars (ds : list ascii) (decpt : Z) :
  forallb adjustment_char ds = true ->
  forallb adjustment_char (PyFloat.format_exp ds decpt) = true.
Proof.
  intros Hds. unfold PyFloat.format_exp.
  rewrite forallb_app. apply andb_true_intro. split.
  - destruct ds as [| d [| d' ds]]; [reflexivity | exact Hds |].
    cbn [forallb] in Hds |- *. apply andb_prop in Hds.
    destruct Hds as [-> ->]. reflexivity.
  - cbn [forallb].
    assert (He : adjustment_char "e" = true) by reflexivity. rewrite He.
    assert (Hs : adjustment_char (if decpt - 1 <? 0 then "-"%char else "+"%char)
                 = true) by (destruct (_ <? 0); reflexivity).
    rewrite Hs. cbn [andb].
    destruct (_ <? 10); cbn [forallb]; rewrite digits_of_Z_chars; reflexivity.
Qed.

Lemma repr_abs_chars (s : bool) (m : positive) (e : Z) :
  forallb adjustment_char (PyFloat.repr_abs s m e) = true.
Proof.
  unfold PyFloat.repr_abs, PyFloat.shortest_digits.
  destruct (PyFloat.scale2 _ _ _) as [a b].
  destruct (PyFloat.shortest_from _ _ _ _ _ _) as [c k].
  destruct (PyFloat.strip_zeros _ _ _) as [c' k'].
  destruct (_ && _);
    [apply format_fixed_chars | apply format_exp_chars];
    apply digits_of_Z_chars.
Qed.

Lemma str_chars (x : PyFloat.float) :
  str_forall adjustment_char (PyFloat.str x) = true.
Proof.
  destruct x as [[|] | [|] | | [|] m e]; try reflexivity;
    cbn [PyFloat.str PyFloat.sign_prefix append str_forall];
    rewrite str_forall_of_list, repr_abs_chars; reflexivity.
Qed.

Lemma adjustment_char_plain (c : ascii) :
  adjustment_char c = true ->
  not_space c = true /\ not_char "(" c = true /\ not_char ")" c = true.
Proof.
  destruct c as [[] [] [] [] [] [] [] []]; vm_compute; intuition congruence.
Qed.

Lemma calculated_adjustment_chars (track_bpm base_bpm : PyFloat.float)
    (adj : string) :
  calculate_pitch_adjustment track_bpm base_bpm = Ok adj ->
  str_forall adjustment_char adj = true.
Proof.
  unfold calculate_pitch_adjustment.
  destruct (PyFloat.eqb base_bpm track_bpm).
  - intros H; inversion H. reflexivity.
  - destruct (percentage track_bpm base_bpm) as [pct | e]; [| discriminate].
    cbn [bind]. destruct (PyFloat.gtb pct PyFloat.zero); intros H;
      inversion H; cbn [append str_forall]; rewrite ?str_chars; reflexivity.
Qed.

Lemma str_not_empty (x : PyFloat.float) : PyFloat.str x <> ""%string.
Proof.
  destruct x as [[|] | [|] | | [|] m e]; try discriminate.
  cbn [PyFloat.str PyFloat.sign_prefix append]. intros H.
  assert (E : PyFloat.repr_abs false m e = []).
  { rewrite <- (list_ascii_of_string_of_list_ascii (PyFloat.repr_abs false m e)).
    now rewrite H. }
  revert E. unfold PyFloat.repr_abs.
  destruct (PyFloat.shortest_digits false m e) as [ds decpt].
  destruct (_ && _); intros E.
  - pose proof (format_fixed_point ds decpt) as P. now rewrite E in P.
  - pose proof (format_exp_mark ds decpt) as P. now rewrite E in P.
Qed.

(** X7: an adjustment that [calculate_pitch_adjustment] returns is not
    empty and is made of digits, the two signs, the point, the exponent
    mark and the letters of [inf] and [nan] only; it holds no white
    space and no parenthesis. *)
Theorem adjustment_alphabet (track_bpm base_bpm : PyFloat.float)
    (adj : string) :
  calculate_pitch_adjustment track_bpm base_bpm = Ok adj ->
  adj <> ""%string /\
  str_forall adjustment_char adj = true /\
  str_forall not_space adj = true /\
  str_forall (not_char "(") adj = true /\
  str_forall (not_char ")") adj = true.
Proof.
  intros H. pose proof (calculated_adjustment_chars _ _ _ H) as Hc.
  split.
  - revert H. unfold calculate_pitch_adjustment.
    destruct (PyFloat.eqb base_bpm track_bpm); [intros H; now inversion H |].
    destruct (percentage track_bpm base_bpm) as [pct | e]; [| discriminate].
    cbn [bind]. destruct (PyFloat.gtb pct PyFloat.zero); intros H;
      inversion H; [discriminate |].
    apply str_not_empty.
  - split; [exact Hc |].
    split; [| split];
      apply (str_forall_impl adjustment_char); try exact Hc;
      intros c Hcc; now apply adjustment_char_plain.
Qed.

(** ** The sign of an adjustment *)

Lemma binary_round_aux_sign (sx : bool) (mx ex : Z) (lx : location) :
  let r := binary_round_aux PyFloat.prec PyFloat.emax sx mx ex lx in
  r = S754_nan \/ sign_bit r = Some sx.
Proof.
  cbv zeta. unfold binary_round_aux.
  destruct (shr_fexp _ _ mx ex lx) as [mrs' e'].
  destruct (shr_fexp _ _ _ e' loc_Exact) as [mrs'' e''].
  destruct (shr_m mrs''); [right; reflexivity | | left; reflexivity].
  destruct (_ <=? _); right; reflexivity.
Qed.

Lemma binary_round_sign (sx : bool) (mx : positive) (ex : Z) :
  let r := binary_round PyFloat.prec PyFloat.emax sx mx ex in
  r = S754_nan \/ sign_bit r = Some sx.
Proof.
  cbv zeta. unfold binary_round.
  destruct (shl_align _ _ _) as [mz ez]. apply binary_round_aux_sign.
Qed.

Lemma shl_align_value (mx : positive) (ex ez : Z) :
  ez <= ex ->
  Zpos (fst (shl_align mx ex ez)) = Zpos mx * 2 ^ (ex - ez).
Proof.
  intros H. unfold shl_align.
  destruct (ez - ex) as [| p | p] eqn:E; cbn [fst].
  - replace (ex - ez) with 0 by lia. lia.
  - lia.
  - replace (ex - ez) with (Zpos p) by lia.
    clear. revert mx. 
    induction p as [| p IH] using Pos.peano_ind; intros mx.
    + cbn [Pos.iter]. lia.
    + rewrite Pos.iter_succ, Pos2Z.inj_succ, Z.pow_succ_r by lia.
      rewrite Pos2Z.inj_xO, IH. lia.
Qed.

Lemma digits2_pos_lower (m : positive) :
  2 ^ (Zpos (digits2_pos m) - 1) <= Zpos m.
Proof.
  induction m as [m IH | m IH |]; cbn [digits2_pos].
  - rewrite Pos2Z.inj_succ.
    replace (Z.succ (Zpos (digits2_pos m)) - 1)
      with (Z.succ (Zpos (digits2_pos m) - 1)) by lia.
    rewrite Z.pow_succ_r by lia. lia.
  - rewrite Pos2Z.inj_succ.
    replace (Z.succ (Zpos (digits2_pos m)) - 1)
      with (Z.succ (Zpos (digits2_pos m) - 1)) by lia.
    rewrite Z.pow_succ_r by lia. lia.
  - reflexivity.
Qed.

(** On two valid positive numbers the comparison of the code is the
    comparison of the values [m * 2^e]. *)
Lemma compare_valid_lt (m1 m2 : positive) (e1 e2 : Z) :
  bounded PyFloat.prec PyFloat.emax m1 e1 = true ->
  bounded PyFloat.prec PyFloat.emax m2 e2 = true ->
  Zpos (fst (shl_align m1 e1 (Z.min e1 e2)))
  < Zpos (fst (shl_align m2 e2 (Z.min e1 e2))) ->
  PyFloat.ltb (S754_finite false m1 e1) (S754_finite false m2 e2) = true.
Proof.
  unfold bounded, canonical_mantissa, fexp, emin, PyFloat.prec, PyFloat.emax.
  intros H1 H2.
  apply andb_prop in H1. destruct H1 as [C1 _]. apply Z.eqb_eq in C1.
  apply andb_prop in H2. destruct H2 as [C2 _]. apply Z.eqb_eq in C2.
  rewrite !shl_align_value by lia.
  unfold PyFloat.ltb, SFltb, SFcompare.
  destruct (e1 ?= e2) eqn:E.
  - apply Z.compare_eq in E. subst e2.
    rewrite Z.min_id, Z.sub_diag. change (2 ^ 0) with 1. intros H.
    assert (Hlt : (m1 < m2)%positive) by lia.
    apply Pos.compare_lt_iff in Hlt. unfold Pos.compare in Hlt.
    now rewrite Hlt.
  - reflexivity.
  - apply Z.compare_gt_iff in E. intros H. exfalso.
    rewrite Z.min_r, Z.sub_diag in H by lia. change (2 ^ 0) with 1 in H.
    pose proof (digits2_pos_lower m1) as L1.
    pose proof (digits2_pos_bound m2) as U2.
    assert (D1 : Zpos (digits2_pos m1) = 53) by lia.
    assert (D2 : Zpos (digits2_pos m2) <= 53) by lia.
    rewrite D1 in L1. change (2 ^ (53 - 1)) with 4503599627370496 in L1.
    assert (U2' : Zpos m2 < 2 ^ 53).
    { eapply Z.lt_le_trans; [exact U2 |]. apply Z.pow_le_mono_r; lia. }
    change (2 ^ 53) with 9007199254740992 in U2'.
    assert (P : 2 ^ 1 <= 2 ^ (e1 - e2)) by (apply Z.pow_le_mono_r; lia).
    change (2 ^ 1) with 2 in P. nia.
Qed.

Lemma sub_sign (m1 m2 : positive) (e1 e2 : Z) (s : bool) :
  sign_bit (PyFloat.sub (S754_finite false m1 e1) (S754_finite false m2 e2))
  = Some s ->
  (s = false ->
   PyFloat.is_zero (PyFloat.sub (S754_finite false m1 e1)
                      (S754_finite false m2 e2)) = false) ->
  if s
  then Zpos (fst (shl_align m1 e1 (Z.min e1 e2)))
       < Zpos (fst (shl_align m2 e2 (Z.min e1 e2)))
  else Zpos (fst (shl_align m2 e2 (Z.min e1 e2)))
       < Zpos (fst (shl_align m1 e1 (Z.min e1 e2))).
Proof.
  unfold PyFloat.sub, SFsub. cbn [cond_Zopp].
  set (a := Zpos (fst (shl_align m1 e1 (Z.min e1 e2)))).
  set (b := Zpos (fst (shl_align m2 e2 (Z.min e1 e2)))).
  unfold binary_normalize.
  destruct (a - b) as [| p | p] eqn:E.
  - intros Hs Hz. inversion Hs; subst s. discriminate (Hz eq_refl).
  - intros Hs _.
    destruct (binary_round_sign false p (Z.min e1 e2)) as [N | S];
      cbv zeta in *.
    + rewrite N in Hs. discriminate.
    + rewrite S in Hs. inversion Hs; subst s. lia.
  - intros Hs _.
    destruct (binary_round_sign true p (Z.min e1 e2)) as [N | S];
      cbv zeta in *.
    + rewrite N in Hs. discriminate.
    + rewrite S in Hs. inversion Hs; subst s. lia.
Qed.

Lemma div_sign (d : PyFloat.float) (m : positive) (e : Z) (s : bool) :
  sign_bit (SFdiv PyFloat.prec PyFloat.emax d (S754_finite false m e))
  = Some s ->
  sign_bit d = Some s /\
  (PyFloat.is_zero d = true ->
   PyFloat.is_zero (SFdiv PyFloat.prec PyFloat.emax d (S754_finite false m e))
   = true).
Proof.
  destruct d as [sd | sd | | sd md ed]; cbn [SFdiv sign_bit PyFloat.is_zero];
    rewrite ?xorb_false_r; try (intros H; split; [exact H | auto]; fail);
    try discriminate.
  destruct (SFdiv_core_binary _ _ _ _ _ _) as [[mz ez] lz].
  intros H.
  destruct (binary_round_aux_sign sd mz ez lz) as [N | S]; cbv zeta in *.
  - rewrite N in H. discriminate.
  - rewrite S in H. split; [exact H | discriminate].
Qed.

Lemma mul_sign (q : PyFloat.float) (m : positive) (e : Z) (s : bool) :
  sign_bit (PyFloat.mul q (S754_finite false m e)) = Some s ->
  sign_bit q = Some s /\
  (PyFloat.is_zero q = true ->
   PyFloat.is_zero (PyFloat.mul q (S754_finite false m e)) = true).
Proof.
  unfold PyFloat.mul.
  destruct q as [sq | sq | | sq mq eq]; cbn [SFmul sign_bit PyFloat.is_zero];
    rewrite ?xorb_false_r; try (intros H; split; [exact H | auto]; fail);
    try discriminate.
  intros H.
  destruct (binary_round_aux_sign sq (Zpos (mq * m)) (eq + e) loc_Exact)
    as [N | S]; cbv zeta in *.
  - rewrite N in H. discriminate.
  - rewrite S in H. split; [exact H | discriminate].
Qed.

(** the sign of the percentage tells which of the two is the faster *)
Lemma percentage_sign (track_bpm base_bpm pct : PyFloat.float) (s : bool) :
  valid_binary PyFloat.prec PyFloat.emax track_bpm = true ->
  valid_binary PyFloat.prec PyFloat.emax base_bpm = true ->
  positive_finite track_bpm = true ->
  positive_finite base_bpm = true ->
  percentage track_bpm base_bpm = Ok pct ->
  sign_bit pct = Some s ->
  (s = false -> PyFloat.is_zero pct = false) ->
  if s then PyFloat.ltb base_bpm track_bpm = true
  else PyFloat.ltb track_bpm base_bpm = true.
Proof.
  destruct track_bpm as [| | | [|] mt et]; try discriminate.
  destruct base_bpm as [| | | [|] mb eb]; try discriminate.
  cbn [valid_binary]. intros Vt Vb _ _.
  intros H.
  assert (E : pct
              = PyFloat.mul
                  (SFdiv PyFloat.prec PyFloat.emax
                     (PyFloat.sub (S754_finite false mb eb)
                        (S754_finite false mt et))
                     (S754_finite false mt et))
                  (S754_finite false 7036874417766400 (-46))).
  { inversion H. reflexivity. }
  clear H. subst pct. intros Hs Hz.
  apply mul_sign in Hs. destruct Hs as [Hs Hz1].
  apply div_sign in Hs. destruct Hs as [Hs Hz2].
  apply sub_sign in Hs.
  - destruct s.
    + apply compare_valid_lt; assumption.
    + apply compare_valid_lt; try assumption.
      now rewrite Z.min_comm.
  - intros ->.
    destruct (PyFloat.is_zero (PyFloat.sub _ _)) eqn:Z0; [| reflexivity].
    rewrite Hz1 in Hz; [discriminate (Hz eq_refl) | now apply Hz2].
Qed.

Lemma digits_fuel_head (fuel : nat) :
  forall (z : Z) (acc : list ascii),
    exists (d : ascii) (tl : list ascii),
      PyFloat.digits_fuel (S fuel) z acc = d :: tl /\
      Re.is_digit d = true.
Proof.
  induction fuel as [| fuel IH]; intros z acc.
  - cbn [PyFloat.digits_fuel].
    exists (PyFloat.digit_char (z mod 10)), acc.
    split; [now destruct (z <? 10) |].
    apply digit_char_digit, Z.mod_pos_bound. lia.
  - change (PyFloat.digits_fuel (S (S fuel)) z acc)
      with (let acc' := PyFloat.digit_char (z mod 10) :: acc in
            if z <? 10 then acc'
            else PyFloat.digits_fuel (S fuel) (z / 10) acc').
    cbv zeta. destruct (z <? 10); [| apply IH].
    eexists _, _. split; [reflexivity |].
    apply digit_char_digit, Z.mod_pos_bound. lia.
Qed.

Lemma repr_abs_head (s : bool) (m : positive) (e : Z) :
  exists (d : ascii) (tl : list ascii),
    PyFloat.repr_abs s m e = d :: tl /\ Re.is_digit d = true.
Proof.
  unfold PyFloat.repr_abs, PyFloat.shortest_digits.
  destruct (PyFloat.scale2 _ _ _) as [a b].
  destruct (PyFloat.shortest_from _ _ _ _ _ _) as [c k].
  destruct (PyFloat.strip_zeros _ _ _) as [c' k'].
  unfold PyFloat.digits_of_Z.
  destruct (digits_fuel_head (Z.to_nat (Z.log2 c')) c' []) as (d & tl & -> & Hd).
  set (decpt := Z.of_nat (List.length (d :: tl)) - k').
  destruct (_ && _).
  - unfold PyFloat.format_fixed.
    destruct (decpt <=? 0) eqn:E0; [eexists _, _; split; reflexivity |].
    destruct (_ <=? decpt); [eexists _, _; split; [reflexivity | exact Hd] |].
    apply Z.leb_gt in E0.
    destruct (Z.to_nat decpt) as [| n] eqn:En; [lia |].
    eexists _, _; split; [reflexivity | exact Hd].
  - unfold PyFloat.format_exp.
    destruct tl; eexists _, _; split; try reflexivity; exact Hd.
Qed.

Lemma str_head (x : PyFloat.float) (c : ascii) (rest : string) :
  PyFloat.str x = String c rest ->
  c <> "+"%char /\ (c = "-"%char -> sign_bit x = Some true).
Proof.
  destruct x as [[|] | [|] | | [|] m e];
    cbn [PyFloat.str PyFloat.sign_prefix append sign_bit];
    intros H; inversion H; subst; try (split; [discriminate | auto; discriminate]).
  destruct (repr_abs_head false m e) as (d & tl & E & Hd).
  rewrite E in H1. cbn in H1. inversion H1; subst.
  split; intros ->; discriminate Hd.
Qed.

(** X8: on valid positive binary64 numbers the sign of the adjustment
    tells the direction: a result that starts with a plus sign is
    returned only when the track BPM is below the base BPM, and one that
    starts with a minus sign only when it is above. *)
Theorem adjustment_sign_direction (track_bpm base_bpm : PyFloat.float)
    (adj : string) :
  valid_binary PyFloat.prec PyFloat.emax track_bpm = true ->
  valid_binary PyFloat.prec PyFloat.emax base_bpm = true ->
  positive_finite track_bpm = true ->
  positive_finite base_bpm = true ->
  calculate_pitch_adjustment track_bpm base_bpm = Ok adj ->
  (forall rest, adj = String "+" rest ->
                PyFloat.ltb track_bpm base_bpm = true) /\
  (forall rest, adj = String "-" rest ->
                PyFloat.ltb base_bpm track_bpm = true).
Proof.
  intros Vt Vb Pt Pb. unfold calculate_pitch_adjustment.
  destruct (PyFloat.eqb base_bpm track_bpm);
    [intros H; inversion H; split; intros; discriminate |].
  destruct (percentage track_bpm base_bpm) as [pct | e] eqn:Hp;
    [| discriminate].
  cbn [bind].
  pose proof (percentage_sign _ _ _ false Vt Vb Pt Pb Hp) as Hpos.
  pose proof (percentage_sign _ _ _ true Vt Vb Pt Pb Hp) as Hneg.
  cbv iota in Hpos, Hneg.
  destruct (PyFloat.gtb pct PyFloat.zero) eqn:Hg; intros H; inversion H;
    subst adj; clear H.
  - split; [| intros; discriminate].
    intros _ _. apply Hpos; [now apply gtb_zero_sign |].
    intros _. destruct pct as [| | | ]; try reflexivity. discriminate Hg.
  - split; intros rest E; apply str_head in E; destruct E as [Hne Hs];
      [congruence |].
    specialize (Hs eq_refl). rewrite round2_sign in Hs.
    apply Hneg; [exact Hs | discriminate].
Qed.

(** ** [scan_directory]: what it keeps, logs and raises *)



Lemma of_Z_small (n : Z) :
  1 <= n <= 999 -> positive_finite (PyFloat.of_Z n) = true.
Proof.
  intros Hn.
  assert (H : forallb (fun k => positive_finite (PyFloat.of_Z (Z.of_nat k)))
                (seq 1 999) = true) by (vm_compute; reflexivity).
  rewrite forallb_forall in H.
  specialize (H (Z.to_nat n)). rewrite Z2Nat.id in H by lia.
  apply H. apply in_seq. lia.
Qed.


Lemma calculate_zero_track (base_bpm : PyFloat.float) :
  calculate_pitch_adjustment (PyFloat.of_Z 0) base_bpm
  = if PyFloat.eqb base_bpm PyFloat.zero then Ok "0"%string
    else Raise ZeroDivisionError.
Proof.
  unfold calculate_pitch_adjustment.
  change (PyFloat.of_Z 0) with PyFloat.zero.
  destruct (PyFloat.eqb base_bpm PyFloat.zero); reflexivity.
Qed.

Section ScanProperties.

Context {path fs : Type} {FS : FileSystem path fs}.

Lemma log_fields (l : level) (msg : string) (w : world fs) :
  files (log l msg w) = files w /\
  stdout (log l msg w) = stdout w /\
  logger_level (log l msg w) = logger_level w /\
  logged (log l msg w)
  = (logged w ++
     if (level_rank (logger_level w) <=? level_rank l)%nat
     then [(l, msg)] else [])%list.
Proof.
  unfold log. destruct (_ <=? _)%nat; cbn; rewrite ?app_nil_r; auto.
Qed.

Lemma scan_entries_ok (base_bpm : PyFloat.float) (entries : list path) :
  forall (acc tracks : list (TrackInfo path)) (w w' : world fs),
    scan_entries entries base_bpm acc w = (Ok tracks, w') ->
    exists new : list (TrackInfo path),
      tracks = (acc ++ new)%list /\
      map original_path new = filter (is_track (files w)) entries /\
      Forall record_reads_entry new /\
      stdout w' = stdout w /\
      logger_level w' = logger_level w /\
      logged w'
      = (logged w ++
         if debug_enabled w
         then map skip_message (filter (is_skipped (files w)) entries)
         else [])%list.
Proof.
  induction entries as [| entry entries IH]; intros acc tracks w w' H;
    cbn [scan_entries] in H.
  - inversion H; subst. exists []. rewrite !app_nil_r.
    cbn. destruct (debug_enabled w'); rewrite ?app_nil_r;
      (split; [reflexivity |]); (split; [reflexivity |]);
      (split; [constructor |]); auto.
  - unfold is_track, is_skipped, has_bpm in *. cbn [filter].
    destruct (fs_is_file (files w) entry) eqn:Hfile; cbn [negb andb] in *;
      [| now apply IH].
    destruct (Re.search BPM_PATTERN (path_name entry)) as [m |] eqn:Hm;
      cbn [negb].
    + destruct (search_bpm_value _ _ Hm) as (Hh & n & Hn & Hv & Hf).
      rewrite Hf in H.
      destruct (calculate_pitch_adjustment (PyFloat.of_Z n) base_bpm)
        as [adj | e]; [| discriminate].
      destruct (IH _ _ _ _ H) as (new & -> & Hmap & Hall & Hrest).
      eexists (_ :: new). rewrite <- app_assoc.
      split; [reflexivity |]. cbn [map original_path]. rewrite Hmap.
      split; [reflexivity |]. split; [| exact Hrest].
      constructor; [| exact Hall].
      split; [reflexivity |]. cbn [original_name bpm].
      exists (Re.group1 BPM_PATTERN m), n.
      unfold captured_bpm. rewrite Hm. auto.
    + destruct (IH _ _ _ _ H) as (new & -> & Hmap & Hall & Hout & Hlev & Hlog).
      destruct (log_fields DEBUG
                  ("Skipping (no BPM pattern): " ++ path_name entry) w)
        as (Ef & Eo & El & Eg).
      rewrite Ef in Hmap, Hlog. exists new.
      split; [reflexivity |]. split; [exact Hmap |]. split; [exact Hall |].
      split; [congruence |]. split; [congruence |].
      rewrite Hlog, Eg. unfold debug_enabled. rewrite El.
      rewrite <- app_assoc. f_equal.
      destruct (_ <=? _)%nat; reflexivity.
Qed.

(** X9: the records of a scan are, in the order of the listing, the
    entries that are regular files and whose name matches
    [BPM_PATTERN], each once; a record names its entry and holds the
    number written in the entry's name. *)
Theorem scan_keeps_matching_files (d : path) (base_bpm : PyFloat.float)
    (w w' : world fs) (entries : list path) (tracks : list (TrackInfo path)) :
  fs_iterdir (files w) d = Done entries ->
  scan_directory d base_bpm w = (Ok tracks, w') ->
  map original_path tracks = filter (is_track (files w)) entries /\
  Forall record_reads_entry tracks.
Proof.
  unfold scan_directory. intros -> H.
  destruct (scan_entries_ok _ _ _ _ _ _ H) as (new & -> & Hmap & Hall & _).
  auto.
Qed.

(** X10: a scan that returns leaves the file system, the standard
    output and the logger level alone.  It logs one debug record for
    each regular file without a BPM, in order, when the logger lets
    debug records through, and nothing otherwise: the warning about an
    invalid BPM is never written. *)
Theorem scan_only_logs_skips (d : path) (base_bpm : PyFloat.float)
    (w w' : world fs) (entries : list path) (tracks : list (TrackInfo path)) :
  fs_iterdir (files w) d = Done entries ->
  scan_directory d base_bpm w = (Ok tracks, w') ->
  files w' = files w /\
  stdout w' = stdout w /\
  logger_level w' = logger_level w /\
  logged w'
  = (logged w ++
     if (level_rank (logger_level w) <=? level_rank DEBUG)%nat
     then map skip_message (filter (is_skipped (files w)) entries)
     else [])%list.
Proof.
  intros Hiter H.
  pose proof (scan_directory_files d base_bpm w) as Hf.
  rewrite H in Hf. split; [exact Hf |].
  unfold scan_directory in H. rewrite Hiter in H.
  destruct (scan_entries_ok _ _ _ _ _ _ H) as (new & _ & _ & _ & Hrest).
  exact Hrest.
Qed.



(** X12: for a base BPM other than zero every record of a scan holds a
    whole BPM from 1 to 999, a positive finite float. *)
Theorem scanned_bpm_positive (d : path) (base_bpm : PyFloat.float)
    (w w' : world fs) (tracks : list (TrackInfo path)) :
  PyFloat.eqb base_bpm PyFloat.zero = false ->
  scan_directory d base_bpm w = (Ok tracks, w') ->
  Forall (fun t => exists n : Z, 1 <= n <= 999 /\ bpm t = PyFloat.of_Z n /\
                                 positive_finite (bpm t) = true) tracks.
Proof.
  intros Hb H.
  assert (Hc : Forall (record_consistent base_bpm) tracks).
  { unfold scan_directory in H.
    destruct (fs_iterdir (files w) d) as [entries | msg]; [| discriminate].
    apply (scan_entries_consistent base_bpm entries [] tracks w w');
      [constructor | exact H]. }
  assert (Hr : Forall record_reads_entry tracks).
  { unfold scan_directory in H.
    destruct (fs_iterdir (files w) d) as [entries | msg]; [| discriminate].
    destruct (scan_entries_ok _ _ _ _ _ _ H) as (new & -> & _ & Hall & _).
    exact Hall. }
  rewrite Forall_forall in *. intros t Ht.
  destruct (Hr t Ht) as (_ & g & n & _ & _ & Hn & Hbpm).
  destruct (Hc t Ht) as [_ Hadj].
  exists n. rewrite Hbpm in *.
  destruct (Z.eq_dec n 0) as [-> | Hnz].
  - rewrite calculate_zero_track, Hb in Hadj. discriminate.
  - split; [lia |]. split; [reflexivity | apply of_Z_small; lia].
Qed.

(** X13: two records of one scan with the same new name have the same
    original name and the same adjustment: files with different names
    are never sent to one target. *)
Theorem scanned_new_names_distinct (d : path) (base_bpm : PyFloat.float)
    (w w' : world fs) (tracks : list (TrackInfo path))
    (t1 t2 : TrackInfo path) :
  scan_directory d base_bpm w = (Ok tracks, w') ->
  In t1 tracks -> In t2 tracks ->
  new_name t1 = new_name t2 ->
  original_name t1 = original_name t2 /\
  pitch_adjustment t1 = pitch_adjustment t2.
Proof.
  intros H H1 H2 E.
  assert (Hc : Forall (record_consistent base_bpm) tracks).
  { unfold scan_directory in H.
    destruct (fs_iterdir (files w) d) as [entries | msg]; [| discriminate].
    apply (scan_entries_consistent base_bpm entries [] tracks w w');
      [constructor | exact H]. }
  rewrite Forall_forall in Hc.
  destruct (Hc _ H1) as [N1 A1]. destruct (Hc _ H2) as [N2 A2].
  rewrite N1, N2 in E.
  apply generate_new_filename_inj in E; [exact E | |].
  - apply (str_forall_impl adjustment_char);
      [intros c Hcc; now apply adjustment_char_plain |].
    now apply calculated_adjustment_chars with (bpm t1) base_bpm.
  - apply (str_forall_impl adjustment_char);
      [intros c Hcc; now apply adjustment_char_plain |].
    now apply calculated_adjustment_chars with (bpm t2) base_bpm.
Qed.

End ScanProperties.

(** ** [rename_tracks] and [main]: parts, reports, quiet and dry runs *)

Section RenameProperties.

Context {path fs : Type} {FS : FileSystem path fs}.

Lemma rename_loop_app (tracks1 tracks2 : list (TrackInfo path)) (dry : bool) :
  forall (count : nat) (w : world fs),
    rename_loop (tracks1 ++ tracks2) dry count w
    = rename_loop tracks2 dry (fst (rename_loop tracks1 dry count w))
        (snd (rename_loop tracks1 dry count w)).
Proof.
  induction tracks1 as [| t tracks1 IH]; intros count w;
    cbn [app rename_loop]; [reflexivity |].
  destruct dry; [apply IH |].
  destruct (fs_rename _ _ _); apply IH.
Qed.

Lemma rename_loop_count (tracks : list (TrackInfo path)) (dry : bool) :
  forall (count : nat) (w : world fs),
    rename_loop tracks dry count w
    = ((count + fst (rename_loop tracks dry 0 w))%nat,
       snd (rename_loop tracks dry 0 w)).
Proof.
  induction tracks as [| t tracks IH]; intros count w; cbn [rename_loop].
  - cbn. now rewrite Nat.add_0_r.
  - destruct dry.
    + rewrite IH. rewrite (IH (0 + 1)%nat). cbn [fst snd]. f_equal. lia.
    + destruct (fs_rename _ _ _).
      * rewrite IH. rewrite (IH (0 + 1)%nat). cbn [fst snd]. f_equal. lia.
      * apply IH.
Qed.

(** X14: renaming a list of records in two parts, the second part in
    the world the first has left, gives the same world as renaming the
    whole list, and the counts add up. *)
Theorem rename_tracks_app (tracks1 tracks2 : list (TrackInfo path))
    (dry : bool) (w : world fs) :
  rename_tracks (tracks1 ++ tracks2) dry w
  = let '(n1, w1) := rename_tracks tracks1 dry w in
    let '(n2, w2) := rename_tracks tracks2 dry w1 in
    ((n1 + n2)%nat, w2).
Proof.
  unfold rename_tracks. rewrite rename_loop_app.
  destruct (rename_loop tracks1 dry 0 w) as [n1 w1]. cbn [fst snd].
  rewrite rename_loop_count.
  destruct (rename_loop tracks2 dry 0 w1) as [n2 w2]. reflexivity.
Qed.

Lemma errors_log (l : level) (msg : string) (w : world fs) :
  errors (log l msg w)
  = (errors w + match l with ERROR => 1 | _ => 0 end)%nat.
Proof.
  unfold errors, log.
  destruct l, (logger_level w); cbn [level_rank Nat.leb logged];
    rewrite ?filter_app, ?length_app; cbn; lia.
Qed.

Lemma rename_loop_errors (tracks : list (TrackInfo path)) :
  forall (count : nat) (w : world fs),
    (errors w <= errors (snd (rename_loop tracks false count w)))%nat /\
    (errors (snd (rename_loop tracks false count w))
     + fst (rename_loop tracks false count w)
     = errors w + count + List.length tracks)%nat /\
    stdout (snd (rename_loop tracks false count w)) = stdout w /\
    logger_level (snd (rename_loop tracks false count w)) = logger_level w.
Proof.
  induction tracks as [| t tracks IH]; intros count w;
    cbn [rename_loop List.length].
  - cbn. auto with arith.
  - destruct (fs_rename _ _ _) as [f' | msg].
    + match goal with
      | |- context [rename_loop tracks false ?c ?w0] =>
          destruct (IH c w0) as (M & E & O & L)
      end.
      rewrite errors_log in M, E. rewrite O, L.
      destruct (log_fields INFO
                  ("Renamed: " ++ original_name t ++ " -> " ++ new_name t)
                  (set_files f' w)) as (_ & -> & -> & _).
      change (errors (set_files f' w)) with (errors w) in M, E.
      split; [lia |]. split; [lia | auto].
    + match goal with
      | |- context [rename_loop tracks false ?c ?w0] =>
          destruct (IH c w0) as (M & E & O & L)
      end.
      rewrite errors_log in M, E. rewrite O, L.
      destruct (log_fields ERROR
                  ("Failed to rename " ++ original_name t ++ ": " ++ msg) w)
        as (_ & -> & -> & _).
      split; [lia |]. split; [lia | auto].
Qed.

(** X15: outside a dry run the count never exceeds the number of
    records, every record that is not counted adds one error record to
    the log, whatever the logger level, and nothing is printed. *)
Theorem rename_reports_failures (tracks : list (TrackInfo path))
    (w : world fs) :
  let n := fst (rename_tracks tracks false w) in
  let w' := snd (rename_tracks tracks false w) in
  (n <= List.length tracks)%nat /\
  errors w' = (errors w + (List.length tracks - n))%nat /\
  stdout w' = stdout w.
Proof.
  cbv zeta. unfold rename_tracks.
  destruct (rename_loop_errors tracks 0 w) as (M & E & O & _).
  split; [lia |]. split; [lia | exact O].
Qed.

End RenameProperties.

Section MainEffects.

Context {path fs : Type} {FS : FileSystem path fs}.

Lemma scan_entries_inv (P : world fs -> Prop) (base_bpm : PyFloat.float)
    (entries : list path) :
  (forall l msg w, P w -> P (log l msg w)) ->
  forall (acc : list (TrackInfo path)) (w : world fs),
    P w -> P (snd (scan_entries entries base_bpm acc w)).
Proof.
  intros Hlog.
  induction entries as [| entry entries IH]; intros acc w Hw;
    cbn [scan_entries]; [exact Hw |].
  destruct (negb (fs_is_file (files w) entry)); [now apply IH |].
  destruct (Re.search BPM_PATTERN (path_name entry)) as [m |];
    [| now apply IH, Hlog].
  destruct (float_of_str (Re.group1 BPM_PATTERN m)) as [b |];
    [| now apply IH, Hlog].
  destruct (calculate_pitch_adjustment b base_bpm); [now apply IH | exact Hw].
Qed.

Lemma scan_directory_inv (P : world fs -> Prop) (d : path)
    (base_bpm : PyFloat.float) (w : world fs) :
  (forall l msg w, P w -> P (log l msg w)) ->
  P w -> P (snd (scan_directory d base_bpm w)).
Proof.
  intros Hlog Hw. unfold scan_directory.
  destruct (fs_iterdir (files w) d); [| exact Hw].
  now apply scan_entries_inv.
Qed.

Lemma rename_loop_inv (P : world fs -> Prop)
    (tracks : list (TrackInfo path)) (dry : bool) :
  (forall l msg w, P w -> P (log l msg w)) ->
  (forall line w, P w -> P (print line w)) ->
  (forall f w, P w -> P (set_files f w)) ->
  forall (count : nat) (w : world fs),
    P w -> P (snd (rename_loop tracks dry count w)).
Proof.
  intros Hlog Hprint Hset.
  induction tracks as [| t tracks IH]; intros count w Hw;
    cbn [rename_loop]; [exact Hw |].
  destruct dry; [now apply IH, Hprint, Hprint, Hprint |].
  destruct (fs_rename _ _ _); [now apply IH, Hlog, Hset | now apply IH, Hlog].
Qed.

Lemma main_inv (P : world fs -> Prop) (parsed_args : Namespace path)
    (w : world fs) :
  (forall l msg w, P w -> P (log l msg w)) ->
  (forall line w, P w -> P (print line w)) ->
  (forall f w, P w -> P (set_files f w)) ->
  P (configured parsed_args w) ->
  P (snd (main parsed_args w)).
Proof.
  intros Hlog Hprint Hset Hw. unfold main.
  fold (configured parsed_args w). cbv zeta.
  destruct (negb (fs_exists _ _)); [now apply Hlog |].
  destruct (negb (fs_is_dir _ _)); [now apply Hlog |].
  destruct (PyFloat.leb _ _); [now apply Hlog |].
  set (w1 := log INFO _ (log INFO _ _)).
  assert (H1 : P w1).
  { unfold w1. apply Hlog, Hlog. destruct (_ || _); [now apply Hlog | exact Hw]. }
  pose proof (scan_directory_inv P
                (fs_resolve (files (configured parsed_args w))
                   (directory parsed_args))
                (arg_bpm parsed_args) w1 Hlog H1) as H2.
  destruct (scan_directory _ _ w1) as [[tracks | e] w2]; cbn [snd] in H2;
    [| exact H2].
  destruct tracks as [| t tracks]; [now apply Hlog |].
  set (w3 := if dry_run parsed_args then print _ _ else _).
  assert (H3 : P w3).
  { unfold w3. destruct (dry_run parsed_args); [apply Hprint |]; now apply Hlog. }
  pose proof (rename_loop_inv P (t :: tracks) (dry_run parsed_args)
                Hlog Hprint Hset 0 w3 H3) as H4.
  fold (rename_tracks (t :: tracks) (dry_run parsed_args) w3) in H4.
  destruct (rename_tracks (t :: tracks) (dry_run parsed_args) w3)
    as [renamed_count w4].
  cbn [snd] in H4 |- *.
  destruct (dry_run parsed_args); [now apply Hprint | now apply Hlog].
Qed.

(** X16: with [--quiet], also next to [--verbose], [main] leaves the
    logger at [ERROR] and adds nothing but error records to the log. *)
Theorem quiet_logs_errors_only (parsed_args : Namespace path)
    (w : world fs) :
  quiet parsed_args = true ->
  logger_level (snd (main parsed_args w)) = ERROR /\
  exists extra : list (level * string),
    logged (snd (main parsed_args w)) = (logged w ++ extra)%list /\
    forallb is_error extra = true.
Proof.
  intros Hq. apply (main_inv (quiet_since w)).
  - intros l msg w1 (Hl & extra & E & Herr). unfold log. rewrite Hl.
    destruct l; cbn [level_rank Nat.leb];
      try exact (conj Hl (ex_intro _ extra (conj E Herr))).
    split; [reflexivity |]. exists (extra ++ [(ERROR, msg)])%list.
    cbn [logged]. rewrite E, app_assoc, forallb_app, Herr. auto.
  - intros line w1 (Hl & extra & E & Herr).
    exact (conj Hl (ex_intro _ extra (conj E Herr))).
  - intros f w1 (Hl & extra & E & Herr).
    exact (conj Hl (ex_intro _ extra (conj E Herr))).
  - unfold configured. rewrite Hq. split; [reflexivity |].
    exists []. cbn. now rewrite app_nil_r.
Qed.

(** X17: with [--dry-run], [main] leaves the file system as it found
    it, in every case. *)
Theorem main_dry_run_keeps_files (parsed_args : Namespace path)
    (w : world fs) :
  dry_run parsed_args = true ->
  files (snd (main parsed_args w)) = files w.
Proof.
  intros Hdry. unfold main. rewrite Hdry.
  fold (configured parsed_args w). cbv zeta.
  destruct (negb (fs_exists _ _));
    [cbn [snd]; now rewrite files_log, files_configured |].
  destruct (negb (fs_is_dir _ _));
    [cbn [snd]; now rewrite files_log, files_configured |].
  destruct (PyFloat.leb _ _);
    [cbn [snd]; now rewrite files_log, files_configured |].
  set (w1 := log INFO _ (log INFO _ _)).
  assert (Hw1 : files w1 = files w).
  { unfold w1. rewrite !files_log.
    destruct (_ || _); [rewrite files_log |]; apply files_configured. }
  pose proof (scan_directory_files
                (fs_resolve (files (configured parsed_args w))
                   (directory parsed_args))
                (arg_bpm parsed_args) w1) as H2.
  destruct (scan_directory _ _ w1) as [[tracks | e] w2]; cbn [snd] in H2 |- *;
    [| congruence].
  destruct tracks as [| t tracks];
    [cbn [snd]; rewrite files_log; congruence |].
  unfold rename_tracks.
  match goal with
  | |- context [rename_loop ?ts true 0 ?w0] =>
      destruct (rename_loop_dry ts 0 w0) as (_ & Hf & _);
      destruct (rename_loop ts true 0 w0) as [renamed_count w4]
  end.
  cbn [snd] in Hf |- *. rewrite files_print, Hf, files_print, files_log.
  congruence.
Qed.

(** X18: without [--dry-run], [main] prints nothing: all it reports
    goes to the logger. *)
Theorem main_prints_in_dry_run_only (parsed_args : Namespace path)
    (w : world fs) :
  dry_run parsed_args = false ->
  stdout (snd (main parsed_args w)) = stdout w.
Proof.
  intros Hdry.
  assert (Hlog : forall l msg (w1 : world fs),
             stdout (log l msg w1) = stdout w1).
  { intros l msg w1. now destruct (log_fields l msg w1) as (_ & -> & _). }
  assert (Hconf : stdout (configured parsed_args w) = stdout w).
  { unfold configured. destruct (quiet parsed_args); [reflexivity |].
    destruct (verbose parsed_args); reflexivity. }
  unfold main. rewrite Hdry.
  fold (configured parsed_args w). cbv zeta.
  destruct (negb (fs_exists _ _)); [cbn [snd]; now rewrite Hlog |].
  destruct (negb (fs_is_dir _ _)); [cbn [snd]; now rewrite Hlog |].
  destruct (PyFloat.leb _ _); [cbn [snd]; now rewrite Hlog |].
  set (w1 := log INFO _ (log INFO _ _)).
  assert (Hw1 : stdout w1 = stdout w).
  { unfold w1. rewrite !Hlog.
    destruct (_ || _); [rewrite Hlog |]; exact Hconf. }
  pose proof (scan_directory_inv (fun w' => stdout w' = stdout w)
                (fs_resolve (files (configured parsed_args w))
                   (directory parsed_args))
                (arg_bpm parsed_args) w1) as H2.
  cbv beta in H2.
  specialize (H2 (fun l msg w' E => eq_trans (Hlog l msg w') E) Hw1).
  destruct (scan_directory _ _ w1) as [[tracks | e] w2]; cbn [snd] in H2 |- *;
    [| exact H2].
  destruct tracks as [| t tracks]; [cbn [snd]; now rewrite Hlog |].
  unfold rename_tracks.
  match goal with
  | |- context [rename_loop ?ts false 0 ?w0] =>
      destruct (rename_loop_errors ts 0 w0) as (_ & _ & Ho & _);
      destruct (rename_loop ts false 0 w0) as [renamed_count w4]
  end.
  cbn [snd] in Ho |- *. now rewrite Hlog, Ho, Hlog.
Qed.

(** X19: past the checks of the arguments and outside a dry run, [main]
    returns 0 and leaves the file system that the renames of the scanned
    records give, tried in order on the file system it started from. *)
Theorem main_renames_what_scan_finds (parsed_args : Namespace path)
    (w : world fs) (tracks : list (TrackInfo path)) :
  let d := fs_resolve (files w) (directory parsed_args) in
  fs_exists (files w) d = true ->
  fs_is_dir (files w) d = true ->
  PyFloat.leb (arg_bpm parsed_args) PyFloat.zero = false ->
  dry_run parsed_args = false ->
  fst (scan_directory d (arg_bpm parsed_args) w) = Ok tracks ->
  fst (main parsed_args w) = Ok 0 /\
  files (snd (main parsed_args w)) = snd (attempts tracks (files w)).
Proof.
  intros d Hex Hdir Hbpm Hdry Hscan. unfold main.
  fold (configured parsed_args w). cbv zeta.
  rewrite !files_configured. fold d. rewrite Hex, Hdir, Hbpm, Hdry.
  cbn [negb].
  set (w1 := log INFO _ (log INFO _ _)).
  assert (Hw1 : files w1 = files w).
  { unfold w1. rewrite !files_log.
    destruct (_ || _); [rewrite files_log |]; apply files_configured. }
  pose proof (scan_directory_world d (arg_bpm parsed_args) w1 w Hw1) as Hs.
  pose proof (scan_directory_files d (arg_bpm parsed_args) w1) as Hf.
  rewrite Hscan in Hs.
  destruct (scan_directory d (arg_bpm parsed_args) w1) as [r w2].
  cbn [fst snd] in Hs, Hf. subst r.
  destruct tracks as [| t tracks].
  - cbn [fst snd attempts]. rewrite files_log. split; [reflexivity | congruence].
  - unfold rename_tracks.
    match goal with
    | |- context [rename_loop ?ts false 0 ?w0] =>
        destruct (rename_loop_attempts ts 0 w0) as (_ & Ha);
        destruct (rename_loop ts false 0 w0) as [renamed_count w4]
    end.
    cbn [fst snd] in Ha |- *. split; [reflexivity |].
    rewrite files_log, Ha, files_log. congruence.
Qed.


End MainEffects.

(** ** The properties at work on [TreeFS] *)


Lemma new_filename_injective_witness :
  generate_new_filename TreeFS.song_a "+4.0"
  = generate_new_filename TreeFS.song_b "+4.0" <->
  TreeFS.song_a = TreeFS.song_b /\ "+4.0"%string = "+4.0"%string.
Proof.
  apply (new_filename_injective TreeFS.song_a TreeFS.song_b "+4.0" "+4.0");
    reflexivity.
Defined.

Lemma renamed_file_still_matches_witness :
  Re.search BPM_PATTERN (generate_new_filename TreeFS.song_a "+4.0") <> None.
Proof.
  apply (renamed_file_still_matches TreeFS.song_a "+4.0").
  vm_compute. discriminate.
Defined.

Lemma renamed_file_same_bpm_witness :
  captured_bpm (generate_new_filename TreeFS.random_track "+1.56")
  = captured_bpm TreeFS.random_track.
Proof.
  apply (renamed_file_same_bpm TreeFS.random_track "+1.56").
  - reflexivity.
  - right. reflexivity.
Defined.

Lemma adjustment_alphabet_witness :
  "-7.14"%string <> ""%string /\
  str_forall adjustment_char "-7.14" = true /\
  str_forall not_space "-7.14" = true /\
  str_forall (not_char "(") "-7.14" = true /\
  str_forall (not_char ")") "-7.14" = true.
Proof.
  apply (adjustment_alphabet (PyFloat.of_Z 140) (PyFloat.of_Z 130) "-7.14").
  vm_compute. reflexivity.
Defined.

Lemma adjustment_sign_direction_witness :
  PyFloat.ltb (PyFloat.of_Z 125) (PyFloat.of_Z 130) = true /\
  PyFloat.ltb (PyFloat.of_Z 130) (PyFloat.of_Z 140) = true.
Proof.
  split.
  - refine (proj1 (adjustment_sign_direction (PyFloat.of_Z 125)
                     (PyFloat.of_Z 130) "+4.0"%string _ _ _ _ _) "4.0"%string eq_refl);
      vm_compute; reflexivity.
  - refine (proj2 (adjustment_sign_direction (PyFloat.of_Z 140)
                     (PyFloat.of_Z 130) "-7.14"%string _ _ _ _ _) "7.14"%string eq_refl);
      vm_compute; reflexivity.
Defined.

Lemma scan_keeps_matching_files_witness :
  map original_path TreeFS.scanned
  = filter (is_track TreeFS.dj_set) (map fst (tl TreeFS.dj_set)) /\
  Forall record_reads_entry TreeFS.scanned.
Proof.
  apply (scan_keeps_matching_files TreeFS.music (PyFloat.of_Z 130)
           TreeFS.start TreeFS.start (map fst (tl TreeFS.dj_set))
           TreeFS.scanned);
    vm_compute; reflexivity.
Defined.

Lemma scan_only_logs_skips_witness :
  logged (snd (scan_directory TreeFS.music (PyFloat.of_Z 130) verbose_start))
  = [(DEBUG, "Skipping (no BPM pattern): notes.txt"%string)].
Proof.
  destruct (scan_only_logs_skips TreeFS.music (PyFloat.of_Z 130)
              verbose_start
              (snd (scan_directory TreeFS.music (PyFloat.of_Z 130)
                      verbose_start))
              (map fst (tl TreeFS.dj_set)) TreeFS.scanned)
    as (_ & _ & _ & H); [vm_compute; reflexivity | vm_compute; reflexivity |].
  rewrite H. vm_compute. reflexivity.
Defined.


Lemma scanned_bpm_positive_witness :
  Forall (fun t : TrackInfo TreeFS.path =>
            exists n : Z, 1 <= n <= 999 /\ bpm t = PyFloat.of_Z n /\
                          positive_finite (bpm t) = true)
         TreeFS.scanned.
Proof.
  apply (scanned_bpm_positive TreeFS.music (PyFloat.of_Z 130)
           TreeFS.start TreeFS.start TreeFS.scanned);
    vm_compute; reflexivity.
Defined.

Lemma scanned_new_names_distinct_witness :
  new_name first_track <> new_name second_track.
Proof.
  intros E.
  destruct (scanned_new_names_distinct TreeFS.music (PyFloat.of_Z 130)
              TreeFS.start TreeFS.start TreeFS.scanned
              first_track second_track) as [H _].
  - vm_compute. reflexivity.
  - left. reflexivity.
  - right. left. reflexivity.
  - exact E.
  - discriminate H.
Defined.

Lemma quiet_logs_errors_only_witness :
  logger_level (snd (main quiet_run TreeFS.song_a_gone)) = ERROR /\
  exists extra : list (level * string),
    logged (snd (main quiet_run TreeFS.song_a_gone))
    = (logged TreeFS.song_a_gone ++ extra)%list /\
    forallb is_error extra = true.
Proof.
  apply (quiet_logs_errors_only quiet_run TreeFS.song_a_gone). reflexivity.
Defined.

Lemma main_dry_run_keeps_files_witness :
  files (snd (main (run_in TreeFS.music 130 true) TreeFS.start))
  = files TreeFS.start.
Proof.
  apply (main_dry_run_keeps_files (run_in TreeFS.music 130 true) TreeFS.start).
  reflexivity.
Defined.

Lemma main_prints_in_dry_run_only_witness :
  stdout (snd (main (run_in TreeFS.music 130 false) TreeFS.start))
  = stdout TreeFS.start.
Proof.
  apply (main_prints_in_dry_run_only (run_in TreeFS.music 130 false)
           TreeFS.start).
  reflexivity.
Defined.

Lemma main_renames_what_scan_finds_witness :
  fst (main (run_in TreeFS.music 130 false) TreeFS.start) = Ok 0 /\
  files (snd (main (run_in TreeFS.music 130 false) TreeFS.start))
  = snd (attempts TreeFS.scanned (files TreeFS.start)).
Proof.
  apply (main_renames_what_scan_finds (FS := TreeFS.file_system)
           (run_in TreeFS.music 130 false) TreeFS.start TreeFS.scanned);
    vm_compute; reflexivity.
Defined.

